(** * cleaning.py: the market-data cleaning job, embedded and verified

    The script [cleaning.py] is a straight-line batch job over a polars
    data frame: it normalises the header, normalises text cells, tries to
    parse the "trade" columns as dates, casts the known columns to the
    target schema, removes duplicate rows, and writes three aggregates.

    The embedding follows the script stage by stage.  Python's built-ins
    ([str.strip], [str.lower], [re.sub], [in]) and the polars operations
    the script calls are given as executable functions; every stage of
    the script is a definition that bears the name the script uses.

    Text is [string]; each [ascii] stands for one code point in
    U+0000..U+00FF (so the embedding covers Latin-1 text, including the
    non-ASCII letters that Python's [\w] accepts).

    Conventions on the engine, which is not part of the repository:
    - a strict [strptime] that meets a value it cannot read raises
      [ComputeError], the exception that the handler of cleaning.py:71
      names; a null value is not a failure;
    - a non-strict [cast] turns a value that does not convert into a
      null and never raises;
    - where the engine leaves an order open ([unique], [group_by],
      [sort] on equal keys), the functions below keep the order of the
      rows, and the statements that depend on the order say so;
    - binary64 numbers are [spec_float] at precision 53, so that the
      arithmetic of Aggregate 3 is the IEEE arithmetic bit for bit;
    - the standard output of the script and the reading of the CSV file
      are left out: [main] starts from the frame that was read. *)

From Stdlib Require Import ZArith NArith List String Ascii Bool Lia.
From Stdlib Require Import Permutation Sorted SetoidList.
From Stdlib Require Import SpecFloat DecimalString.
From Stdlib Require Decimal DecimalPos DecimalN.
Import ListNotations.

Open Scope string_scope.
Open Scope list_scope.

(* ================================================================== *)
(** * Characters and strings *)
(* ================================================================== *)

Module Chars.

Definition code (c : ascii) : N := N_of_ascii c.

Definition between (lo hi : N) (c : ascii) : bool :=
  (N.leb lo (code c) && N.leb (code c) hi)%bool.

(** ASCII decimal digits, the only digits a numeric field accepts. *)
Definition is_digit (c : ascii) : bool := between 48 57 c.


(** [str.isspace] of Python, which [str.strip()] uses: the Unicode
    white space together with the separators U+001C..U+001F. *)
Definition py_isspace (c : ascii) : bool :=
  (between 9 13 c || between 28 32 c
   || N.eqb (code c) 133 || N.eqb (code c) 160)%bool.

(** [\s] of the regex engine behind [str.replace_all] (the Unicode
    property White_Space). *)
Definition re_space (c : ascii) : bool :=
  (between 9 13 c || N.eqb (code c) 32
   || N.eqb (code c) 133 || N.eqb (code c) 160)%bool.

(** [\w] of Python's [re] on [str] patterns: alphanumeric code points
    and the underscore. *)
Definition py_word (c : ascii) : bool :=
  (between 48 57 c || between 65 90 c || N.eqb (code c) 95
   || between 97 122 c
   || N.eqb (code c) 170 || between 178 179 c || N.eqb (code c) 181
   || between 185 186 c || between 188 190 c
   || between 192 214 c || between 216 246 c || between 248 255 c)%bool.

(** Lower-casing of one code point ([str.lower], [str.to_lowercase]). *)
Definition lower (c : ascii) : ascii :=
  if (between 65 90 c || between 192 214 c || between 216 222 c)%bool
  then ascii_of_N (code c + 32)
  else c.


Definition underscore : ascii := "_"%char.

End Chars.

Module Str.

Fixpoint drop_while (p : ascii -> bool) (s : string) : string :=
  match s with
  | EmptyString => EmptyString
  | String c r => if p c then drop_while p r else s
  end.

Fixpoint rev_onto (s acc : string) : string :=
  match s with
  | EmptyString => acc
  | String c r => rev_onto r (String c acc)
  end.

Definition rev (s : string) : string := rev_onto s EmptyString.

(** Removal of the leading and of the trailing run of characters in
    the class [p]. *)
Definition strip_class (p : ascii -> bool) (s : string) : string :=
  rev (drop_while p (rev (drop_while p s))).

Fixpoint map (f : ascii -> ascii) (s : string) : string :=
  match s with
  | EmptyString => EmptyString
  | String c r => String (f c) (map f r)
  end.

Fixpoint forallb (p : ascii -> bool) (s : string) : bool :=
  match s with
  | EmptyString => true
  | String c r => (p c && forallb p r)%bool
  end.

Definition head (s : string) : option ascii :=
  match s with
  | EmptyString => None
  | String c _ => Some c
  end.

Fixpoint last (s : string) : option ascii :=
  match s with
  | EmptyString => None
  | String c EmptyString => Some c
  | String _ r => last r
  end.

(** [sub in s] of Python, for strings. *)
Fixpoint contains (sub s : string) : bool :=
  (String.prefix sub s
   || match s with
      | EmptyString => false
      | String _ r => contains sub r
      end)%bool.

Fixpoint mem (s : string) (l : list string) : bool :=
  match l with
  | [] => false
  | x :: r => (String.eqb s x || mem s r)%bool
  end.

Fixpoint nodupb (l : list string) : bool :=
  match l with
  | [] => true
  | x :: r => (negb (mem x r) && nodupb r)%bool
  end.

End Str.

(** ** Python built-ins used on the header *)

Module Py.

(** [s.strip()] *)
Definition strip (s : string) : string := Str.strip_class Chars.py_isspace s.

(** [s.lower()] *)
Definition lower (s : string) : string := Str.map Chars.lower s.

(** [re.sub(r'\W+', '_', s)]: every maximal run of non-word
    characters is replaced by one underscore.  [in_run] tells that the
    previous character already belonged to the run being replaced. *)
Fixpoint sub_nonword_runs (in_run : bool) (s : string) : string :=
  match s with
  | EmptyString => EmptyString
  | String c r =>
      if Chars.py_word c then String c (sub_nonword_runs false r)
      else if in_run then sub_nonword_runs true r
      else String Chars.underscore (sub_nonword_runs true r)
  end.

Definition re_sub_nonword (s : string) : string := sub_nonword_runs false s.

End Py.

(** The name a column gets in stage 2 (cleaning.py:17). *)
Definition normalize_header (col : string) : string :=
  Py.re_sub_nonword (Py.lower (Py.strip col)).






(* ================================================================== *)
(** * Calendar dates and the strptime / strftime of the engine *)
(* ================================================================== *)

(** A calendar date of the proleptic Gregorian calendar.  The engine
    stores a date as a day count; the fields are kept here and
    [Dates.to_days] gives the count. *)
Record date : Type := mkDate { year : Z; month : Z; day : Z }.

Module Dates.

Local Open Scope Z_scope.

Definition is_leap (y : Z) : bool :=
  ((y mod 4 =? 0) && (negb (y mod 100 =? 0) || (y mod 400 =? 0)))%bool.

Definition days_in_month (y m : Z) : Z :=
  if (m =? 2) then (if is_leap y then 29 else 28)
  else if ((m =? 4) || (m =? 6) || (m =? 9) || (m =? 11))%bool then 30
  else 31.

(** The years the date library accepts. *)
Definition MIN_YEAR : Z := -262143.
Definition MAX_YEAR : Z := 262142.

(** [NaiveDate::from_ymd_opt] *)
Definition from_ymd_opt (y m d : Z) : option date :=
  if ((MIN_YEAR <=? y) && (y <=? MAX_YEAR)
      && (1 <=? m) && (m <=? 12)
      && (1 <=? d) && (d <=? days_in_month y m))%bool
  then Some (mkDate y m d)
  else None.

(** Days since 1970-01-01. *)
Definition to_days (dt : date) : Z :=
  let y := if month dt <=? 2 then year dt - 1 else year dt in
  let era := y / 400 in
  let yoe := y - era * 400 in
  let mp := if month dt <=? 2 then month dt + 9 else month dt - 3 in
  let doy := (153 * mp + 2) / 5 + day dt - 1 in
  let doe := yoe * 365 + yoe / 4 - yoe / 100 + doy in
  era * 146097 + doe - 719468.

Definition eqb (a b : date) : bool :=
  ((year a =? year b) && (month a =? month b) && (day a =? day b))%bool.

(** Chronological order, as a three-way comparison. *)
Definition compare (a b : date) : comparison :=
  match year a ?= year b with
  | Eq => match month a ?= month b with
          | Eq => day a ?= day b
          | c => c
          end
  | c => c
  end.

(** ** Format strings

    The fragment of the strftime syntax the script uses: [%Y], [%m],
    [%d], [%%] and literal characters that are not white space. *)
Inductive item : Type :=
| Year
| Month
| Day
| Literal (c : ascii).

Fixpoint items_of_format (fmt : string) : option (list item) :=
  match fmt with
  | EmptyString => Some []
  | String "%"%char (String c r) =>
      match (match c with
             | "Y"%char => Some Year
             | "m"%char => Some Month
             | "d"%char => Some Day
             | "%"%char => Some (Literal "%"%char)
             | _ => None
             end), items_of_format r with
      | Some i, Some l => Some (i :: l)
      | _, _ => None
      end
  | String "%"%char EmptyString => None
  | String c r =>
      if Chars.re_space c then None
      else match items_of_format r with
           | Some l => Some (Literal c :: l)
           | None => None
           end
  end.

(** ** Parsing *)

Definition digit_value (c : ascii) : Z := Z.of_N (Chars.code c) - 48.

(** At most [max] leading digits of [s], their value so far in [acc]
    and their number in [n]. *)
Fixpoint scan_digits (max : nat) (s : string) (acc : Z) (n : nat)
  : Z * nat * string :=
  match max, s with
  | S max', String c r =>
      if Chars.is_digit c
      then scan_digits max' r (acc * 10 + digit_value c) (S n)
      else (acc, n, s)
  | _, _ => (acc, n, s)
  end.

(** [scan::number(s, 1, max)]: one to [max] digits. *)
Definition number (max : nat) (s : string) : option (Z * string) :=
  match scan_digits max s 0 0%nat with
  | (_, O, _) => None
  | (v, _, rest) => Some (v, rest)
  end.

(** A numeric field: white space before it is skipped; a year may
    carry a sign, and then takes any number of digits. *)
Definition numeric (width : nat) (signed : bool) (s : string)
  : option (Z * string) :=
  let s := Str.drop_while Chars.re_space s in
  if signed then
    match s with
    | String "-"%char r =>
        match number (String.length r) r with
        | Some (v, rest) => Some (- v, rest)
        | None => None
        end
    | String "+"%char r => number (String.length r) r
    | _ => number width s
    end
  else number width s.

(** The fields read so far. *)
Record parsed : Type :=
  mkParsed { p_year : option Z; p_month : option Z; p_day : option Z }.

Definition no_fields : parsed := mkParsed None None None.

(** A field given twice must carry the same value twice. *)
Definition set_if_consistent (old : option Z) (v : Z) : option (option Z) :=
  match old with
  | None => Some (Some v)
  | Some w => if w =? v then Some old else None
  end.

Fixpoint parse_items (its : list item) (s : string) (p : parsed)
  : option parsed :=
  match its with
  | [] => if String.eqb s "" then Some p else None
  | Literal c :: its' =>
      match s with
      | String c' s' => if Ascii.eqb c c' then parse_items its' s' p else None
      | EmptyString => None
      end
  | Year :: its' =>
      match numeric 4 true s with
      | Some (v, s') =>
          match set_if_consistent (p_year p) v with
          | Some y => parse_items its' s' (mkParsed y (p_month p) (p_day p))
          | None => None
          end
      | None => None
      end
  | Month :: its' =>
      match numeric 2 false s with
      | Some (v, s') =>
          match set_if_consistent (p_month p) v with
          | Some m => parse_items its' s' (mkParsed (p_year p) m (p_day p))
          | None => None
          end
      | None => None
      end
  | Day :: its' =>
      match numeric 2 false s with
      | Some (v, s') =>
          match set_if_consistent (p_day p) v with
          | Some d => parse_items its' s' (mkParsed (p_year p) (p_month p) d)
          | None => None
          end
      | None => None
      end
  end.

Definition to_naive_date (p : parsed) : option date :=
  match p_year p, p_month p, p_day p with
  | Some y, Some m, Some d => from_ymd_opt y m d
  | _, _, _ => None
  end.

(** [NaiveDate::parse_from_str(s, fmt)]: the whole of [s] must match
    the format and name a date of the calendar. *)
Definition parse_from_str (fmt s : string) : option date :=
  match items_of_format fmt with
  | Some its =>
      match parse_items its s no_fields with
      | Some p => to_naive_date p
      | None => None
      end
  | None => None
  end.

(** ** Formatting *)

Definition nat_digits (n : N) : string :=
  NilEmpty.string_of_uint (N.to_uint n).

Fixpoint zeros (n : nat) : string :=
  match n with
  | O => EmptyString
  | S k => String "0"%char (zeros k)
  end.

(** [n] in decimal, padded with zeros on the left to [width] digits. *)
Definition pad_digits (width : nat) (n : N) : string :=
  let ds := nat_digits n in
  zeros (width - String.length ds) ++ ds.

(** [%Y]: four digits for the years 0..9999, a sign and at least four
    digits outside. *)
Definition format_year (y : Z) : string :=
  if ((0 <=? y) && (y <=? 9999))%bool then pad_digits 4 (Z.to_N y)
  else if y <? 0 then String "-"%char (pad_digits 4 (Z.to_N (- y)))
  else String "+"%char (pad_digits 4 (Z.to_N y)).

Definition format_item (dt : date) (i : item) : string :=
  match i with
  | Year => format_year (year dt)
  | Month => pad_digits 2 (Z.to_N (month dt))
  | Day => pad_digits 2 (Z.to_N (day dt))
  | Literal c => String c EmptyString
  end.

Definition format_items (its : list item) (dt : date) : string :=
  String.concat "" (List.map (format_item dt) its).

(** [dt.strftime(fmt)] on one date; a format outside the fragment
    formats to the empty string (the script uses "%Y-%m-%d" only). *)
Definition strftime (fmt : string) (dt : date) : string :=
  match items_of_format fmt with
  | Some its => format_items its dt
  | None => EmptyString
  end.

End Dates.

(* ================================================================== *)
(** * Exceptions *)
(* ================================================================== *)

(** The exceptions of the engine that the script can meet.  Only
    [ComputeError] is ever caught (cleaning.py:71). *)
Inductive exn : Type :=
| ComputeError
| ColumnNotFoundError
| DuplicateError
| InvalidOperationError.

(** A computation that returns or raises. *)
Inductive result (A : Type) : Type :=
| Ok (a : A)
| Raise (e : exn).

Arguments Ok {A} a.
Arguments Raise {A} e.

Definition bind {A B : Type} (m : result A) (k : A -> result B) : result B :=
  match m with
  | Ok a => k a
  | Raise e => Raise e
  end.

Notation "x <- m ;; k" := (bind m (fun x => k))
  (at level 61, m at next level, right associativity).

Definition raises {A : Type} (m : result A) : bool :=
  match m with
  | Ok _ => false
  | Raise _ => true
  end.

(* ================================================================== *)
(** * Binary64 numbers *)
(* ================================================================== *)

Module F64.

Definition prec : Z := 53.
Definition emax : Z := 1024.

Definition t : Type := spec_float.

Definition add : t -> t -> t := SFadd prec emax.
Definition sub : t -> t -> t := SFsub prec emax.
Definition div : t -> t -> t := SFdiv prec emax.
Definition ltb : t -> t -> bool := SFltb.
Definition abs : t -> t := SFabs.

(** The nearest binary64 number to an integer. *)
Definition of_Z (z : Z) : t := binary_normalize prec emax z 0 false.

Definition one : t := of_Z 1.
Definition zero : t := S754_zero false.

(** The nearest binary64 number to [m * 10^e], with the sign [neg]. *)
Definition of_decimal (neg : bool) (m : N) (e : Z) : t :=
  match m with
  | N0 => S754_zero neg
  | Npos p =>
      match e with
      | Zneg k =>
          let '(q, e', l) :=
            SFdiv_core_binary prec emax (Zpos p) 0 (Z.pow 10 (Zpos k)) 0 in
          binary_round_aux prec emax neg q e' l
      | _ => binary_round prec emax neg (Pos.mul p (Z.to_pos (Z.pow 10 e))) 0
      end
  end.

(** The integer part (rounding toward zero) of a finite number. *)
Definition trunc (x : t) : option Z :=
  match x with
  | S754_zero _ => Some 0%Z
  | S754_finite s m e =>
      let a := match e with
               | Zneg k => Z.shiftr (Zpos m) (Zpos k)
               | _ => Z.shiftl (Zpos m) e
               end in
      Some (if s then Z.opp a else a)
  | _ => None
  end.

Definition is_nan (x : t) : bool :=
  match x with
  | S754_nan => true
  | _ => false
  end.

(** Equality as the engine's hashing and grouping see it: NaN equals
    NaN, and the two zeros are equal. *)
Definition tot_eqb (x y : t) : bool :=
  match x, y with
  | S754_nan, S754_nan => true
  | _, _ => SFeqb x y
  end.

End F64.

(* ================================================================== *)
(** * Series and data frames *)
(* ================================================================== *)

Inductive DataType : Type := Utf8 | Int64 | Float64 | Boolean | Date.

(** A column: its values, each possibly null, in the type of the
    column. *)
Inductive Series : Type :=
| SUtf8 (l : list (option string))
| SInt64 (l : list (option Z))
| SFloat64 (l : list (option F64.t))
| SBoolean (l : list (option bool))
| SDate (l : list (option date)).

(** A value seen without its column. *)
Inductive cell : Type :=
| CNull
| CStr (s : string)
| CInt (z : Z)
| CFloat (f : F64.t)
| CBool (b : bool)
| CDate (d : date).

(** A data frame: named columns, in order. *)
Definition DataFrame : Type := list (string * Series).

Module pl.

Definition dtype (s : Series) : DataType :=
  match s with
  | SUtf8 _ => Utf8
  | SInt64 _ => Int64
  | SFloat64 _ => Float64
  | SBoolean _ => Boolean
  | SDate _ => Date
  end.

Definition dtype_eqb (a b : DataType) : bool :=
  match a, b with
  | Utf8, Utf8 | Int64, Int64 | Float64, Float64
  | Boolean, Boolean | Date, Date => true
  | _, _ => false
  end.

Definition to_cell {A : Type} (inj : A -> cell) (v : option A) : cell :=
  match v with
  | Some a => inj a
  | None => CNull
  end.

Definition cells (s : Series) : list cell :=
  match s with
  | SUtf8 l => map (to_cell CStr) l
  | SInt64 l => map (to_cell CInt) l
  | SFloat64 l => map (to_cell CFloat) l
  | SBoolean l => map (to_cell CBool) l
  | SDate l => map (to_cell CDate) l
  end.

Definition len (s : Series) : nat := length (cells s).

Definition cell_at (s : Series) (i : nat) : cell := nth i (cells s) CNull.

Definition is_null (c : cell) : bool :=
  match c with
  | CNull => true
  | _ => false
  end.

(** Equality of two values as [unique], [group_by] and [over] see it. *)
Definition cell_eqb (a b : cell) : bool :=
  match a, b with
  | CNull, CNull => true
  | CStr x, CStr y => String.eqb x y
  | CInt x, CInt y => Z.eqb x y
  | CFloat x, CFloat y => F64.tot_eqb x y
  | CBool x, CBool y => Bool.eqb x y
  | CDate x, CDate y => Dates.eqb x y
  | _, _ => false
  end.

Fixpoint row_eqb (r1 r2 : list cell) : bool :=
  match r1, r2 with
  | [], [] => true
  | a :: r1', b :: r2' => (cell_eqb a b && row_eqb r1' r2')%bool
  | _, _ => false
  end.

(** ** Access *)

Definition columns (df : DataFrame) : list string := map fst df.

(** [df[name]] *)
Fixpoint get_column (df : DataFrame) (name : string) : option Series :=
  match df with
  | [] => None
  | (n, s) :: rest => if String.eqb n name then Some s else get_column rest name
  end.

(** [pl.col(name)] evaluated on [df]. *)
Definition col (df : DataFrame) (name : string) : result Series :=
  match get_column df name with
  | Some s => Ok s
  | None => Raise ColumnNotFoundError
  end.

Definition height (df : DataFrame) : nat :=
  match df with
  | [] => O
  | (_, s) :: _ => len s
  end.

Definition row (df : DataFrame) (i : nat) : list cell :=
  map (fun c => cell_at (snd c) i) df.

Definition rows (df : DataFrame) : list (list cell) :=
  map (row df) (seq 0 (height df)).

(** ** Column replacement *)

(** One column of [with_columns]: a column of that name is replaced
    where it stands, a new name is added at the end. *)
Fixpoint with_column (df : DataFrame) (name : string) (s : Series) : DataFrame :=
  match df with
  | [] => [(name, s)]
  | (n, s0) :: rest =>
      if String.eqb n name then (n, s) :: rest
      else (n, s0) :: with_column rest name s
  end.

(** [df.with_columns(exprs)], the expressions already evaluated on
    [df]. *)
Definition with_columns (df : DataFrame) (cols : list (string * Series)) : DataFrame :=
  fold_left (fun d c => with_column d (fst c) (snd c)) cols df.

(** ** Row selection by position *)

Definition gather {A : Type} (idx : list nat) (l : list (option A)) : list (option A) :=
  map (fun i => nth i l None) idx.

Definition take_series (idx : list nat) (s : Series) : Series :=
  match s with
  | SUtf8 l => SUtf8 (gather idx l)
  | SInt64 l => SInt64 (gather idx l)
  | SFloat64 l => SFloat64 (gather idx l)
  | SBoolean l => SBoolean (gather idx l)
  | SDate l => SDate (gather idx l)
  end.

Definition take (idx : list nat) (df : DataFrame) : DataFrame :=
  map (fun c => (fst c, take_series idx (snd c))) df.

(** The positions at which [mask] holds. *)
Definition positions (mask : list bool) : list nat :=
  filter (fun i => nth i mask false) (seq 0 (length mask)).

(** [df.filter(mask)] *)
Definition filter (mask : list bool) (df : DataFrame) : DataFrame :=
  take (positions mask) df.

(** [df.select(names)] *)
Fixpoint select (df : DataFrame) (names : list string) : result DataFrame :=
  match names with
  | [] => Ok []
  | n :: rest =>
      s <- col df n ;;
      d <- select df rest ;;
      Ok ((n, s) :: d)
  end.

(** [df.drop_nulls()]: the rows without any null. *)
Definition drop_nulls (df : DataFrame) : DataFrame :=
  filter (map (fun r => forallb (fun c => negb (is_null c)) r) (rows df)) df.

(** ** unique *)

(** Row [i] is the first of its kind among [rs]. *)
Definition first_occurrence (rs : list (list cell)) (i : nat) : bool :=
  negb (existsb (fun j => row_eqb (nth j rs []) (nth i rs [])) (seq 0 i)).

Definition unique_positions (rs : list (list cell)) : list nat :=
  List.filter (first_occurrence rs) (seq 0 (length rs)).

(** [df.unique()]: one row of every set of identical rows.  The engine
    promises neither which one nor an order; the first of each, in the
    order of the frame, is one of the results it may give. *)
Definition unique (df : DataFrame) : DataFrame :=
  take (unique_positions (rows df)) df.

End pl.

(* ================================================================== *)
(** * Expressions of the engine that the script evaluates *)
(* ================================================================== *)

Module Expr.

(** ** Text *)

(** [.str.replace_all(r'^\s+|\s+$', '')]: the leading and the
    trailing run of white space are replaced by nothing. *)
Definition trim (s : string) : string := Str.strip_class Chars.re_space s.

(** [.str.to_lowercase()] *)
Definition to_lowercase (s : string) : string := Str.map Chars.lower s.

(** ** Dates *)

(** Every value of a text column parsed with [fmt]; a null stays a
    null, and a value that does not parse makes the strict parse raise
    [ComputeError]. *)
Fixpoint parse_all (fmt : string) (l : list (option string))
  : result (list (option date)) :=
  match l with
  | [] => Ok []
  | None :: r => ds <- parse_all fmt r ;; Ok (None :: ds)
  | Some s :: r =>
      match Dates.parse_from_str fmt s with
      | Some d => ds <- parse_all fmt r ;; Ok (Some d :: ds)
      | None => Raise ComputeError
      end
  end.

(** [.str.strptime(pl.Date, format=fmt, strict=True)] *)
Definition strptime (fmt : string) (s : Series) : result Series :=
  match s with
  | SUtf8 l => ds <- parse_all fmt l ;; Ok (SDate ds)
  | _ => Raise InvalidOperationError
  end.

(** The layouts the engine tries when no format is given. *)
Definition inferred_formats : list string :=
  ["%Y/%m/%d"; "%Y-%m-%d"; "%Y.%m.%d"; "%d-%m-%Y"; "%d/%m/%Y"; "%d.%m.%Y"].

Fixpoint first_value (l : list (option string)) : option string :=
  match l with
  | [] => None
  | Some s :: _ => Some s
  | None :: r => first_value r
  end.

(** The first layout that parses the value [s]. *)
Fixpoint infer_format (fmts : list string) (s : string) : option string :=
  match fmts with
  | [] => None
  | f :: r =>
      match Dates.parse_from_str f s with
      | Some _ => Some f
      | None => infer_format r s
      end
  end.

(** [.str.strptime(pl.Date)]: the format is inferred from the first
    value that is not null, and the parse is strict. *)
Definition strptime_inferred (s : Series) : result Series :=
  match s with
  | SUtf8 l =>
      match first_value l with
      | Some v =>
          match infer_format inferred_formats v with
          | Some fmt => strptime fmt s
          | None => Raise ComputeError
          end
      | None => Raise ComputeError
      end
  | _ => Raise InvalidOperationError
  end.

(** [.dt.strftime(fmt)] *)
Definition strftime (fmt : string) (s : Series) : result Series :=
  match s with
  | SDate l => Ok (SUtf8 (map (option_map (Dates.strftime fmt)) l))
  | _ => Raise InvalidOperationError
  end.

(** ** Numbers *)

(** A column as binary64 numbers, the way the arithmetic of the
    engine reads an operand of a true division. *)
Definition f64_values (s : Series) : result (list (option F64.t)) :=
  match s with
  | SFloat64 l => Ok l
  | SInt64 l => Ok (map (option_map F64.of_Z) l)
  | _ => Raise InvalidOperationError
  end.

Definition lift2 {A : Type} (f : A -> A -> A) (x y : option A) : option A :=
  match x, y with
  | Some a, Some b => Some (f a b)
  | _, _ => None
  end.

(** [.shift(1)] *)
Definition shift1 {A : Type} (l : list (option A)) : list (option A) :=
  match l with
  | [] => []
  | _ :: _ => None :: removelast l
  end.

Fixpoint zip_with {A B C : Type} (f : A -> B -> C) (l : list A) (m : list B) : list C :=
  match l, m with
  | a :: l', b :: m' => f a b :: zip_with f l' m'
  | _, _ => []
  end.

(** [.is_not_null()] *)
Definition is_not_null (s : Series) : list bool :=
  map (fun c => negb (pl.is_null c)) (pl.cells s).

(** [.mean()] of the values that are not null: their sum, taken from
    the left, over their number; null when there is none. *)
Definition mean (l : list (option F64.t)) : option F64.t :=
  let vs := flat_map (fun v => match v with Some x => [x] | None => [] end) l in
  match vs with
  | [] => None
  | _ => Some (F64.div (fold_left F64.add vs F64.zero)
                       (F64.of_Z (Z.of_nat (length vs))))
  end.

(** ** Windows *)

(** The positions of the rows whose key equals [k]. *)
Definition group_positions (keys : list cell) (k : cell) : list nat :=
  List.filter (fun j => pl.cell_eqb (nth j keys CNull) k) (seq 0 (length keys)).

(** The place of [i] in the list of positions [g]. *)
Fixpoint index_of (i : nat) (g : list nat) : nat :=
  match g with
  | [] => O
  | j :: r => if Nat.eqb i j then O else S (index_of i r)
  end.

(** [f(xs).over(keys)]: [f] is evaluated on the values of every group
    of equal keys, in the order of the rows, and each row gets the
    value that [f] gave at its place in its group. *)
Definition over {A B : Type} (keys : list cell) (f : list (option A) -> list (option B))
    (xs : list (option A)) : list (option B) :=
  map (fun i =>
         let g := group_positions keys (nth i keys CNull) in
         nth (index_of i g) (f (pl.gather g xs)) None)
      (seq 0 (length keys)).

(** ** Sorting *)

(** The order of the values of one column, nulls first; NaN is the
    largest number. *)
Definition f64_compare (x y : F64.t) : comparison :=
  match SFcompare x y with
  | Some c => c
  | None =>
      match F64.is_nan x, F64.is_nan y with
      | true, true => Eq
      | true, false => Gt
      | _, _ => Lt
      end
  end.

Definition cell_compare (a b : cell) : comparison :=
  match a, b with
  | CNull, CNull => Eq
  | CNull, _ => Lt
  | _, CNull => Gt
  | CStr x, CStr y => String.compare x y
  | CInt x, CInt y => Z.compare x y
  | CFloat x, CFloat y => f64_compare x y
  | CBool x, CBool y => Bool.compare x y
  | CDate x, CDate y => Dates.compare x y
  | _, _ => Eq
  end.

(** Rows of keys compared column after column. *)
Fixpoint row_compare (r1 r2 : list cell) : comparison :=
  match r1, r2 with
  | a :: r1', b :: r2' =>
      match cell_compare a b with
      | Eq => row_compare r1' r2'
      | c => c
      end
  | [], _ :: _ => Lt
  | _ :: _, [] => Gt
  | [], [] => Eq
  end.

Definition row_leb (r1 r2 : list cell) : bool :=
  match row_compare r1 r2 with
  | Gt => false
  | _ => true
  end.

Fixpoint insert_sorted (leb : nat -> nat -> bool) (i : nat) (l : list nat) : list nat :=
  match l with
  | [] => [i]
  | j :: r => if leb i j then i :: l else j :: insert_sorted leb i r
  end.

(** The positions [l] put in the order [leb]; equal keys keep their
    order. *)
Definition sort_positions (leb : nat -> nat -> bool) (l : list nat) : list nat :=
  fold_right (insert_sorted leb) [] l.

End Expr.

Module Frame.

(** [df.sort(names)]: ascending, nulls first.  The engine leaves the
    order of rows with equal keys open; here they keep their order. *)
Definition sort (df : DataFrame) (names : list string) : result DataFrame :=
  k <- pl.select df names ;;
  let keys := pl.rows k in
  let leb := fun i j => Expr.row_leb (nth i keys []) (nth j keys []) in
  Ok (pl.take (Expr.sort_positions leb (seq 0 (pl.height df))) df).

(** [df.filter(pl.col(name).is_not_null())] *)
Definition filter_not_null (df : DataFrame) (name : string) : result DataFrame :=
  s <- pl.col df name ;;
  Ok (pl.filter (Expr.is_not_null s) df).

(** [df.group_by(keys).agg(pl.col(value).mean().alias(alias))]: one
    row for every set of rows with equal keys, with the mean of
    [value] over the set.  The groups come in the order of their
    first rows (the engine promises no order). *)
Definition group_by_mean (df : DataFrame) (keys : list string) (value alias : string)
  : result DataFrame :=
  k <- pl.select df keys ;;
  s <- pl.col df value ;;
  vs <- Expr.f64_values s ;;
  let krows := pl.rows k in
  let firsts := pl.unique_positions krows in
  let members := fun i =>
    List.filter (fun j => pl.row_eqb (nth j krows []) (nth i krows []))
                (seq 0 (length krows)) in
  let means := map (fun i => Expr.mean (pl.gather (members i) vs)) firsts in
  Ok (pl.take firsts k ++ [(alias, SFloat64 means)]).

End Frame.

(* ================================================================== *)
(** * Conversions between column types ([cast] with [strict=False]) *)
(* ================================================================== *)

Module Cast.

Local Open Scope Z_scope.

Definition I64_MIN : Z := - 2 ^ 63.
Definition I64_MAX : Z := 2 ^ 63 - 1.

Definition in_i64 (z : Z) : bool := ((I64_MIN <=? z) && (z <=? I64_MAX))%bool.

(** An optional sign in front of [s]. *)
Definition sign (s : string) : bool * string :=
  match s with
  | String "-"%char r => (true, r)
  | String "+"%char r => (false, r)
  | _ => (false, s)
  end.

(** All the leading digits of [s]. *)
Definition digits (s : string) : Z * nat * string :=
  Dates.scan_digits (String.length s) s 0 0%nat.

(** Text to integer: an optional sign and decimal digits that give a
    64-bit integer; anything else is null. *)
Definition parse_i64 (s : string) : option Z :=
  let (neg, r) := sign s in
  match digits r with
  | (_, O, _) => None
  | (v, _, EmptyString) =>
      let z := if neg then - v else v in
      if in_i64 z then Some z else None
  | _ => None
  end.

(** The exponent part of a decimal number: nothing, or [e] or [E], an
    optional sign and digits. *)
Definition parse_exponent (s : string) : option Z :=
  match s with
  | EmptyString => Some 0
  | String c r =>
      if (Ascii.eqb c "e" || Ascii.eqb c "E")%bool then
        let (neg, r') := sign r in
        match digits r' with
        | (_, O, _) => None
        | (v, _, EmptyString) => Some (if neg then - v else v)
        | _ => None
        end
      else None
  end.

(** Text to binary64: a decimal number with an optional sign, fraction
    and exponent, rounded to the nearest; [nan], [inf] and [infinity]
    in any case; anything else is null. *)
Definition parse_f64 (s : string) : option F64.t :=
  let (neg, r) := sign s in
  let w := Str.map Chars.lower r in
  if String.eqb w "nan" then Some S754_nan
  else if (String.eqb w "inf" || String.eqb w "infinity")%bool
  then Some (S754_infinity neg)
  else
    let '(ip, n1, r1) := digits r in
    let '(m, n2, r2) :=
      match r1 with
      | String "."%char f => Dates.scan_digits (String.length f) f ip 0%nat
      | _ => (ip, 0%nat, r1)
      end in
    match (n1 + n2)%nat with
    | O => None
    | _ =>
        match parse_exponent r2 with
        | Some e => Some (F64.of_decimal neg (Z.to_N m) (e - Z.of_nat n2))
        | None => None
        end
    end.

(** Integer to text. *)
Definition i64_to_string (z : Z) : string :=
  if z <? 0 then String "-"%char (Dates.nat_digits (Z.to_N (- z)))
  else Dates.nat_digits (Z.to_N z).

Definition bool_to_string (b : bool) : string := if b then "true" else "false".

(** Binary64 to integer: the integer part when it is a 64-bit
    integer, null otherwise. *)
Definition f64_to_i64 (x : F64.t) : option Z :=
  match F64.trunc x with
  | Some z => if in_i64 z then Some z else None
  | None => None
  end.

Definition bind_opt {A B : Type} (f : A -> option B) (v : option A) : option B :=
  match v with
  | Some a => f a
  | None => None
  end.

Section WithFloatText.

(** The text the engine prints for a binary64 number.  No stage of
    the script depends on its digits. *)
Variable f64_to_string : F64.t -> string.

Definition to_utf8 (s : Series) : Series :=
  match s with
  | SUtf8 l => SUtf8 l
  | SInt64 l => SUtf8 (map (option_map i64_to_string) l)
  | SFloat64 l => SUtf8 (map (option_map f64_to_string) l)
  | SBoolean l => SUtf8 (map (option_map bool_to_string) l)
  | SDate l => SUtf8 (map (option_map (Dates.strftime "%Y-%m-%d")) l)
  end.

Definition to_float64 (s : Series) : Series :=
  match s with
  | SUtf8 l => SFloat64 (map (bind_opt parse_f64) l)
  | SInt64 l => SFloat64 (map (option_map F64.of_Z) l)
  | SFloat64 l => SFloat64 l
  | SBoolean l => SFloat64 (map (option_map (fun b : bool => F64.of_Z (if b then 1 else 0))) l)
  | SDate l => SFloat64 (map (option_map (fun d => F64.of_Z (Dates.to_days d))) l)
  end.

Definition to_int64 (s : Series) : Series :=
  match s with
  | SUtf8 l => SInt64 (map (bind_opt parse_i64) l)
  | SInt64 l => SInt64 l
  | SFloat64 l => SInt64 (map (bind_opt f64_to_i64) l)
  | SBoolean l => SInt64 (map (option_map (fun b : bool => if b then 1 else 0)) l)
  | SDate l => SInt64 (map (option_map Dates.to_days) l)
  end.

(** [.cast(dtype, strict=False)]: a value that does not convert
    becomes null.  The script casts to [Utf8], [Float64] and [Int64]
    only; for the two other targets the column is left as it is. *)
Definition cast (target : DataType) (s : Series) : Series :=
  match target with
  | Utf8 => to_utf8 s
  | Float64 => to_float64 s
  | Int64 => to_int64 s
  | Boolean | Date => s
  end.

End WithFloatText.

End Cast.

(* ================================================================== *)
(** * The script, stage by stage *)
(* ================================================================== *)

Definition RAW_PATH : string := "stock_market.csv".
Definition CLEAN_PATH : string := "cleaned.parquet".
Definition AGG1_PATH : string := "agg1.parquet".
Definition AGG2_PATH : string := "agg2.parquet".
Definition AGG3_PATH : string := "agg3.parquet".

(** ** 2. Normalize column headers (cleaning.py:16-18)

    [df.rename] raises when two columns end up with one name. *)
Definition rename_columns (df : DataFrame) : result DataFrame :=
  let names := map normalize_header (pl.columns df) in
  if Str.nodupb names then Ok (combine names (map snd df))
  else Raise DuplicateError.

(** ** 3. Clean text columns (cleaning.py:22-43) *)

Definition NULL_EQUIV : list string := [""; " "; "na"; "n/a"; "null"; "-"].

(** [.is_in(values)] on one value: null for a null. *)
Definition is_in (v : option string) (values : list string) : option bool :=
  option_map (fun s => Str.mem s values) v.

(** [pl.when(c).then(a).otherwise(b)] on one row: [a] where the
    condition is true, [b] where it is false or null. *)
Definition when_then_otherwise {A : Type} (c : option bool) (a b : A) : A :=
  match c with
  | Some true => a
  | _ => b
  end.

(** The trimmed, lower-cased value of a cell. *)
Definition trimmed_lowercased (v : option string) : option string :=
  option_map (fun s => Expr.to_lowercase (Expr.trim s)) v.

(** The expression of cleaning.py:28-39 on one cell. *)
Definition clean_cell (v : option string) : option string :=
  when_then_otherwise (is_in (trimmed_lowercased v) NULL_EQUIV)
    (Some "null")
    (trimmed_lowercased v).

Definition clean_cols (df : DataFrame) : list (string * Series) :=
  flat_map (fun col =>
              match pl.get_column df col with
              | Some (SUtf8 l) => [(col, SUtf8 (map clean_cell l))]
              | _ => []
              end)
           (pl.columns df).

Definition clean_text (df : DataFrame) : DataFrame :=
  pl.with_columns df (clean_cols df).

(** ** 4. Fix date columns (cleaning.py:47-80) *)

Definition date_cols (df : DataFrame) : list string :=
  List.filter (fun c => Str.contains "trade" c) (pl.columns df).

Definition date_formats : list string := ["%Y-%m-%d"; "%m/%d/%Y"; "%d/%m/%Y"].

(** The body of the [try] (cleaning.py:65-67).  The loop variable
    [fmt] is in scope and is not used: the format is the literal
    "%m/%d/%Y". *)
Definition parse_attempt (df : DataFrame) (col : string) (fmt : string)
  : result DataFrame :=
  s <- pl.col df col ;;
  p <- Expr.strptime "%m/%d/%Y" s ;;
  Ok (pl.with_columns df [(col, p)]).

(** The loop over the formats (cleaning.py:63-72): the value of
    [PARSED] when the loop is left.  [ComputeError] is caught and the
    loop goes on; any other exception leaves the loop and the script. *)
Fixpoint try_formats (attempt : DataFrame -> string -> string -> result DataFrame)
    (fmts : list string) (df : DataFrame) (col : string)
  : result (option DataFrame) :=
  match fmts with
  | [] => Ok None
  | fmt :: rest =>
      match attempt df col fmt with
      | Ok PARSED => Ok (Some PARSED)
      | Raise ComputeError => try_formats attempt rest df col
      | Raise e => Raise e
      end
  end.

(** One round of the loop over [date_cols] (cleaning.py:55-80). *)
Definition fix_date_column (df : DataFrame) (col : string) : result DataFrame :=
  s <- pl.col df col ;;
  if negb (pl.dtype_eqb (pl.dtype s) Utf8) then Ok df
  else
    PARSED <- try_formats parse_attempt date_formats df col ;;
    match PARSED with
    | Some df' =>
        d <- pl.col df' col ;;
        t <- Expr.strftime "%Y-%m-%d" d ;;
        Ok (pl.with_columns df' [(col, t)])
    | None => Ok df
    end.

Fixpoint for_each {A S : Type} (body : S -> A -> result S) (l : list A) (s : S)
  : result S :=
  match l with
  | [] => Ok s
  | a :: r => s' <- body s a ;; for_each body r s'
  end.

Definition fix_date_columns (df : DataFrame) : result DataFrame :=
  for_each fix_date_column (date_cols df) df.

(** The retry loop as the specification words it: every candidate
    layout is tried with itself.  It is not what the script runs; it is
    here to be compared with [parse_attempt]. *)
Definition parse_attempt_as_specified (df : DataFrame) (col : string) (fmt : string)
  : result DataFrame :=
  s <- pl.col df col ;;
  p <- Expr.strptime fmt s ;;
  Ok (pl.with_columns df [(col, p)]).

(** ** 5. Enforce the target schema (cleaning.py:83-101) *)

Definition target_schema : list (string * DataType) :=
  [ ("trade_date", Utf8);
    ("ticker", Utf8);
    ("sector", Utf8);
    ("open_price", Float64);
    ("close_price", Float64);
    ("volume", Int64);
    ("validated", Utf8);
    ("currency", Utf8);
    ("exchange", Utf8);
    ("notes", Utf8) ].

Section Schema.

Variable f64_to_string : F64.t -> string.

(** One entry of the dictionary, as the loop of cleaning.py:97-99
    sees it: a cast of the column when the frame has it. *)
Definition cast_entry (df : DataFrame) (entry : string * DataType)
  : list (string * Series) :=
  match pl.get_column df (fst entry) with
  | Some s => [(fst entry, Cast.cast f64_to_string (snd entry) s)]
  | None => []
  end.

Definition casted (df : DataFrame) : list (string * Series) :=
  flat_map (cast_entry df) target_schema.

Definition enforce_schema (df : DataFrame) : DataFrame :=
  pl.with_columns df (casted df).

End Schema.

(** ** 7. Aggregates (cleaning.py:112-140) *)

(** Daily average close. *)
Definition agg1 (df : DataFrame) : result DataFrame :=
  f <- Frame.filter_not_null df "close_price" ;;
  Frame.group_by_mean f ["trade_date"; "ticker"] "close_price" "avg_close".

(** Volume by sector. *)
Definition agg2 (df : DataFrame) : result DataFrame :=
  f <- Frame.filter_not_null df "volume" ;;
  Frame.group_by_mean f ["sector"] "volume" "avg_volume".

(** [{"ticker", "trade_date", "close_price"} <= set(df.columns)] *)
Definition has_return_columns (df : DataFrame) : bool :=
  forallb (fun c => Str.mem c (pl.columns df)) ["ticker"; "trade_date"; "close_price"].

(** [close / close.shift(1) - 1] on the values of one group. *)
Definition return_expr (close : list (option F64.t)) : list (option F64.t) :=
  Expr.zip_with
    (fun c p => Expr.lift2 F64.sub (Expr.lift2 F64.div c p) (Some F64.one))
    close (Expr.shift1 close).

(** The frame [tmp] with its column [return] (cleaning.py:129-137). *)
Definition agg3_tmp (df : DataFrame) : result DataFrame :=
  s <- pl.col df "trade_date" ;;
  d <- Expr.strptime_inferred s ;;
  tmp <- Frame.sort (pl.with_columns df [("trade_date", d)]) ["ticker"; "trade_date"] ;;
  c <- pl.col tmp "close_price" ;;
  close <- Expr.f64_values c ;;
  ticker <- pl.col tmp "ticker" ;;
  Ok (pl.with_columns tmp
        [("return", SFloat64 (Expr.over (pl.cells ticker) return_expr close))]).

(** Daily returns (cleaning.py:139). *)
Definition agg3 (df : DataFrame) : result DataFrame :=
  tmp <- agg3_tmp df ;;
  t <- pl.select tmp ["trade_date"; "ticker"; "return"] ;;
  Ok (pl.drop_nulls t).

(** ** The run of the script

    The files the script has written, the latest first, and how it
    ended: a stage that raises ends the script, and what was written
    before stays written. *)
Definition Files : Type := list (string * DataFrame).

Definition Script (A : Type) : Type := Files -> Files * result A.

Definition ret {A : Type} (a : A) : Script A := fun fs => (fs, Ok a).

Definition seq_script {A B : Type} (m : Script A) (k : A -> Script B) : Script B :=
  fun fs =>
    match m fs with
    | (fs', Ok a) => k a fs'
    | (fs', Raise e) => (fs', Raise e)
    end.

Definition lift {A : Type} (r : result A) : Script A := fun fs => (fs, r).

Definition write_parquet (df : DataFrame) (path : string) : Script unit :=
  fun fs => ((path, df) :: fs, Ok tt).

Notation "x <~ m ;; k" := (seq_script m (fun x => k))
  (at level 61, m at next level, right associativity).

(** What the file [path] holds, if it was written. *)
Fixpoint written (fs : Files) (path : string) : option DataFrame :=
  match fs with
  | [] => None
  | (p, df) :: rest => if String.eqb p path then Some df else written rest path
  end.

(** Stage 7 on the cleaned table (cleaning.py:112-140). *)
Definition aggregates (df : DataFrame) : Script unit :=
  a1 <~ lift (agg1 df) ;;
  _ <~ write_parquet a1 AGG1_PATH ;;
  a2 <~ lift (agg2 df) ;;
  _ <~ write_parquet a2 AGG2_PATH ;;
  if has_return_columns df then
    a3 <~ lift (agg3 df) ;;
    write_parquet a3 AGG3_PATH
  else ret tt.

Section Main.

Variable f64_to_string : F64.t -> string.

(** Stages 2 to 5 and the removal of duplicate rows: the cleaned
    table of the frame that [pl.read_csv] gave. *)
Definition clean (raw : DataFrame) : result DataFrame :=
  df <- rename_columns raw ;;
  df <- fix_date_columns (clean_text df) ;;
  Ok (pl.unique (enforce_schema f64_to_string df)).

(** The script from the loaded frame on (cleaning.py:16-142). *)
Definition main (raw : DataFrame) : Script unit :=
  df <~ lift (clean raw) ;;
  _ <~ write_parquet df CLEAN_PATH ;;
  aggregates df.

End Main.

(** ** The dashboard, as it loads an aggregate (visualization.py:30-39)

    [agg["trade_date"]] raises when the frame has no such column; a
    text column is parsed strictly with "%Y-%m-%d", any other column is
    left as it was loaded. *)
Definition ensure_date (agg : DataFrame) : result DataFrame :=
  s <- pl.col agg "trade_date" ;;
  if pl.dtype_eqb (pl.dtype s) Utf8 then
    d <- Expr.strptime "%Y-%m-%d" s ;;
    Ok (pl.with_columns agg [("trade_date", d)])
  else Ok agg.

(* ================================================================== *)
(** * Vocabulary of the statements *)
(* ================================================================== *)

(** What stage 3 makes of one column. *)
Definition cleaned_column (c : string * Series) : string * Series :=
  match snd c with
  | SUtf8 l => (fst c, SUtf8 (map clean_cell l))
  | _ => c
  end.

Definition clean_update (c : string * Series) : list (string * Series) :=
  match snd c with
  | SUtf8 l => [(fst c, SUtf8 (map clean_cell l))]
  | _ => []
  end.

(** White space, by code point: the characters from TAB to CR, the
    space, NEL and the no-break space. *)
Definition white_space_codes : list N := [9; 10; 11; 12; 13; 32; 133; 160]%N.

Definition white_space (c : ascii) : Prop := In (Chars.code c) white_space_codes.

(** A string of white space. *)
Fixpoint blank (s : string) : Prop :=
  match s with
  | EmptyString => True
  | String c r => white_space c /\ blank r
  end.

(** [t] is the trimmed value of [s]: [s] is [t] between two strings of
    white space, and [t] neither begins nor ends with white space. *)
Definition trimmed (s t : string) : Prop :=
  (exists lead trail : string,
      s = (lead ++ t ++ trail)%string /\ blank lead /\ blank trail)
  /\ (forall (c : ascii) (r : string), t = String c r -> ~ white_space c)
  /\ (forall (r : string) (c : ascii),
         t = (r ++ String c "")%string -> ~ white_space c).

(** The code point of the lower case of a code point of Latin-1: the
    capital letters A to Z and U+00C0 to U+00DE, but the multiplication
    sign U+00D7, are 32 below their small letters; every other code
    point is its own lower case. *)
Definition lower_code (n : N) : N :=
  if ((N.leb 65 n && N.leb n 90)
      || (N.leb 192 n && N.leb n 222 && negb (N.eqb n 215)))%bool
  then (n + 32)%N
  else n.

(** [u] is [t] in lower case, character by character. *)
Fixpoint lowercased (t u : string) : Prop :=
  match t, u with
  | EmptyString, EmptyString => True
  | String a t', String b u' =>
      Chars.code b = lower_code (Chars.code a) /\ lowercased t' u'
  | _, _ => False
  end.

(** The null-equivalent set. *)
Definition null_equivalent (u : string) : Prop :=
  u = "" \/ u = " " \/ u = "na" \/ u = "n/a" \/ u = "null" \/ u = "-".

(** The cell [v] passes a strict parse with the layout [fmt]: it is
    null, or its text is a date in that layout. *)
Definition parses (fmt : string) (v : option string) : bool :=
  match v with
  | None => true
  | Some s =>
      match Dates.parse_from_str fmt s with
      | Some _ => true
      | None => false
      end
  end.

Definition all_parse (fmt : string) (l : list (option string)) : bool :=
  forallb (parses fmt) l.

(** The date a cell holds in the layout [fmt]. *)
Definition parsed_cell (fmt : string) (v : option string) : option date :=
  match v with
  | Some s => Dates.parse_from_str fmt s
  | None => None
  end.

(** The cell read in the layout [fmt] and written back as
    "%Y-%m-%d". *)
Definition reformatted (fmt : string) (v : option string) : option string :=
  option_map (Dates.strftime "%Y-%m-%d") (parsed_cell fmt v).

(** What stage 4 makes of one column. *)
Definition date_fixed (c : string * Series) : string * Series :=
  match snd c with
  | SUtf8 l =>
      if (Str.contains "trade" (fst c) && all_parse "%m/%d/%Y" l)%bool
      then (fst c, SUtf8 (map (reformatted "%m/%d/%Y") l))
      else c
  | _ => c
  end.

(** Two rows are the same row for the engine. *)
Definition same_row (r1 r2 : list cell) : Prop := pl.row_eqb r1 r2 = true.

(** All the columns of a frame have the height of the frame. *)
Definition rectangular (df : DataFrame) : Prop :=
  forall c, In c df -> pl.len (snd c) = pl.height df.

(** A value up to the equality of the engine: the two zeros are one. *)
Definition canonical (c : cell) : cell :=
  match c with
  | CFloat (S754_zero _) => CFloat (S754_zero false)
  | _ => c
  end.

(** [target_schema.get(name)] *)
Fixpoint lookup_type (schema : list (string * DataType)) (name : string)
  : option DataType :=
  match schema with
  | [] => None
  | (n, t) :: rest => if String.eqb n name then Some t else lookup_type rest name
  end.

Definition target_type (name : string) : option DataType :=
  lookup_type target_schema name.

(** What stage 5 makes of one column. *)
Definition schema_cast (f64_to_string : F64.t -> string) (c : string * Series)
  : string * Series :=
  match target_type (fst c) with
  | Some t => (fst c, Cast.cast f64_to_string t (snd c))
  | None => c
  end.

(** What stages 2 to 5 make of one column of the frame as read. *)
Definition staged (f64_to_string : F64.t -> string) (c : string * Series)
  : string * Series :=
  schema_cast f64_to_string
    (date_fixed (cleaned_column (normalize_header (fst c), snd c))).

(** The column [m] after the updates [cols], [old] being the column
    before them. *)
Fixpoint updated (cols : list (string * Series)) (m : string) (old : option Series)
  : option Series :=
  match cols with
  | [] => old
  | c :: r => updated r m (if String.eqb (fst c) m then Some (snd c) else old)
  end.

(** The positions of the values of [s] that are not null. *)
Definition non_null_positions (s : Series) : list nat :=
  pl.positions (Expr.is_not_null s).


(** A three-way comparison that is an order: comparing the other
    way round gives the opposite, [Eq] is equality, and [Lt] is
    transitive. *)
Record orderly {A : Type} (cmp : A -> A -> comparison) : Prop := {
  orderly_antisym : forall a b, cmp b a = CompOpp (cmp a b);
  orderly_eq : forall a b, cmp a b = Eq -> a = b;
  orderly_lt_trans : forall a b c, cmp a b = Lt -> cmp b c = Lt -> cmp a c = Lt
}.

(** Nulls first. *)
Definition opt_compare {A : Type} (cmp : A -> A -> comparison) (x y : option A)
  : comparison :=
  match x, y with
  | None, None => Eq
  | None, Some _ => Lt
  | Some _, None => Gt
  | Some a, Some b => cmp a b
  end.

(** The first component decides, the second breaks the ties. *)
Definition lex_compare {A B : Type} (cmpA : A -> A -> comparison)
    (cmpB : B -> B -> comparison) (x y : A * B) : comparison :=
  match cmpA (fst x) (fst y) with
  | Eq => cmpB (snd x) (snd y)
  | c => c
  end.

(** The key of a row of [tmp]: its ticker, then its date. *)
Definition key_compare : option string * option date -> option string * option date -> comparison :=
  lex_compare (opt_compare String.compare) (opt_compare Dates.compare).

Definition key_cells (k : option string * option date) : list cell :=
  [pl.to_cell CStr (fst k); pl.to_cell CDate (snd k)].

(** [a] does not come after [b]. *)
Definition not_after (a b : cell) : Prop := Expr.cell_compare a b <> Gt.

(** A character of the class [p] at neither end. *)
Definition clear_ends (p : ascii -> bool) (s : string) : Prop :=
  (forall c, Str.head s = Some c -> p c = false)
  /\ (forall c, Str.last s = Some c -> p c = false).

(** A word character that is its own lower case. *)
Definition settled (c : ascii) : bool :=
  (Chars.py_word c && Ascii.eqb (Chars.lower c) c)%bool.

(** The value of a run of digits, [acc] being the value of the digits
    before it. *)
Fixpoint digits_value (s : string) (acc : Z) : Z :=
  match s with
  | EmptyString => acc
  | String c r => digits_value r (acc * 10 + Dates.digit_value c)
  end.

(** [rest] does not go on with a digit. *)
Definition stops (rest : string) : Prop :=
  match rest with
  | EmptyString => True
  | String c _ => Chars.is_digit c = false
  end.

(** A check of every number below a bound. *)
Definition all_below (bound : nat) (p : N -> bool) : bool :=
  forallb p (map N.of_nat (seq 0 bound)).

(** ** The words of the specification on Aggregate 3 *)

(** The order of two texts: that of their first different code points,
    a text coming after its own beginnings. *)
Inductive text_le : string -> string -> Prop :=
| text_le_empty (t : string) : text_le "" t
| text_le_less (a b : ascii) (s t : string) :
    (Chars.code a < Chars.code b)%N -> text_le (String a s) (String b t)
| text_le_next (a : ascii) (s t : string) :
    text_le s t -> text_le (String a s) (String a t).

(** The order of the tickers, a null first. *)
Definition ticker_le (a b : option string) : Prop :=
  match a, b with
  | None, _ => True
  | Some _, None => False
  | Some x, Some y => text_le x y
  end.

(** The order of the dates, a null first. *)
Definition date_le (a b : option date) : Prop :=
  match a, b with
  | None, _ => True
  | Some _, None => False
  | Some x, Some y =>
      (year x < year y)%Z
      \/ (year x = year y
          /\ ((month x < month y)%Z
              \/ (month x = month y /\ (day x <= day y)%Z)))
  end.

(** Rows in the order of the ticker, and of the date for one ticker. *)
Definition in_order (ticker : list (option string)) (dates : list (option date))
  : Prop :=
  forall p q : nat,
    p < q -> q < length ticker ->
    ticker_le (nth p ticker None) (nth q ticker None)
    /\ (nth p ticker None = nth q ticker None ->
        date_le (nth p dates None) (nth q dates None)).

(** The row [i] is the first row of its ticker. *)
Definition first_of (ticker : list (option string)) (i : nat) : Prop :=
  forall j : nat, j < i -> nth j ticker None <> nth i ticker None.

(** The row [j] is the row of the ticker of the row [i] that comes just
    before the row [i]. *)
Definition previous_of (ticker : list (option string)) (j i : nat) : Prop :=
  j < i
  /\ nth j ticker None = nth i ticker None
  /\ forall k : nat, j < k -> k < i -> nth k ticker None <> nth i ticker None.

(** The return of a closing price [c] on the closing price [p] before
    it: [c / p - 1], and none when one of the two is missing. *)
Definition return_on (c p : option F64.t) : option F64.t :=
  match c, p with
  | Some a, Some b => Some (F64.sub (F64.div a b) F64.one)
  | _, _ => None
  end.

(** The returns of the rows: none for the first row of a ticker, and
    for any other row the return of its close on the close of the row of
    its ticker just before it. *)
Definition returns_of (ticker : list (option string))
    (close returns : list (option F64.t)) : Prop :=
  length returns = length ticker
  /\ forall i : nat,
       i < length ticker ->
       (first_of ticker i -> nth i returns None = None)
       /\ (forall j : nat,
              previous_of ticker j i ->
              nth i returns None = return_on (nth i close None) (nth j close None)).

(** The rows of date, ticker and return in which nothing is missing,
    in their order. *)
Definition return_rows (dates : list (option date)) (ticker : list (option string))
    (returns : list (option F64.t)) : list (list cell) :=
  flat_map (fun i =>
              match nth i dates None, nth i ticker None, nth i returns None with
              | Some d, Some t, Some r => [[CDate d; CStr t; CFloat r]]
              | _, _, _ => []
              end)
           (seq 0 (length ticker)).

(* ================================================================== *)
(** * Sample tables *)
(* ================================================================== *)

Module Samples.

Local Open Scope Z_scope.

(** A frame as [pl.read_csv] gives it, before stage 2. *)
Definition quotes : DataFrame :=
  [ (" Trade Date ", SUtf8 [Some "01/02/2023"; Some "01/01/2023"; Some "01/02/2023"]);
    ("Ticker", SUtf8 [Some "AAPL "; Some "AAPL"; Some "aapl"]);
    ("Close Price", SUtf8 [Some "110"; Some "N/A"; Some "110"]);
    ("Volume", SInt64 [Some 5; Some 7; Some 5]);
    ("Sector", SUtf8 [Some "Tech"; None; Some "TECH"]) ].

(** Dates in the layout YYYY-MM-DD. *)
Definition iso_dates : DataFrame :=
  [ ("trade_date", SUtf8 [Some "2023-01-01"; Some "2023-01-02"]);
    ("ticker", SUtf8 [Some "aapl"; Some "aapl"]) ].

(** Dates in the layout MM/DD/YYYY. *)
Definition us_dates : DataFrame :=
  [ ("trade_date", SUtf8 [Some "01/01/2023"; None; Some "1/2/2023"]);
    ("ticker", SUtf8 [Some "aapl"; Some "aapl"; Some "msft"]) ].

(** A date column with a value in none of the layouts. *)
Definition bad_dates : DataFrame :=
  [ ("trade_date", SUtf8 [Some "01/01/2023"; Some "yesterday"]);
    ("ticker", SUtf8 [Some "aapl"; Some "aapl"]);
    ("close_price", SFloat64 [Some (F64.of_Z 100); Some (F64.of_Z 110)]);
    ("volume", SInt64 [Some 5; Some 7]);
    ("sector", SUtf8 [Some "tech"; Some "tech"]) ].

(** The text of a binary64 number, for the runs below: none of them
    has a number to print. *)
Definition float_text (x : F64.t) : string := "".


(** Quotes whose close price is missing in one row, after stage 3. *)
Definition missing_close : DataFrame :=
  [ ("ticker", SUtf8 [Some "aapl"; Some "aapl"]);
    ("close_price", SUtf8 [Some "null"; Some "110"]);
    ("volume", SInt64 [Some 5; Some 7]) ].

(** A cleaned table without the column close_price. *)
Definition no_close_price : DataFrame :=
  [ ("trade_date", SUtf8 [Some "2023-01-01"; Some "2023-01-02"]);
    ("ticker", SUtf8 [Some "aapl"; Some "aapl"]);
    ("sector", SUtf8 [Some "tech"; Some "tech"]);
    ("volume", SInt64 [Some 5; Some 7]) ].

(** A table with rows that repeat: the second row is the first with
    the other zero, the last is the third. *)
Definition repeated : DataFrame :=
  [ ("ticker", SUtf8 [Some "aapl"; Some "aapl"; Some "msft"; None; Some "msft"; None]);
    ("close_price",
     SFloat64 [Some F64.zero; Some (S754_zero true); Some F64.one; None;
               Some F64.one; None]) ].

(** The two rows of the example of Aggregate 3. *)
Definition two_closes : DataFrame :=
  [ ("ticker", SUtf8 [Some "AAPL"; Some "AAPL"]);
    ("trade_date", SUtf8 [Some "2023-01-01"; Some "2023-01-02"]);
    ("close_price", SFloat64 [Some (F64.of_Z 100); Some (F64.of_Z 110)]) ].

(** Quotes of two tickers over two days, in no order. *)
Definition two_tickers : DataFrame :=
  [ ("ticker", SUtf8 [Some "MSFT"; Some "AAPL"; Some "MSFT"; Some "AAPL"]);
    ("trade_date", SUtf8 [Some "2023-01-02"; Some "2023-01-02";
                          Some "2023-01-01"; Some "2023-01-01"]);
    ("close_price", SFloat64 [Some (F64.of_Z 210); Some (F64.of_Z 110);
                              Some (F64.of_Z 200); Some (F64.of_Z 100)]) ].

(** Dates in the layout MM/DD/YYYY, one of them left out as "N/A". *)
Definition gap_in_dates : DataFrame :=
  [ ("trade_date", SUtf8 [Some "01/02/2023"; Some "N/A"]);
    ("ticker", SUtf8 [Some "AAPL"; Some "AAPL"]) ].

(** A frame as read, two of whose headers give one name. *)
Definition colliding : DataFrame :=
  [ ("Close Price", SUtf8 [Some "110"]);
    ("close-price", SUtf8 [Some "111"]) ].

End Samples.

(* ================================================================== *)
(** * Properties *)
(* ================================================================== *)

(** ** Characters and strings *)

Ltac each_char c :=
  destruct c as [[] [] [] [] [] [] [] []]; try reflexivity; try discriminate.

Lemma lower_word (c : ascii) : Chars.py_word (Chars.lower c) = Chars.py_word c.
Proof. each_char c. Qed.


Lemma forallb_drop_while (p q : ascii -> bool) (s : string) :
  Str.forallb p s = true -> Str.forallb p (Str.drop_while q s) = true.
Proof.
  induction s as [|c r IH]; simpl; intro H; [reflexivity|].
  apply andb_prop in H as [Hc Hr].
  destruct (q c); [auto | simpl; now rewrite Hc, Hr].
Qed.

Lemma forallb_rev_onto (p : ascii -> bool) (s acc : string) :
  Str.forallb p s = true -> Str.forallb p acc = true ->
  Str.forallb p (Str.rev_onto s acc) = true.
Proof.
  revert acc; induction s as [|c r IH]; simpl; intros acc Hs Ha; [assumption|].
  apply andb_prop in Hs as [Hc Hr].
  apply IH; [assumption | simpl; now rewrite Hc, Ha].
Qed.

Lemma forallb_strip_class (p q : ascii -> bool) (s : string) :
  Str.forallb p s = true -> Str.forallb p (Str.strip_class q s) = true.
Proof.
  intro H. unfold Str.strip_class, Str.rev.
  repeat first [ apply forallb_rev_onto | apply forallb_drop_while
               | assumption | reflexivity ].
Qed.


Lemma head_map (f : ascii -> ascii) (s : string) :
  Str.head (Str.map f s) = option_map f (Str.head s).
Proof. destruct s; reflexivity. Qed.

Lemma last_map (f : ascii -> ascii) (s : string) :
  Str.last (Str.map f s) = option_map f (Str.last s).
Proof.
  induction s as [|c r IH]; [reflexivity|].
  destruct r as [|c' r']; [reflexivity|].
  exact IH.
Qed.


(** ** The header normalizer *)






Lemma last_cons (c : ascii) (r : string) :
  Str.last (String c r) =
  match Str.last r with None => Some c | Some x => Some x end.
Proof.
  destruct r as [|c' r']; [reflexivity|].
  change (Str.last (String c (String c' r'))) with (Str.last (String c' r')).
  destruct (Str.last (String c' r')) eqn:E; [reflexivity|].
  exfalso. revert c' E.
  induction r' as [|x r'' IH']; intros c' E; [discriminate|].
  apply (IH' x). exact E.
Qed.







(** ** Columns of a frame *)

Lemma get_column_with_column (df : DataFrame) (n m : string) (s : Series) :
  pl.get_column (pl.with_column df n s) m =
  if String.eqb n m then Some s else pl.get_column df m.
Proof.
  induction df as [|[n0 s0] rest IH]; simpl.
  - reflexivity.
  - destruct (String.eqb n0 n) eqn:E0; simpl.
    + apply String.eqb_eq in E0; subst n0.
      destruct (String.eqb n m); reflexivity.
    + rewrite IH.
      destruct (String.eqb n0 m) eqn:E1; [|reflexivity].
      apply String.eqb_eq in E1; subst n0.
      now rewrite String.eqb_sym, E0.
Qed.

Lemma columns_with_column (df : DataFrame) (n : string) (s : Series) :
  In n (pl.columns df) -> pl.columns (pl.with_column df n s) = pl.columns df.
Proof.
  induction df as [|[n0 s0] rest IH]; simpl; intro H; [contradiction|].
  destruct (String.eqb n0 n) eqn:E; [reflexivity|].
  simpl. f_equal. apply IH.
  destruct H as [H|H]; [|assumption].
  subst n0. now rewrite String.eqb_refl in E.
Qed.

Lemma get_column_Some_In (df : DataFrame) (n : string) (s : Series) :
  pl.get_column df n = Some s -> In n (pl.columns df).
Proof.
  induction df as [|[n0 s0] rest IH]; simpl; [discriminate|].
  destruct (String.eqb n0 n) eqn:E.
  - apply String.eqb_eq in E. now left.
  - intro H. right. now apply IH.
Qed.

Lemma In_get_column (df : DataFrame) (n : string) :
  In n (pl.columns df) -> exists s, pl.get_column df n = Some s.
Proof.
  induction df as [|[n0 s0] rest IH]; simpl; [contradiction|].
  intro H. destruct (String.eqb n0 n) eqn:E; [now exists s0|].
  apply IH. destruct H as [H|H]; [|assumption].
  subst. now rewrite String.eqb_refl in E.
Qed.

Lemma mem_In (n : string) (l : list string) : Str.mem n l = true <-> In n l.
Proof.
  induction l as [|x r IH]; simpl.
  - split; [discriminate | contradiction].
  - rewrite orb_true_iff, IH, String.eqb_eq. split; intros [H|H]; auto.
Qed.

Lemma get_column_None (df : DataFrame) (n : string) :
  Str.mem n (pl.columns df) = false -> pl.get_column df n = None.
Proof.
  intro H. destruct (pl.get_column df n) eqn:E; [|reflexivity].
  apply get_column_Some_In, mem_In in E. congruence.
Qed.

Lemma get_column_In (df : DataFrame) (n : string) (s : Series) :
  NoDup (pl.columns df) -> In (n, s) df -> pl.get_column df n = Some s.
Proof.
  induction df as [|[n0 s0] rest IH]; simpl; intros Hnd Hin; [contradiction|].
  inversion Hnd as [|? ? Hnot Hnd']; subst.
  destruct Hin as [Heq|Hin].
  - inversion Heq; subst. now rewrite String.eqb_refl.
  - destruct (String.eqb n0 n) eqn:E.
    + apply String.eqb_eq in E; subst n0.
      exfalso. apply Hnot. change n with (fst (n, s)). now apply in_map.
    + now apply IH.
Qed.

Lemma with_column_overwrite (df : DataFrame) (n : string) (s t : Series) :
  pl.with_column (pl.with_column df n s) n t = pl.with_column df n t.
Proof.
  induction df as [|[n0 s0] rest IH]; simpl.
  - now rewrite String.eqb_refl.
  - destruct (String.eqb n0 n) eqn:E; simpl; rewrite E; [reflexivity|].
    now rewrite IH.
Qed.

Lemma with_columns_skip (n : string) (s0 : Series) (cols : list (string * Series)) :
  forall rest : DataFrame,
    ~ In n (map fst cols) ->
    pl.with_columns ((n, s0) :: rest) cols = (n, s0) :: pl.with_columns rest cols.
Proof.
  induction cols as [|[m t] cols IH]; intros rest Hn; [reflexivity|].
  unfold pl.with_columns in *. simpl in *.
  destruct (String.eqb n m) eqn:E.
  - apply String.eqb_eq in E. exfalso. apply Hn. now left.
  - apply IH. intro H. apply Hn. now right.
Qed.

Lemma flat_map_ext_in {A B : Type} (f g : A -> list B) (l : list A) :
  (forall a, In a l -> f a = g a) -> flat_map f l = flat_map g l.
Proof.
  induction l as [|a r IH]; intro H; [reflexivity|].
  simpl. rewrite (H a (or_introl eq_refl)), IH; [reflexivity|].
  intros x Hx. apply H. now right.
Qed.

(** ** Stripping *)

Lemma string_append_assoc (s t u : string) :
  ((s ++ t) ++ u)%string = (s ++ (t ++ u))%string.
Proof. induction s as [|c r IH]; [reflexivity|]. cbn. now rewrite IH. Qed.

Lemma rev_onto_append (s acc : string) :
  Str.rev_onto s acc = (Str.rev s ++ acc)%string.
Proof.
  unfold Str.rev. revert acc. induction s as [|c r IH]; intro acc; [reflexivity|].
  cbn [Str.rev_onto]. rewrite (IH (String c acc)), (IH (String c "")).
  rewrite string_append_assoc. reflexivity.
Qed.

Lemma rev_cons (c : ascii) (r : string) :
  Str.rev (String c r) = (Str.rev r ++ String c "")%string.
Proof. unfold Str.rev at 1. cbn [Str.rev_onto]. apply rev_onto_append. Qed.

Lemma append_empty_r (s : string) : (s ++ "")%string = s.
Proof. induction s as [|c r IH]; [reflexivity|]. cbn. now rewrite IH. Qed.

Lemma rev_append (s t : string) :
  Str.rev (s ++ t)%string = (Str.rev t ++ Str.rev s)%string.
Proof.
  induction s as [|c r IH]; cbn [String.append].
  - now rewrite append_empty_r.
  - now rewrite !rev_cons, IH, string_append_assoc.
Qed.

Lemma rev_involutive (s : string) : Str.rev (Str.rev s) = s.
Proof.
  induction s as [|c r IH]; [reflexivity|].
  rewrite rev_cons, rev_append, IH. reflexivity.
Qed.

Lemma last_append_one (s : string) (c : ascii) :
  Str.last (s ++ String c "")%string = Some c.
Proof.
  induction s as [|x r IH]; [reflexivity|].
  cbn [String.append]. rewrite last_cons, IH. reflexivity.
Qed.

Lemma last_rev (s : string) : Str.last (Str.rev s) = Str.head s.
Proof.
  destruct s as [|c r]; [reflexivity|].
  rewrite rev_cons. apply last_append_one.
Qed.

Lemma head_rev (s : string) : Str.head (Str.rev s) = Str.last s.
Proof. rewrite <- (rev_involutive s) at 2. symmetry. apply last_rev. Qed.

Lemma drop_while_head (p : ascii -> bool) (s : string) (c : ascii) :
  Str.head (Str.drop_while p s) = Some c -> p c = false.
Proof.
  induction s as [|x r IH]; cbn [Str.drop_while]; [discriminate|].
  destruct (p x) eqn:E; [exact IH|].
  cbn. intro H. now inversion H; subst.
Qed.

Lemma drop_while_last (p : ascii -> bool) (s : string) (c : ascii) :
  Str.last (Str.drop_while p s) = Some c -> Str.last s = Some c.
Proof.
  induction s as [|x r IH]; cbn [Str.drop_while]; [discriminate|].
  destruct (p x); [|auto].
  intro H. rewrite last_cons, (IH H). reflexivity.
Qed.

Lemma drop_while_fixed (p : ascii -> bool) (s : string) :
  (forall c, Str.head s = Some c -> p c = false) -> Str.drop_while p s = s.
Proof.
  destruct s as [|x r]; [reflexivity|].
  intro H. cbn [Str.drop_while]. now rewrite (H x eq_refl).
Qed.

(** What is stripped has nothing left to strip at its ends. *)
Lemma strip_class_clear (p : ascii -> bool) (s : string) :
  clear_ends p (Str.strip_class p s).
Proof.
  unfold Str.strip_class. split; intros c Hc.
  - rewrite head_rev in Hc. apply drop_while_last in Hc.
    rewrite last_rev in Hc. now apply drop_while_head in Hc.
  - rewrite last_rev in Hc. now apply drop_while_head in Hc.
Qed.

(** Stripping leaves alone a string with nothing to strip at its
    ends. *)
Lemma strip_class_fixed (p : ascii -> bool) (s : string) :
  clear_ends p s -> Str.strip_class p s = s.
Proof.
  intros [Hh Hl]. unfold Str.strip_class.
  rewrite (drop_while_fixed p s Hh).
  rewrite (drop_while_fixed p (Str.rev s)); [apply rev_involutive|].
  intros c Hc. rewrite head_rev in Hc. now apply Hl.
Qed.

Lemma clear_ends_map (p : ascii -> bool) (f : ascii -> ascii) (s : string) :
  (forall c, p (f c) = p c) -> clear_ends p s -> clear_ends p (Str.map f s).
Proof.
  intros Hf [Hh Hl]. split; intros c Hc.
  - rewrite head_map in Hc. destruct (Str.head s) as [x|]; [|discriminate].
    inversion Hc; subst. rewrite Hf. now apply Hh.
  - rewrite last_map in Hc. destruct (Str.last s) as [x|]; [|discriminate].
    inversion Hc; subst. rewrite Hf. now apply Hl.
Qed.

Lemma map_lower_idem (s : string) :
  Str.map Chars.lower (Str.map Chars.lower s) = Str.map Chars.lower s.
Proof.
  induction s as [|c r IH]; [reflexivity|].
  cbn [Str.map]. rewrite IH. f_equal. each_char c.
Qed.

Lemma lower_re_space (c : ascii) : Chars.re_space (Chars.lower c) = Chars.re_space c.
Proof. each_char c. Qed.

(** ** The text normalizer *)

Lemma clean_cols_flat_map (df : DataFrame) :
  NoDup (pl.columns df) -> clean_cols df = flat_map clean_update df.
Proof.
  intro Hnd. unfold clean_cols, pl.columns. rewrite flat_map_concat_map, map_map.
  rewrite <- flat_map_concat_map.
  apply flat_map_ext_in. intros [n s] Hin.
  simpl. rewrite (get_column_In df n s Hnd Hin). reflexivity.
Qed.

Lemma clean_update_names (df : DataFrame) (n : string) :
  In n (map fst (flat_map clean_update df)) -> In n (pl.columns df).
Proof.
  induction df as [|[n0 s0] rest IH]; simpl; [auto|].
  rewrite map_app, in_app_iff. intros [H|H].
  - left. unfold clean_update in H. simpl in H.
    destruct s0; simpl in H; try contradiction.
    destruct H as [H|[]]; exact H.
  - right. now apply IH.
Qed.

Lemma with_columns_clean_update (df : DataFrame) :
  NoDup (pl.columns df) ->
  pl.with_columns df (flat_map clean_update df) = map cleaned_column df.
Proof.
  induction df as [|[n s] rest IH]; intro Hnd; [reflexivity|].
  inversion Hnd as [|? ? Hnot Hnd']; subst.
  assert (Hskip : ~ In n (map fst (flat_map clean_update rest))).
  { intro H. apply Hnot. now apply clean_update_names. }
  cbn [flat_map map].
  destruct s as [l|l|l|l|l];
    try (unfold clean_update at 1, cleaned_column at 1; cbn [snd fst app];
         rewrite with_columns_skip by exact Hskip; now rewrite IH).
  unfold clean_update at 1, cleaned_column at 1; cbn [snd fst app].
  unfold pl.with_columns at 1. cbn [fold_left pl.with_column fst snd].
  rewrite String.eqb_refl.
  change (fold_left _ ?c ?d) with (pl.with_columns d c).
  rewrite with_columns_skip by exact Hskip. now rewrite IH.
Qed.

Lemma nodupb_NoDup (l : list string) : Str.nodupb l = true -> NoDup l.
Proof.
  induction l as [|x r IH]; simpl; intro H; [constructor|].
  apply andb_prop in H as [Hx Hr].
  constructor; [|now apply IH].
  intro Hin. apply mem_In in Hin. now rewrite Hin in Hx.
Qed.

(** *** The words of the specification and the functions of the engine *)

Lemma re_space_white (c : ascii) : Chars.re_space c = true <-> white_space c.
Proof.
  unfold Chars.re_space, Chars.between, white_space, white_space_codes.
  generalize (Chars.code c). intro n. cbn [In].
  rewrite !orb_true_iff, andb_true_iff, !N.leb_le, !N.eqb_eq. lia.
Qed.

Lemma forallb_blank (s : string) :
  Str.forallb Chars.re_space s = true <-> blank s.
Proof.
  induction s as [|c r IH]; cbn [Str.forallb blank]; [tauto|].
  now rewrite andb_true_iff, re_space_white, IH.
Qed.

Lemma drop_while_prefix (p : ascii -> bool) (lead x : string) :
  Str.forallb p lead = true ->
  Str.drop_while p (lead ++ x)%string = Str.drop_while p x.
Proof.
  induction lead as [|c r IH]; cbn [Str.forallb String.append Str.drop_while];
    [reflexivity|].
  intro H. apply andb_prop in H as [Hc Hr]. rewrite Hc. now apply IH.
Qed.

Lemma drop_while_all (p : ascii -> bool) (s : string) :
  Str.forallb p s = true -> Str.drop_while p s = "".
Proof.
  induction s as [|c r IH]; cbn [Str.forallb Str.drop_while]; [reflexivity|].
  intro H. apply andb_prop in H as [Hc Hr]. rewrite Hc. now apply IH.
Qed.

(** What is dropped in front is in the class. *)
Lemma drop_while_split (p : ascii -> bool) (s : string) :
  exists lead : string,
    s = (lead ++ Str.drop_while p s)%string /\ Str.forallb p lead = true.
Proof.
  induction s as [|c r IH]; cbn [Str.drop_while]; [now exists ""|].
  destruct (p c) eqn:E; [|now exists ""].
  destruct IH as (lead & Hs & Hl). exists (String c lead).
  cbn [String.append Str.forallb]. rewrite E, Hl. split; [|reflexivity].
  now rewrite <- Hs.
Qed.

Lemma forallb_rev (p : ascii -> bool) (s : string) :
  Str.forallb p s = true -> Str.forallb p (Str.rev s) = true.
Proof. intro H. unfold Str.rev. now apply forallb_rev_onto. Qed.

Lemma last_split (t : string) (c : ascii) :
  Str.last t = Some c -> exists r, t = (r ++ String c "")%string.
Proof.
  induction t as [|a r IH]; [discriminate|].
  destruct r as [|b r'].
  - cbn [Str.last]. intro H. inversion H. now exists "".
  - change (Str.last (String a (String b r'))) with (Str.last (String b r')).
    intro H. destruct (IH H) as [x Hx]. exists (String a x).
    cbn [String.append]. now rewrite <- Hx.
Qed.

(** The ends of a string, as the specification words them and as
    the functions see them. *)
Lemma clear_ends_white (t : string) :
  clear_ends Chars.re_space t
  <-> (forall (c : ascii) (r : string), t = String c r -> ~ white_space c)
      /\ (forall (r : string) (c : ascii),
             t = (r ++ String c "")%string -> ~ white_space c).
Proof.
  unfold clear_ends. split.
  - intros [Hh Hl]. split.
    + intros c r -> W. apply re_space_white in W.
      now rewrite (Hh c eq_refl) in W.
    + intros r c -> W. apply re_space_white in W.
      now rewrite (Hl c (last_append_one r c)) in W.
  - intros [Hh Hl]. split.
    + intros c H. destruct t as [|a r]; [discriminate|]. inversion H; subst a.
      destruct (Chars.re_space c) eqn:E; [|reflexivity].
      elim (Hh c r eq_refl). now apply re_space_white.
    + intros c H. destruct (last_split t c H) as [r ->].
      destruct (Chars.re_space c) eqn:E; [|reflexivity].
      elim (Hl r c eq_refl). now apply re_space_white.
Qed.

(** A string between two runs of the class, stripped. *)
Lemma strip_class_between (p : ascii -> bool) (lead t trail : string) :
  Str.forallb p lead = true -> Str.forallb p trail = true ->
  clear_ends p t ->
  Str.strip_class p (lead ++ t ++ trail)%string = t.
Proof.
  intros Hl Ht [Hh Hlast]. unfold Str.strip_class.
  rewrite (drop_while_prefix p lead _ Hl).
  destruct t as [|c r].
  - cbn [String.append]. rewrite (drop_while_all p trail Ht). reflexivity.
  - assert (Hd : Str.drop_while p (String c r ++ trail)%string
                 = (String c r ++ trail)%string).
    { cbn [String.append Str.drop_while]. now rewrite (Hh c eq_refl). }
    rewrite Hd, rev_append, (drop_while_prefix p _ _ (forallb_rev p trail Ht)).
    rewrite drop_while_fixed; [apply rev_involutive|].
    intros x Hx. rewrite head_rev in Hx. now apply Hlast.
Qed.

Lemma trimmed_intro (lead t trail : string) :
  Str.forallb Chars.re_space lead = true ->
  Str.forallb Chars.re_space trail = true ->
  clear_ends Chars.re_space t ->
  trimmed (lead ++ t ++ trail)%string t.
Proof.
  intros Hl Ht Hc. split.
  - exists lead, trail. split; [reflexivity|].
    split; now apply forallb_blank.
  - now apply clear_ends_white.
Qed.

(** The trimmed value of a string is what [trim] returns, and nothing
    else. *)
Lemma trimmed_trim (s : string) : trimmed s (Expr.trim s).
Proof.
  unfold Expr.trim.
  pose proof (strip_class_clear Chars.re_space s) as Hc.
  split; [|now apply clear_ends_white].
  unfold Str.strip_class.
  destruct (drop_while_split Chars.re_space s) as (lead & Hs & Hl).
  set (a := Str.drop_while Chars.re_space s) in *.
  destruct (drop_while_split Chars.re_space (Str.rev a)) as (x & Hx & Hxp).
  exists lead, (Str.rev x). split; [|split].
  - rewrite Hs at 1. f_equal.
    rewrite <- (rev_involutive a) at 1. rewrite Hx at 1. apply rev_append.
  - now apply forallb_blank.
  - now apply forallb_blank, forallb_rev.
Qed.

Lemma trimmed_unique (s t : string) : trimmed s t -> t = Expr.trim s.
Proof.
  intros [(lead & trail & -> & Hl & Ht) Hends].
  unfold Expr.trim. symmetry. apply strip_class_between.
  - now apply forallb_blank.
  - now apply forallb_blank.
  - now apply clear_ends_white.
Qed.

Lemma lower_code_spec (c : ascii) :
  Chars.code (Chars.lower c) = lower_code (Chars.code c).
Proof. each_char c. Qed.

Lemma code_inj (a b : ascii) : Chars.code a = Chars.code b -> a = b.
Proof.
  unfold Chars.code. intro H.
  rewrite <- (ascii_N_embedding a), <- (ascii_N_embedding b). now rewrite H.
Qed.

Lemma lowercased_to_lowercase (t : string) : lowercased t (Expr.to_lowercase t).
Proof.
  induction t as [|a r IH]; [exact I|].
  cbn [Expr.to_lowercase Str.map lowercased]. split; [apply lower_code_spec | exact IH].
Qed.

Lemma lowercased_unique (t : string) :
  forall u : string, lowercased t u -> u = Expr.to_lowercase t.
Proof.
  induction t as [|a r IH]; intros [|b u]; cbn [lowercased]; try contradiction;
    [reflexivity|].
  intros [Hb Hu]. unfold Expr.to_lowercase. cbn [Str.map]. f_equal.
  - apply code_inj. now rewrite lower_code_spec.
  - now apply IH.
Qed.

Lemma null_equivalent_mem (u : string) :
  Str.mem u NULL_EQUIV = true <-> null_equivalent u.
Proof.
  unfold NULL_EQUIV, null_equivalent. cbn [Str.mem].
  rewrite !orb_true_iff, !String.eqb_eq. intuition discriminate.
Qed.

(** C3.  Stage 3 maps every cell of every text column to the literal
    "null" when its trimmed, lower-cased value is in the null-equivalent
    set, and to the trimmed, lower-cased value otherwise (a null cell has
    no value and stays null); the other columns, the names and the order
    of the columns are unchanged.  The trimmed value of a cell is the
    cell without the white space before and after it, the lower-cased
    value is that of every character, and every cell has one and only
    one of each. *)
Theorem C3_text_normalizer (df : DataFrame) :
  NoDup (pl.columns df) ->
  clean_text df = map cleaned_column df
  /\ (forall s : string,
        clean_cell (Some s) =
        if Str.mem (Expr.to_lowercase (Expr.trim s)) NULL_EQUIV
        then Some "null"
        else Some (Expr.to_lowercase (Expr.trim s)))
  /\ (forall s : string, exists t u : string, trimmed s t /\ lowercased t u)
  /\ (forall s t u : string,
        trimmed s t -> lowercased t u ->
        (null_equivalent u -> clean_cell (Some s) = Some "null")
        /\ (~ null_equivalent u -> clean_cell (Some s) = Some u))
  /\ clean_cell None = None
  /\ (forall (n : string) (s : Series),
        pl.dtype s <> Utf8 -> cleaned_column (n, s) = (n, s))
  /\ (forall (n : string) (l : list (option string)),
        cleaned_column (n, SUtf8 l) = (n, SUtf8 (map clean_cell l))).
Proof.
  intro Hnd.
  assert (Hcell : forall s : string,
             clean_cell (Some s) =
             if Str.mem (Expr.to_lowercase (Expr.trim s)) NULL_EQUIV
             then Some "null"
             else Some (Expr.to_lowercase (Expr.trim s))).
  { intro s. unfold clean_cell, is_in, trimmed_lowercased, when_then_otherwise.
    cbn [option_map].
    now destruct (Str.mem (Expr.to_lowercase (Expr.trim s)) NULL_EQUIV). }
  split; [|split; [|split; [|split; [|split; [|split]]]]].
  - unfold clean_text. rewrite clean_cols_flat_map by exact Hnd.
    now apply with_columns_clean_update.
  - exact Hcell.
  - intro s. exists (Expr.trim s), (Expr.to_lowercase (Expr.trim s)).
    split; [apply trimmed_trim | apply lowercased_to_lowercase].
  - intros s t u Ht Hu.
    apply trimmed_unique in Ht. subst t.
    apply lowercased_unique in Hu. subst u.
    rewrite Hcell.
    destruct (Str.mem (Expr.to_lowercase (Expr.trim s)) NULL_EQUIV) eqn:E.
    + split; [reflexivity|]. intro Hn. elim Hn. now apply null_equivalent_mem.
    + split; [|reflexivity]. intro Hn. apply null_equivalent_mem in Hn. congruence.
  - reflexivity.
  - intros n s H. destruct s; try reflexivity. now elim H.
  - reflexivity.
Qed.

Lemma C3_text_normalizer_witness :
  NoDup (pl.columns Samples.quotes)
  /\ clean_text Samples.quotes
     = [ (" Trade Date ", SUtf8 [Some "01/02/2023"; Some "01/01/2023"; Some "01/02/2023"]);
         ("Ticker", SUtf8 [Some "aapl"; Some "aapl"; Some "aapl"]);
         ("Close Price", SUtf8 [Some "110"; Some "null"; Some "110"]);
         ("Volume", SInt64 [Some 5%Z; Some 7%Z; Some 5%Z]);
         ("Sector", SUtf8 [Some "tech"; None; Some "tech"]) ]
  /\ trimmed "  N/A " "N/A"
  /\ lowercased "N/A" "n/a"
  /\ clean_cell (Some "  N/A ") = Some "null"
  /\ trimmed " Tech" "Tech"
  /\ lowercased "Tech" "tech"
  /\ clean_cell (Some " Tech") = Some "tech".
Proof.
  assert (H : NoDup (pl.columns Samples.quotes))
    by (apply nodupb_NoDup; reflexivity).
  assert (T1 : trimmed "  N/A " "N/A").
  { apply (trimmed_intro "  " "N/A" " "); try reflexivity.
    split; intros c Hc; inversion Hc; reflexivity. }
  assert (L1 : lowercased "N/A" "n/a") by (cbn; tauto).
  assert (T2 : trimmed " Tech" "Tech").
  { apply (trimmed_intro " " "Tech" ""); try reflexivity.
    split; intros c Hc; inversion Hc; reflexivity. }
  assert (L2 : lowercased "Tech" "tech") by (cbn; tauto).
  destruct (C3_text_normalizer Samples.quotes H) as (Hf & _ & _ & Hc & _).
  split; [exact H|]. split; [exact Hf|].
  split; [exact T1|]. split; [exact L1|].
  split.
  { apply (proj1 (Hc _ _ _ T1 L1)). unfold null_equivalent. tauto. }
  split; [exact T2|]. split; [exact L2|].
  apply (proj2 (Hc _ _ _ T2 L2)). unfold null_equivalent.
  intuition discriminate.
Defined.

(** ** The date normalizer *)

Lemma parse_all_spec (fmt : string) (l : list (option string)) :
  Expr.parse_all fmt l =
  if all_parse fmt l then Ok (map (parsed_cell fmt) l) else Raise ComputeError.
Proof.
  induction l as [|[s|] r IH]; cbn [Expr.parse_all all_parse forallb parses map parsed_cell].
  - reflexivity.
  - destruct (Dates.parse_from_str fmt s) as [d|]; [|reflexivity].
    rewrite IH. cbn [andb]. fold (all_parse fmt r).
    now destruct (all_parse fmt r).
  - rewrite IH. cbn [andb]. fold (all_parse fmt r).
    now destruct (all_parse fmt r).
Qed.

(** One attempt on a text column: the layout is MM/DD/YYYY whatever
    [fmt] is. *)
Lemma parse_attempt_spec (df : DataFrame) (col fmt : string) (l : list (option string)) :
  pl.get_column df col = Some (SUtf8 l) ->
  parse_attempt df col fmt =
  if all_parse "%m/%d/%Y" l
  then Ok (pl.with_column df col (SDate (map (parsed_cell "%m/%d/%Y") l)))
  else Raise ComputeError.
Proof.
  intro H. unfold parse_attempt, pl.col. rewrite H. cbn [bind Expr.strptime].
  rewrite parse_all_spec.
  now destruct (all_parse "%m/%d/%Y" l).
Qed.

Lemma try_formats_spec (df : DataFrame) (col : string) (l : list (option string))
    (fmts : list string) :
  pl.get_column df col = Some (SUtf8 l) ->
  try_formats parse_attempt fmts df col =
  match fmts with
  | [] => Ok None
  | _ :: _ =>
      if all_parse "%m/%d/%Y" l
      then Ok (Some (pl.with_column df col (SDate (map (parsed_cell "%m/%d/%Y") l))))
      else Ok None
  end.
Proof.
  intro H. induction fmts as [|f r IH]; [reflexivity|].
  cbn [try_formats]. rewrite (parse_attempt_spec df col f l H).
  destruct (all_parse "%m/%d/%Y" l); [reflexivity|].
  rewrite IH. now destruct r.
Qed.

Lemma fix_date_column_utf8 (df : DataFrame) (col : string) (l : list (option string)) :
  pl.get_column df col = Some (SUtf8 l) ->
  fix_date_column df col =
  Ok (if all_parse "%m/%d/%Y" l
      then pl.with_column df col (SUtf8 (map (reformatted "%m/%d/%Y") l))
      else df).
Proof.
  intro H. unfold fix_date_column, pl.col at 1. rewrite H.
  cbn [bind pl.dtype pl.dtype_eqb negb].
  rewrite (try_formats_spec df col l date_formats H). unfold date_formats.
  destruct (all_parse "%m/%d/%Y" l); [|reflexivity].
  cbn [bind]. unfold pl.col. rewrite get_column_with_column, String.eqb_refl.
  cbn [bind Expr.strftime]. unfold pl.with_columns. cbn [fold_left fst snd].
  rewrite with_column_overwrite, map_map. reflexivity.
Qed.

Lemma fix_date_column_other (df : DataFrame) (col : string) (s : Series) :
  pl.get_column df col = Some s -> pl.dtype s <> Utf8 ->
  fix_date_column df col = Ok df.
Proof.
  intros H Hd. unfold fix_date_column, pl.col. rewrite H. cbn [bind].
  destruct s; try reflexivity. now elim Hd.
Qed.

(** One round of the loop never raises, keeps the names, and touches no
    column but its own. *)
Lemma fix_date_column_total (df : DataFrame) (col : string) :
  In col (pl.columns df) ->
  exists df',
    fix_date_column df col = Ok df'
    /\ pl.columns df' = pl.columns df
    /\ (forall n, n <> col -> pl.get_column df' n = pl.get_column df n)
    /\ (forall l, pl.get_column df col = Some (SUtf8 l) ->
                  all_parse "%m/%d/%Y" l = false -> df' = df).
Proof.
  intro Hin. destruct (In_get_column df col Hin) as [s Hs].
  destruct s as [l|l|l|l|l];
    try (exists df; split;
         [ apply (fix_date_column_other df col _ Hs); discriminate
         | repeat split; auto ]).
  rewrite (fix_date_column_utf8 df col l Hs).
  destruct (all_parse "%m/%d/%Y" l) eqn:E.
  - eexists; split; [reflexivity|]. split; [|split].
    + now apply columns_with_column.
    + intros n Hn. rewrite get_column_with_column.
      destruct (String.eqb col n) eqn:En; [|reflexivity].
      apply String.eqb_eq in En. congruence.
    + intros l' Hl'. rewrite Hs in Hl'. inversion Hl'; subst. congruence.
  - exists df. repeat split; auto.
Qed.

(** The loop over the date columns never raises and keeps the names. *)
Lemma for_each_fix_total (cols : list string) :
  forall df : DataFrame,
    (forall c, In c cols -> In c (pl.columns df)) ->
    exists df',
      for_each fix_date_column cols df = Ok df'
      /\ pl.columns df' = pl.columns df.
Proof.
  induction cols as [|c r IH]; intros df Hsub.
  - exists df. now split.
  - destruct (fix_date_column_total df c (Hsub c (or_introl eq_refl)))
      as (df1 & H1 & Hc1 & _).
    destruct (IH df1) as (df2 & H2 & Hc2).
    { intros x Hx. rewrite Hc1. apply Hsub. now right. }
    exists df2. cbn [for_each]. rewrite H1. cbn [bind]. split; [exact H2|].
    congruence.
Qed.

(** A text column with a cell that is not MM/DD/YYYY goes through the
    loop untouched. *)
Lemma for_each_fix_keeps (col0 : string) (l : list (option string)) (cols : list string) :
  all_parse "%m/%d/%Y" l = false ->
  forall df : DataFrame,
    (forall c, In c cols -> In c (pl.columns df)) ->
    pl.get_column df col0 = Some (SUtf8 l) ->
    exists df',
      for_each fix_date_column cols df = Ok df'
      /\ pl.columns df' = pl.columns df
      /\ pl.get_column df' col0 = Some (SUtf8 l).
Proof.
  intro Hbad. induction cols as [|c r IH]; intros df Hsub Hget.
  - exists df. now repeat split.
  - destruct (fix_date_column_total df c (Hsub c (or_introl eq_refl)))
      as (df1 & H1 & Hc1 & Hother & Hsame).
    assert (Hget1 : pl.get_column df1 col0 = Some (SUtf8 l)).
    { destruct (String.eqb col0 c) eqn:E.
      - apply String.eqb_eq in E; subst c.
        now rewrite (Hsame l Hget Hbad).
      - rewrite Hother; [exact Hget|].
        intro Heq; subst. now rewrite String.eqb_refl in E. }
    destruct (IH df1) as (df2 & H2 & Hc2 & Hg2).
    { intros x Hx. rewrite Hc1. apply Hsub. now right. }
    { exact Hget1. }
    exists df2. cbn [for_each]. rewrite H1. cbn [bind].
    repeat split; [exact H2 | congruence | exact Hg2].
Qed.

Lemma date_cols_columns (df : DataFrame) (c : string) :
  In c (date_cols df) -> In c (pl.columns df).
Proof. unfold date_cols. intro H. now apply filter_In in H. Qed.

Lemma all_parse_false (fmt : string) (l : list (option string)) (s : string) :
  In (Some s) l -> Dates.parse_from_str fmt s = None -> all_parse fmt l = false.
Proof.
  intros Hin Hp. destruct (all_parse fmt l) eqn:E; [|reflexivity].
  unfold all_parse in E. rewrite forallb_forall in E.
  specialize (E _ Hin). simpl in E. now rewrite Hp in E.
Qed.



(** C5.  When a "trade" text column has a cell that parses under none
    of the three candidate layouts, stage 4 returns (it raises nothing),
    keeps the names of the columns, and leaves the cells of that column
    as they were. *)
Theorem C5_unparseable_column_left_as_text
    (df : DataFrame) (col : string) (l : list (option string)) (s : string) :
  In col (date_cols df) ->
  pl.get_column df col = Some (SUtf8 l) ->
  In (Some s) l ->
  (forall fmt, In fmt date_formats -> Dates.parse_from_str fmt s = None) ->
  exists df',
    fix_date_columns df = Ok df'
    /\ pl.columns df' = pl.columns df
    /\ pl.get_column df' col = Some (SUtf8 l).
Proof.
  intros Hcol Hget Hin Hnone.
  assert (Hbad : all_parse "%m/%d/%Y" l = false).
  { apply (all_parse_false _ l s Hin). apply Hnone. simpl. auto. }
  unfold fix_date_columns.
  apply (for_each_fix_keeps col l (date_cols df) Hbad df).
  - intros c Hc. now apply date_cols_columns.
  - exact Hget.
Qed.

Lemma no_layout_parses (s : string) :
  forallb (fun fmt => negb (parses fmt (Some s))) date_formats = true ->
  forall fmt, In fmt date_formats -> Dates.parse_from_str fmt s = None.
Proof.
  intros H fmt Hin. rewrite forallb_forall in H. specialize (H fmt Hin).
  unfold parses in H. now destruct (Dates.parse_from_str fmt s).
Qed.

Lemma C5_unparseable_column_left_as_text_witness :
  exists df',
    fix_date_columns Samples.bad_dates = Ok df'
    /\ pl.columns df' = pl.columns Samples.bad_dates
    /\ pl.get_column df' "trade_date"
       = Some (SUtf8 [Some "01/01/2023"; Some "yesterday"]).
Proof.
  apply (C5_unparseable_column_left_as_text
           Samples.bad_dates "trade_date" _ "yesterday").
  - simpl. auto.
  - reflexivity.
  - simpl. auto.
  - apply no_layout_parses. reflexivity.
Defined.

(** Stage 4 raises on no frame at all. *)
Lemma fix_date_columns_total (df : DataFrame) :
  exists df', fix_date_columns df = Ok df' /\ pl.columns df' = pl.columns df.
Proof.
  apply for_each_fix_total. intros c Hc. now apply date_cols_columns.
Qed.

(** C1 (the script departs from it).  On a "trade" column written as
    YYYY-MM-DD the retry loop of the script ends with [PARSED] unset and
    stage 4 returns the frame as it was; the loop that tries every
    candidate with itself parses the column with the first candidate. *)
Theorem C1_candidates_are_not_tried :
  date_formats = ["%Y-%m-%d"; "%m/%d/%Y"; "%d/%m/%Y"]
  /\ all_parse "%Y-%m-%d" [Some "2023-01-01"; Some "2023-01-02"] = true
  /\ try_formats parse_attempt date_formats Samples.iso_dates "trade_date"
     = Ok None
  /\ fix_date_columns Samples.iso_dates = Ok Samples.iso_dates
  /\ try_formats parse_attempt_as_specified date_formats
       Samples.iso_dates "trade_date"
     = Ok (Some [ ("trade_date",
                   SDate [Some (mkDate 2023 1 1); Some (mkDate 2023 1 2)]);
                  ("ticker", SUtf8 [Some "aapl"; Some "aapl"]) ]).
Proof. repeat split; reflexivity. Qed.

(** ** Equality of values and rows *)

Lemma pos_compare_cont_eq (m1 m2 : positive) :
  Pos.compare_cont Eq m1 m2 = Eq <-> m1 = m2.
Proof. exact (Pos.compare_eq_iff m1 m2). Qed.

Lemma SFcompare_finite_eq (s1 s2 : bool) (m1 m2 : positive) (e1 e2 : Z) :
  SFcompare (S754_finite s1 m1 e1) (S754_finite s2 m2 e2) = Some Eq
  <-> (s1 = s2 /\ m1 = m2 /\ e1 = e2).
Proof.
  cbn [SFcompare]. split.
  - destruct s1, s2; try discriminate;
      destruct (Z.compare e1 e2) eqn:Ee; try discriminate;
      apply Z.compare_eq_iff in Ee; subst e2;
      destruct (Pos.compare_cont Eq m1 m2) eqn:Em; try discriminate;
      apply pos_compare_cont_eq in Em; subst m2; auto.
  - intros (-> & -> & ->).
    assert (Hm : Pos.compare_cont Eq m2 m2 = Eq) by now apply pos_compare_cont_eq.
    rewrite Z.compare_refl, Hm. now destruct s2.
Qed.

Lemma tot_eqb_canonical (x y : F64.t) :
  F64.tot_eqb x y = true <-> canonical (CFloat x) = canonical (CFloat y).
Proof.
  destruct x as [sx|sx| |sx mx ex], y as [sy|sy| |sy my ey];
    unfold F64.tot_eqb, SFeqb; cbn [canonical].
  16: { pose proof (SFcompare_finite_eq sx sy mx my ex ey) as [Hf Hb].
        destruct (SFcompare (S754_finite sx mx ex) (S754_finite sy my ey))
          as [[]|] eqn:E; split; intro H; try discriminate; try reflexivity.
        - destruct (Hf eq_refl) as (-> & -> & ->). reflexivity.
        - inversion H; subst.
          discriminate (Hb (conj eq_refl (conj eq_refl eq_refl))).
        - inversion H; subst.
          discriminate (Hb (conj eq_refl (conj eq_refl eq_refl))). }
  all: try destruct sx; try destruct sy; cbn;
    split; intro H; try reflexivity; try discriminate; inversion H.
Qed.

Lemma dates_eqb_eq (a b : date) : Dates.eqb a b = true <-> a = b.
Proof.
  destruct a as [y1 m1 d1], b as [y2 m2 d2]. unfold Dates.eqb. cbn [year month day].
  rewrite !andb_true_iff, !Z.eqb_eq. split.
  - intros [[-> ->] ->]. reflexivity.
  - intro H. inversion H. auto.
Qed.

Lemma cell_eqb_canonical (a b : cell) :
  pl.cell_eqb a b = true <-> canonical a = canonical b.
Proof.
  destruct a as [|x|x|x|x|x], b as [|y|y|y|y|y]; cbn [pl.cell_eqb];
    try (split; [discriminate | destruct x; discriminate]);
    try (split; [discriminate | destruct y; discriminate]);
    try (split; [discriminate | destruct x, y; discriminate]).
  - split; reflexivity.
  - cbn [canonical]. rewrite String.eqb_eq. split; congruence.
  - cbn [canonical]. rewrite Z.eqb_eq. split; congruence.
  - apply tot_eqb_canonical.
  - cbn [canonical]. rewrite Bool.eqb_true_iff. split; congruence.
  - cbn [canonical]. rewrite dates_eqb_eq. split; congruence.
Qed.

Lemma row_eqb_canonical (r1 r2 : list cell) :
  pl.row_eqb r1 r2 = true <-> map canonical r1 = map canonical r2.
Proof.
  revert r2; induction r1 as [|a r1 IH]; intros [|b r2]; cbn [pl.row_eqb map];
    try (split; [reflexivity | reflexivity]);
    try (split; discriminate).
  rewrite andb_true_iff, cell_eqb_canonical, IH. split.
  - intros [-> ->]. reflexivity.
  - intro H. inversion H. auto.
Qed.


Lemma cell_eqb_sym (a b : cell) : pl.cell_eqb a b = pl.cell_eqb b a.
Proof.
  destruct (pl.cell_eqb a b) eqn:E1, (pl.cell_eqb b a) eqn:E2; try reflexivity.
  - apply cell_eqb_canonical in E1. symmetry in E1.
    apply cell_eqb_canonical in E1. congruence.
  - apply cell_eqb_canonical in E2. symmetry in E2.
    apply cell_eqb_canonical in E2. congruence.
Qed.

Lemma cell_eqb_trans (a b c : cell) :
  pl.cell_eqb a b = true -> pl.cell_eqb b c = true -> pl.cell_eqb a c = true.
Proof. rewrite !cell_eqb_canonical. congruence. Qed.

Lemma same_row_refl (r : list cell) : same_row r r.
Proof. now apply row_eqb_canonical. Qed.

Lemma same_row_trans (r1 r2 r3 : list cell) :
  same_row r1 r2 -> same_row r2 r3 -> same_row r1 r3.
Proof. unfold same_row. rewrite !row_eqb_canonical. congruence. Qed.

(** ** Rows of a frame taken by position *)

Lemma map_nth_seq {A : Type} (l : list A) (d : A) :
  map (fun k => nth k l d) (seq 0 (length l)) = l.
Proof.
  induction l as [|a r IH]; [reflexivity|].
  cbn [length seq map nth]. f_equal.
  rewrite <- seq_shift, map_map. exact IH.
Qed.

Lemma cells_take_series (idx : list nat) (s : Series) :
  pl.cells (pl.take_series idx s) = map (pl.cell_at s) idx.
Proof.
  unfold pl.cell_at.
  destruct s as [l|l|l|l|l]; cbn [pl.take_series pl.cells]; unfold pl.gather;
    rewrite map_map; apply map_ext; intro i;
    symmetry;
    [ exact (map_nth (pl.to_cell CStr) l None i)
    | exact (map_nth (pl.to_cell CInt) l None i)
    | exact (map_nth (pl.to_cell CFloat) l None i)
    | exact (map_nth (pl.to_cell CBool) l None i)
    | exact (map_nth (pl.to_cell CDate) l None i) ].
Qed.

Lemma len_take_series (idx : list nat) (s : Series) :
  pl.len (pl.take_series idx s) = length idx.
Proof. unfold pl.len. now rewrite cells_take_series, length_map. Qed.

Lemma height_take (idx : list nat) (df : DataFrame) :
  df <> [] -> pl.height (pl.take idx df) = length idx.
Proof.
  destruct df as [|[n s] rest]; [congruence|].
  intros _. cbn. apply len_take_series.
Qed.

Lemma columns_take (idx : list nat) (df : DataFrame) :
  pl.columns (pl.take idx df) = pl.columns df.
Proof. unfold pl.columns, pl.take. rewrite map_map. reflexivity. Qed.

Lemma cell_at_take_series (idx : list nat) (s : Series) (k : nat) :
  k < length idx ->
  pl.cell_at (pl.take_series idx s) k = pl.cell_at s (nth k idx 0).
Proof.
  intro Hk. unfold pl.cell_at at 1. rewrite cells_take_series.
  rewrite (nth_indep _ CNull (pl.cell_at s 0)) by now rewrite length_map.
  apply map_nth.
Qed.

Lemma row_take (idx : list nat) (df : DataFrame) (k : nat) :
  k < length idx -> pl.row (pl.take idx df) k = pl.row df (nth k idx 0).
Proof.
  intro Hk. unfold pl.row, pl.take. rewrite map_map. apply map_ext.
  intros [n s]. cbn [snd]. now apply cell_at_take_series.
Qed.

(** The rows of [take idx df] are the rows of [df] at [idx]. *)
Lemma rows_take (idx : list nat) (df : DataFrame) :
  df <> [] -> pl.rows (pl.take idx df) = map (pl.row df) idx.
Proof.
  intro Hne. unfold pl.rows. rewrite (height_take idx df Hne).
  transitivity (map (pl.row df) (map (fun k => nth k idx 0) (seq 0 (length idx)))).
  - rewrite map_map. apply map_ext_in. intros k Hk. apply in_seq in Hk.
    apply row_take. lia.
  - now rewrite map_nth_seq.
Qed.

Lemma length_rows (df : DataFrame) : length (pl.rows df) = pl.height df.
Proof. unfold pl.rows. now rewrite length_map, length_seq. Qed.

Lemma nth_rows (df : DataFrame) (i : nat) :
  i < pl.height df -> nth i (pl.rows df) [] = pl.row df i.
Proof.
  intro Hi. unfold pl.rows.
  rewrite (nth_indep _ [] (pl.row df 0)) by now rewrite length_map, length_seq.
  rewrite map_nth, seq_nth by exact Hi. reflexivity.
Qed.

Lemma gather_all {A : Type} (l : list (option A)) :
  pl.gather (seq 0 (length l)) l = l.
Proof. apply map_nth_seq. Qed.

Lemma take_series_all (s : Series) :
  pl.take_series (seq 0 (pl.len s)) s = s.
Proof.
  unfold pl.len.
  destruct s as [l|l|l|l|l]; cbn [pl.take_series pl.cells];
    rewrite length_map, gather_all; reflexivity.
Qed.

(** Taking every position of a rectangular frame gives the frame. *)
Lemma take_all (df : DataFrame) :
  rectangular df -> pl.take (seq 0 (pl.height df)) df = df.
Proof.
  intro Hrect. unfold pl.take.
  rewrite <- (map_id df) at 2. apply map_ext_in.
  intros [n s] Hin. cbn [fst snd].
  rewrite <- (Hrect _ Hin). cbn [snd]. now rewrite take_series_all.
Qed.

Lemma rectangular_take (idx : list nat) (df : DataFrame) :
  rectangular (pl.take idx df).
Proof.
  destruct df as [|c0 rest]; [intros c []|].
  intros c Hin. rewrite height_take by discriminate.
  unfold pl.take in Hin. apply in_map_iff in Hin as [c' [<- _]].
  cbn [snd]. apply len_take_series.
Qed.

(** ** unique *)

Lemma unique_positions_In (rs : list (list cell)) (i : nat) :
  In i (pl.unique_positions rs)
  <-> i < length rs /\ pl.first_occurrence rs i = true.
Proof.
  unfold pl.unique_positions. rewrite filter_In, in_seq. intuition lia.
Qed.

Lemma first_occurrence_earlier (rs : list (list cell)) (j i : nat) :
  pl.first_occurrence rs i = true -> j < i ->
  pl.row_eqb (nth j rs []) (nth i rs []) = false.
Proof.
  unfold pl.first_occurrence. intros H Hj.
  apply negb_true_iff in H.
  destruct (pl.row_eqb (nth j rs []) (nth i rs [])) eqn:E; [|reflexivity].
  assert (Hex : existsb (fun j => pl.row_eqb (nth j rs []) (nth i rs [])) (seq 0 i) = true).
  { apply existsb_exists. exists j. split; [apply in_seq; lia | exact E]. }
  congruence.
Qed.

Lemma StronglySorted_seq (a n : nat) : StronglySorted lt (seq a n).
Proof.
  revert a; induction n as [|n IH]; intro a; cbn [seq]; constructor.
  - apply IH.
  - apply Forall_forall. intros x Hx. apply in_seq in Hx. lia.
Qed.

Lemma StronglySorted_filter {A : Type} (R : A -> A -> Prop) (p : A -> bool) (l : list A) :
  StronglySorted R l -> StronglySorted R (List.filter p l).
Proof.
  induction 1 as [|a l Hs IH Hall]; cbn [List.filter]; [constructor|].
  destruct (p a); [|exact IH].
  constructor; [exact IH|].
  rewrite Forall_forall in *. intros x Hx. apply filter_In in Hx as [Hx _]. auto.
Qed.

Lemma InA_map_inv {A B : Type} (eqB : B -> B -> Prop) (f : A -> B) (x : B) (l : list A) :
  InA eqB x (map f l) -> exists a, In a l /\ eqB x (f a).
Proof.
  induction l as [|a r IH]; cbn [map]; intro H; inversion H; subst.
  - exists a. split; [now left | assumption].
  - destruct (IH H1) as (b & Hb & Hx). exists b. split; [now right | assumption].
Qed.

(** Rows taken at increasing first occurrences are pairwise different. *)
Lemma NoDupA_first_occurrences (rs : list (list cell)) (idx : list nat) :
  StronglySorted lt idx ->
  (forall i, In i idx -> pl.first_occurrence rs i = true) ->
  NoDupA same_row (map (fun i => nth i rs []) idx).
Proof.
  induction 1 as [|i r Hs IH Hall]; intro Hfirst; cbn [map]; constructor.
  - intro Hin. apply InA_map_inv in Hin as (k & Hk & Hsame).
    rewrite Forall_forall in Hall. specialize (Hall k Hk).
    assert (Hf : pl.first_occurrence rs k = true) by (apply Hfirst; now right).
    pose proof (first_occurrence_earlier rs i k Hf Hall) as Hne.
    unfold same_row in Hsame. congruence.
  - apply IH. intros k Hk. apply Hfirst. now right.
Qed.

Lemma NoDupA_nth {A : Type} (eqA : A -> A -> Prop) (l : list A) (d : A) :
  NoDupA eqA l ->
  forall j i, j < i -> i < length l -> ~ eqA (nth j l d) (nth i l d).
Proof.
  induction 1 as [|x l Hx Hnd IH]; intros j i Hji Hi; cbn [length] in Hi; [lia|].
  destruct i as [|i]; [lia|]. destruct j as [|j]; cbn [nth].
  - intro He. apply Hx. apply InA_alt. exists (nth i l d).
    split; [exact He | apply nth_In; lia].
  - apply IH; lia.
Qed.

(** On rows that are pairwise different every position is a first
    occurrence. *)
Lemma unique_positions_all (rs : list (list cell)) :
  NoDupA same_row rs -> pl.unique_positions rs = seq 0 (length rs).
Proof.
  intro Hnd. unfold pl.unique_positions. apply forallb_filter_id.
  apply forallb_forall. intros i Hi. apply in_seq in Hi.
  unfold pl.first_occurrence. apply negb_true_iff.
  destruct (existsb _ (seq 0 i)) eqn:E; [|reflexivity].
  apply existsb_exists in E as (j & Hj & Hsame). apply in_seq in Hj.
  exfalso. apply (NoDupA_nth same_row rs [] Hnd j i); [lia | lia | exact Hsame].
Qed.

Lemma rows_unique (df : DataFrame) :
  pl.rows (pl.unique df)
  = map (fun i => nth i (pl.rows df) []) (pl.unique_positions (pl.rows df)).
Proof.
  destruct df as [|c0 rest]; [reflexivity|].
  unfold pl.unique. rewrite rows_take by discriminate.
  apply map_ext_in. intros i Hi. apply unique_positions_In in Hi as [Hi _].
  rewrite length_rows in Hi. symmetry. now apply nth_rows.
Qed.

Lemma unique_NoDupA (df : DataFrame) : NoDupA same_row (pl.rows (pl.unique df)).
Proof.
  rewrite rows_unique. apply NoDupA_first_occurrences.
  - apply StronglySorted_filter, StronglySorted_seq.
  - intros i Hi. now apply unique_positions_In in Hi.
Qed.

(** [unique] gives back a frame without duplicate rows. *)
Lemma unique_fixed (df : DataFrame) :
  rectangular df -> NoDupA same_row (pl.rows df) -> pl.unique df = df.
Proof.
  intros Hrect Hnd. unfold pl.unique.
  rewrite (unique_positions_all _ Hnd), length_rows. now apply take_all.
Qed.

Lemma NoDupA_NoDup (rs : list (list cell)) : NoDupA same_row rs -> NoDup rs.
Proof.
  induction 1 as [|r l Hr Hnd IH]; constructor; [|exact IH].
  intro Hin. apply Hr. apply InA_alt. exists r. split; [apply same_row_refl | exact Hin].
Qed.

(** Every row of the frame has its like among the rows kept. *)
Lemma unique_covers (rs : list (list cell)) (i : nat) :
  i < length rs ->
  exists j, In j (pl.unique_positions rs) /\ same_row (nth j rs []) (nth i rs []).
Proof.
  induction i as [i IH] using lt_wf_ind. intro Hi.
  destruct (pl.first_occurrence rs i) eqn:E.
  - exists i. split; [now apply unique_positions_In | apply same_row_refl].
  - unfold pl.first_occurrence in E. apply negb_false_iff in E.
    apply existsb_exists in E as (j & Hj & Hsame). apply in_seq in Hj.
    destruct (IH j) as (k & Hk & Hkj); [lia | lia |].
    exists k. split; [exact Hk|].
    now apply (same_row_trans _ (nth j rs [])).
Qed.

(** C9.  The frame that [unique] gives has no two rows that are the
    same row for the engine, hence no two identical rows; its rows are
    rows of the input, and every row of the input has its like among
    them; and [unique] gives back, as it is, every rectangular frame
    whose rows are pairwise different, so that applying it to its own
    result, in whatever order the engine left the rows, changes
    nothing. *)
Theorem C9_unique_rows (df : DataFrame) :
  NoDupA same_row (pl.rows (pl.unique df))
  /\ NoDup (pl.rows (pl.unique df))
  /\ (forall r, In r (pl.rows (pl.unique df)) -> In r (pl.rows df))
  /\ (forall r, In r (pl.rows df) ->
                exists r', In r' (pl.rows (pl.unique df)) /\ same_row r' r)
  /\ pl.unique (pl.unique df) = pl.unique df
  /\ (forall df' : DataFrame,
         rectangular df' -> NoDupA same_row (pl.rows df') ->
         pl.unique df' = df').
Proof.
  split; [apply unique_NoDupA|].
  split; [apply NoDupA_NoDup, unique_NoDupA|].
  split; [|split; [|split]].
  - intros r Hr. rewrite rows_unique in Hr.
    apply in_map_iff in Hr as (i & <- & Hi).
    apply unique_positions_In in Hi as [Hi _]. now apply nth_In.
  - intros r Hr. destruct (In_nth _ _ [] Hr) as (i & Hi & <-).
    destruct (unique_covers _ i Hi) as (j & Hj & Hsame).
    exists (nth j (pl.rows df) []). split; [|exact Hsame].
    rewrite rows_unique. apply in_map_iff. now exists j.
  - apply unique_fixed; [apply rectangular_take | apply unique_NoDupA].
  - intros df'. apply unique_fixed.
Qed.

Lemma C9_unique_rows_witness :
  pl.unique Samples.repeated
  = [ ("ticker", SUtf8 [Some "aapl"; Some "msft"; None]);
      ("close_price", SFloat64 [Some F64.zero; Some F64.one; None]) ]
  /\ pl.unique (pl.unique Samples.repeated) = pl.unique Samples.repeated.
Proof.
  split; [reflexivity|].
  exact (proj1 (proj2 (proj2 (proj2 (proj2 (C9_unique_rows Samples.repeated)))))).
Defined.

(** ** The schema cast *)

Lemma get_column_with_columns (cols : list (string * Series)) :
  forall (df : DataFrame) (m : string),
    pl.get_column (pl.with_columns df cols) m = updated cols m (pl.get_column df m).
Proof.
  induction cols as [|c r IH]; intros df m; [reflexivity|].
  unfold pl.with_columns in *. cbn [fold_left updated].
  now rewrite IH, get_column_with_column.
Qed.

Lemma updated_app (a b : list (string * Series)) (m : string) (old : option Series) :
  updated (a ++ b) m old = updated b m (updated a m old).
Proof.
  revert old; induction a as [|c r IH]; intro old; [reflexivity|].
  cbn [app updated]. apply IH.
Qed.

Section SchemaFacts.

Variable f64_to_string : F64.t -> string.
Variable df : DataFrame.

Lemma updated_cast_entries_miss (schema : list (string * DataType)) (m : string)
    (old : option Series) :
  Str.mem m (map fst schema) = false ->
  updated (flat_map (cast_entry f64_to_string df) schema) m old = old.
Proof.
  revert old; induction schema as [|[n t] rest IH]; intros old Hm; [reflexivity|].
  cbn [map fst Str.mem] in Hm. apply orb_false_iff in Hm as [Hn Hrest].
  cbn [flat_map]. rewrite updated_app, (IH _ Hrest).
  unfold cast_entry. cbn [fst snd].
  destruct (pl.get_column df n); [|reflexivity].
  cbn [updated fst snd]. now rewrite String.eqb_sym, Hn.
Qed.

Lemma updated_cast_entries (schema : list (string * DataType)) (m : string) :
  Str.nodupb (map fst schema) = true ->
  updated (flat_map (cast_entry f64_to_string df) schema) m (pl.get_column df m) =
  match lookup_type schema m with
  | Some t => option_map (Cast.cast f64_to_string t) (pl.get_column df m)
  | None => pl.get_column df m
  end.
Proof.
  induction schema as [|[n t] rest IH]; intro Hnd; [reflexivity|].
  cbn [map fst Str.nodupb] in Hnd. apply andb_prop in Hnd as [Hn Hrest].
  apply negb_true_iff in Hn.
  cbn [flat_map lookup_type]. rewrite updated_app.
  destruct (String.eqb n m) eqn:E.
  - apply String.eqb_eq in E; subst n.
    rewrite updated_cast_entries_miss by exact Hn.
    unfold cast_entry. cbn [fst snd].
    destruct (pl.get_column df m); [|reflexivity].
    cbn [updated fst snd option_map]. now rewrite String.eqb_refl.
  - rewrite <- (IH Hrest). f_equal.
    unfold cast_entry. cbn [fst snd].
    destruct (pl.get_column df n); [|reflexivity].
    cbn [updated fst snd]. now rewrite E.
Qed.

(** A column after stage 5: cast to its target type when the
    dictionary names it, as it was otherwise. *)
Lemma get_column_enforce_schema (m : string) :
  pl.get_column (enforce_schema f64_to_string df) m =
  match target_type m with
  | Some t => option_map (Cast.cast f64_to_string t) (pl.get_column df m)
  | None => pl.get_column df m
  end.
Proof.
  unfold enforce_schema. rewrite get_column_with_columns.
  apply (updated_cast_entries target_schema m). reflexivity.
Qed.

End SchemaFacts.

Lemma nth_map_to_cell {A : Type} (inj : A -> cell) (l : list (option A)) (i : nat) :
  nth i (map (pl.to_cell inj) l) CNull = pl.to_cell inj (nth i l None).
Proof. exact (map_nth (pl.to_cell inj) l None i). Qed.





Lemma non_null_positions_In (s : Series) (i : nat) :
  In i (non_null_positions s)
  <-> i < pl.len s /\ pl.is_null (pl.cell_at s i) = false.
Proof.
  unfold non_null_positions, pl.positions, Expr.is_not_null, pl.len, pl.cell_at.
  rewrite filter_In, in_seq, length_map.
  split; intros [Hi Hn]; (split; [lia|]).
  - rewrite (nth_indep _ false (negb (pl.is_null CNull))) in Hn
      by (rewrite length_map; lia).
    rewrite (map_nth (fun c => negb (pl.is_null c))) in Hn.
    now apply negb_true_iff in Hn.
  - rewrite (nth_indep _ false (negb (pl.is_null CNull)))
      by (rewrite length_map; lia).
    rewrite (map_nth (fun c => negb (pl.is_null c))).
    now apply negb_true_iff.
Qed.




(** ** The aggregates *)

Lemma col_missing {df : DataFrame} {n : string} :
  Str.mem n (pl.columns df) = false -> pl.col df n = Raise ColumnNotFoundError.
Proof. intro H. unfold pl.col. now rewrite (get_column_None df n H). Qed.

(** Aggregate 1 reads the three columns that the guard of Aggregate 3
    asks for: without one of them it raises. *)
Lemma agg1_missing_column (df : DataFrame) :
  has_return_columns df = false -> agg1 df = Raise ColumnNotFoundError.
Proof.
  unfold has_return_columns. cbn [forallb]. rewrite andb_true_r. intro H.
  unfold agg1, Frame.filter_not_null.
  destruct (Str.mem "close_price" (pl.columns df)) eqn:Ec;
    [|now rewrite (col_missing Ec)].
  apply mem_In, In_get_column in Ec as [s Hs].
  unfold pl.col at 1. rewrite Hs. cbn [bind].
  unfold Frame.group_by_mean, pl.filter. cbn [pl.select].
  set (f := pl.take _ df).
  assert (Hcols : pl.columns f = pl.columns df) by apply columns_take.
  destruct (Str.mem "trade_date" (pl.columns df)) eqn:Ed.
  - destruct (Str.mem "ticker" (pl.columns df)) eqn:Et; [discriminate|].
    rewrite <- Hcols in Ed, Et.
    apply mem_In, In_get_column in Ed as [d Hd].
    unfold pl.col at 1. rewrite Hd. cbn [bind].
    now rewrite (col_missing Et).
  - rewrite <- Hcols in Ed. now rewrite (col_missing Ed).
Qed.

(** So stage 7 raises before it writes anything, and never reaches the
    guard of Aggregate 3 with a column missing. *)
Lemma aggregates_missing_column (df : DataFrame) (fs : Files) :
  has_return_columns df = false ->
  aggregates df fs = (fs, Raise ColumnNotFoundError).
Proof.
  intro H. unfold aggregates, seq_script, lift.
  now rewrite (agg1_missing_column df H).
Qed.

(** C7 (the script departs from it).  On every cleaned table that
    lacks one of ticker, trade_date, close_price, stage 7 raises
    [ColumnNotFoundError] in Aggregate 1 and writes nothing, so the guard
    of Aggregate 3 is never reached with a column missing.  On the sample
    without close_price: the guard is false, Aggregate 1 raises,
    Aggregate 2 alone would not, and neither agg1 nor agg2 nor agg3 is
    written. *)
Theorem C7_missing_column_aborts :
  (forall (df : DataFrame) (fs : Files),
      has_return_columns df = false ->
      aggregates df fs = (fs, Raise ColumnNotFoundError))
  /\ has_return_columns Samples.no_close_price = false
  /\ agg1 Samples.no_close_price = Raise ColumnNotFoundError
  /\ raises (agg2 Samples.no_close_price) = false
  /\ aggregates Samples.no_close_price [] = ([], Raise ColumnNotFoundError).
Proof.
  split; [intros df fs; apply aggregates_missing_column|].
  repeat split; reflexivity.
Qed.

(** C6 (the script departs from it).  The column trade_date of the
    sample holds "yesterday": stage 4 leaves it as text, the cleaned
    table and the first two aggregates are written, and the strict parse
    of Aggregate 3 raises [ComputeError], which nothing catches: the run
    ends with the exception and without agg3. *)
Theorem C6_unparsed_dates_abort_the_run (f64_to_string : F64.t -> string) :
  (exists cleaned,
      clean f64_to_string Samples.bad_dates = Ok cleaned
      /\ pl.get_column cleaned "trade_date"
         = Some (SUtf8 [Some "01/01/2023"; Some "yesterday"])
      /\ has_return_columns cleaned = true
      /\ raises (agg1 cleaned) = false
      /\ raises (agg2 cleaned) = false
      /\ agg3 cleaned = Raise ComputeError)
  /\ snd (main f64_to_string Samples.bad_dates []) = Raise ComputeError
  /\ map fst (fst (main f64_to_string Samples.bad_dates []))
     = [AGG2_PATH; AGG1_PATH; CLEAN_PATH]
  /\ written (fst (main f64_to_string Samples.bad_dates [])) AGG3_PATH = None.
Proof.
  split.
  - eexists. split; [reflexivity|]. repeat split; reflexivity.
  - repeat split; reflexivity.
Qed.

(** ** Orders *)

Lemma orderly_refl {A : Type} (cmp : A -> A -> comparison) (a : A) :
  orderly cmp -> cmp a a = Eq.
Proof.
  intros [Hanti _ _]. specialize (Hanti a a).
  destruct (cmp a a); [reflexivity | discriminate | discriminate].
Qed.

Lemma orderly_total {A : Type} (cmp : A -> A -> comparison) (a b : A) :
  orderly cmp -> cmp a b = Gt -> cmp b a <> Gt.
Proof. intros [Hanti _ _] H. rewrite Hanti, H. discriminate. Qed.

Lemma orderly_le_trans {A : Type} (cmp : A -> A -> comparison) (a b c : A) :
  orderly cmp -> cmp a b <> Gt -> cmp b c <> Gt -> cmp a c <> Gt.
Proof.
  intros [Hanti Heq Hlt] Hab Hbc.
  destruct (cmp a b) eqn:Eab; [| |congruence].
  - apply Heq in Eab. now subst.
  - destruct (cmp b c) eqn:Ebc; [| |congruence].
    + apply Heq in Ebc. subst. now rewrite Eab.
    + now rewrite (Hlt a b c Eab Ebc).
Qed.

Lemma orderly_Z : orderly Z.compare.
Proof.
  split.
  - intros a b. apply Z.compare_antisym.
  - intros a b. apply Z.compare_eq.
  - intros a b c. rewrite !Z.compare_lt_iff. lia.
Qed.

Lemma orderly_ascii : orderly Ascii.compare.
Proof.
  split.
  - intros a b. apply Ascii.compare_antisym.
  - intros a b. apply Ascii.compare_eq_iff.
  - intros a b c. unfold Ascii.compare. rewrite !N.compare_lt_iff. lia.
Qed.

Lemma orderly_string : orderly String.compare.
Proof.
  split.
  - intros a b. apply String.compare_antisym.
  - intros a b. apply String.compare_eq_iff.
  - intros a. induction a as [|x a IH]; intros [|y b] [|z c]; cbn [String.compare];
      try discriminate; try reflexivity.
    destruct (Ascii.compare x y) eqn:Exy; try discriminate.
    + apply Ascii.compare_eq_iff in Exy; subst y.
      destruct (Ascii.compare x z); try discriminate; [apply IH | reflexivity].
    + destruct (Ascii.compare y z) eqn:Eyz; try discriminate.
      * apply Ascii.compare_eq_iff in Eyz; subst z. now rewrite Exy.
      * now rewrite (orderly_lt_trans _ orderly_ascii x y z Exy Eyz).
Qed.

Lemma orderly_opt {A : Type} (cmp : A -> A -> comparison) :
  orderly cmp -> orderly (opt_compare cmp).
Proof.
  intros [Hanti Heq Hlt]. split.
  - intros [a|] [b|]; cbn; auto.
  - intros [a|] [b|]; cbn; try discriminate; auto.
    intro H. now rewrite (Heq a b H).
  - intros [a|] [b|] [c|]; cbn; try discriminate; auto. apply Hlt.
Qed.

Lemma orderly_lex {A B : Type} (cmpA : A -> A -> comparison) (cmpB : B -> B -> comparison) :
  orderly cmpA -> orderly cmpB -> orderly (lex_compare cmpA cmpB).
Proof.
  intros HA HB. split.
  - intros [a1 b1] [a2 b2]. unfold lex_compare. cbn [fst snd].
    rewrite (orderly_antisym _ HA a1 a2), (orderly_antisym _ HB b1 b2).
    now destruct (cmpA a1 a2).
  - intros [a1 b1] [a2 b2]. unfold lex_compare. cbn [fst snd].
    destruct (cmpA a1 a2) eqn:Ea; try discriminate.
    intro Eb. now rewrite (orderly_eq _ HA _ _ Ea), (orderly_eq _ HB _ _ Eb).
  - intros [a1 b1] [a2 b2] [a3 b3]. unfold lex_compare. cbn [fst snd].
    destruct (cmpA a1 a2) eqn:E12; try discriminate.
    + apply (orderly_eq _ HA) in E12; subst a2.
      destruct (cmpA a1 a3); try discriminate; [|reflexivity].
      apply (orderly_lt_trans _ HB).
    + intros _. destruct (cmpA a2 a3) eqn:E23; try discriminate.
      * apply (orderly_eq _ HA) in E23; subst a3. now rewrite E12.
      * now rewrite (orderly_lt_trans _ HA _ _ _ E12 E23).
Qed.

Lemma dates_compare_lex (a b : date) :
  Dates.compare a b =
  lex_compare Z.compare (lex_compare Z.compare Z.compare)
    (year a, (month a, day a)) (year b, (month b, day b)).
Proof. reflexivity. Qed.

Lemma orderly_dates : orderly Dates.compare.
Proof.
  pose proof (orderly_lex _ _ orderly_Z (orderly_lex _ _ orderly_Z orderly_Z)) as H.
  split.
  - intros a b. rewrite !dates_compare_lex. apply (orderly_antisym _ H).
  - intros [y1 m1 d1] [y2 m2 d2]. rewrite dates_compare_lex. intro E.
    apply (orderly_eq _ H) in E. cbn [year month day] in E. now inversion E.
  - intros a b c. rewrite !dates_compare_lex. apply (orderly_lt_trans _ H).
Qed.

Lemma orderly_key : orderly key_compare.
Proof.
  apply orderly_lex; apply orderly_opt; [apply orderly_string | apply orderly_dates].
Qed.

(** The order of the sort on the keys of [tmp] is [key_compare]. *)
Lemma row_compare_key (k1 k2 : option string * option date) :
  Expr.row_compare (key_cells k1) (key_cells k2) = key_compare k1 k2.
Proof.
  destruct k1 as [[t1|] [d1|]], k2 as [[t2|] [d2|]];
    unfold key_compare, lex_compare, key_cells;
    cbn [Expr.row_compare Expr.cell_compare pl.to_cell fst snd opt_compare];
    repeat match goal with
           | |- context [match ?c with Eq => _ | Lt => _ | Gt => _ end] =>
               destruct c
           end; reflexivity.
Qed.

(** ** Sorting by insertion *)

Section Sorting.

Variable leb : nat -> nat -> bool.
Variable P : nat -> Prop.
Hypothesis leb_total : forall i j, P i -> P j -> leb i j = false -> leb j i = true.
Hypothesis leb_trans :
  forall i j k, P i -> P j -> P k -> leb i j = true -> leb j k = true -> leb i k = true.

Lemma insert_sorted_perm (i : nat) (l : list nat) :
  Permutation (Expr.insert_sorted leb i l) (i :: l).
Proof.
  induction l as [|j r IH]; cbn [Expr.insert_sorted]; [reflexivity|].
  destruct (leb i j); [reflexivity|].
  rewrite IH. apply perm_swap.
Qed.

Lemma sort_positions_perm (l : list nat) :
  Permutation (Expr.sort_positions leb l) l.
Proof.
  induction l as [|i r IH]; [reflexivity|].
  unfold Expr.sort_positions in *. cbn [fold_right].
  rewrite insert_sorted_perm. now constructor.
Qed.

Lemma insert_sorted_sorted (i : nat) (l : list nat) :
  P i -> Forall P l ->
  StronglySorted (fun a b => leb a b = true) l ->
  StronglySorted (fun a b => leb a b = true) (Expr.insert_sorted leb i l).
Proof.
  intros Hi Hall Hs. induction Hs as [|j r Hs IH Hj]; cbn [Expr.insert_sorted].
  - repeat constructor.
  - inversion Hall as [|? ? Pj Pr]; subst.
    destruct (leb i j) eqn:E.
    + constructor; [now constructor|].
      constructor; [exact E|].
      rewrite Forall_forall in *. intros x Hx.
      apply (leb_trans i j x); auto.
    + constructor; [now apply IH|].
      rewrite Forall_forall in *. intros x Hx.
      apply (Permutation_in _ (insert_sorted_perm i r)) in Hx.
      destruct Hx as [<- | Hx]; [now apply leb_total | now apply Hj].
Qed.

Lemma sort_positions_sorted (l : list nat) :
  Forall P l ->
  StronglySorted (fun a b => leb a b = true) (Expr.sort_positions leb l).
Proof.
  induction 1 as [|i r Hi Hr IH]; [constructor|].
  unfold Expr.sort_positions in *. cbn [fold_right].
  apply insert_sorted_sorted; [exact Hi | | exact IH].
  rewrite Forall_forall in *. intros x Hx. apply Hr.
  now apply (Permutation_in _ (sort_positions_perm r)).
Qed.

End Sorting.

Lemma StronglySorted_nth {A : Type} (R : A -> A -> Prop) (l : list A) (d : A) :
  StronglySorted R l ->
  forall p q, p < q -> q < length l -> R (nth p l d) (nth q l d).
Proof.
  induction 1 as [|a r Hs IH Ha]; intros p q Hpq Hq; cbn [length] in Hq; [lia|].
  destruct q as [|q]; [lia|]. destruct p as [|p]; cbn [nth].
  - rewrite Forall_forall in Ha. apply Ha, nth_In. lia.
  - apply IH; lia.
Qed.

(** ** Windows *)

Lemma group_positions_In (keys : list cell) (k : cell) (i : nat) :
  In i (Expr.group_positions keys k)
  <-> i < length keys /\ pl.cell_eqb (nth i keys CNull) k = true.
Proof.
  unfold Expr.group_positions. rewrite filter_In, in_seq. intuition lia.
Qed.

Lemma group_positions_NoDup (keys : list cell) (k : cell) :
  NoDup (Expr.group_positions keys k).
Proof. apply NoDup_filter, seq_NoDup. Qed.

(** Equal keys have the same group. *)
Lemma group_positions_same (keys : list cell) (k k' : cell) :
  pl.cell_eqb k k' = true ->
  Expr.group_positions keys k = Expr.group_positions keys k'.
Proof.
  intro H. unfold Expr.group_positions. apply filter_ext. intro j.
  destruct (pl.cell_eqb (nth j keys CNull) k) eqn:E1,
           (pl.cell_eqb (nth j keys CNull) k') eqn:E2; try reflexivity.
  - now rewrite (cell_eqb_trans _ _ _ E1 H) in E2.
  - rewrite cell_eqb_sym in H. now rewrite (cell_eqb_trans _ _ _ E2 H) in E1.
Qed.

Lemma index_of_scatter {B : Type} (g : list nat) :
  NoDup g ->
  forall ys : list (option B),
    length ys = length g ->
    map (fun i => nth (Expr.index_of i g) ys None) g = ys.
Proof.
  induction 1 as [|j r Hj Hnd IH]; intros [|y ys] Hlen; try discriminate;
    [reflexivity|].
  cbn [map Expr.index_of]. rewrite Nat.eqb_refl. cbn [nth]. f_equal.
  transitivity (map (fun i => nth (Expr.index_of i r) ys None) r);
    [|apply IH; cbn in Hlen; lia].
  apply map_ext_in. intros i Hi.
  destruct (Nat.eqb i j) eqn:E; [|reflexivity].
  apply Nat.eqb_eq in E; subst. contradiction.
Qed.

(** The values that [over] gives to the rows of one group are the
    values of the expression on that group. *)
Lemma over_group {A B : Type} (keys : list cell)
    (f : list (option A) -> list (option B)) (xs : list (option A)) (k : cell) :
  (forall l, length (f l) = length l) ->
  pl.gather (Expr.group_positions keys k) (Expr.over keys f xs)
  = f (pl.gather (Expr.group_positions keys k) xs).
Proof.
  intro Hlen. set (g := Expr.group_positions keys k).
  transitivity (map (fun i => nth (Expr.index_of i g) (f (pl.gather g xs)) None) g);
    [|apply index_of_scatter;
      [apply group_positions_NoDup
      |rewrite Hlen; unfold pl.gather; now rewrite length_map]].
  unfold pl.gather at 1. apply map_ext_in. intros i Hi.
  apply group_positions_In in Hi as [Hi Hk].
  unfold Expr.over.
  rewrite (nth_indep _ None
             (nth (Expr.index_of 0 (Expr.group_positions keys (nth 0 keys CNull)))
                  (f (pl.gather (Expr.group_positions keys (nth 0 keys CNull)) xs)) None))
    by now rewrite length_map, length_seq.
  rewrite (map_nth (fun i => nth (Expr.index_of i (Expr.group_positions keys (nth i keys CNull)))
                              (f (pl.gather (Expr.group_positions keys (nth i keys CNull)) xs)) None)).
  rewrite seq_nth by exact Hi. cbn [Nat.add].
  now rewrite (group_positions_same keys _ _ Hk).
Qed.

Lemma length_removelast {A : Type} (l : list A) :
  length (removelast l) = pred (length l).
Proof.
  induction l as [|a r IH]; [reflexivity|].
  destruct r as [|b r']; [reflexivity|].
  change (removelast (a :: b :: r')) with (a :: removelast (b :: r')).
  cbn [length] in *. now rewrite IH.
Qed.

Lemma length_shift1 {A : Type} (l : list (option A)) :
  length (Expr.shift1 l) = length l.
Proof.
  destruct l as [|a r]; [reflexivity|].
  unfold Expr.shift1. cbn [length]. now rewrite length_removelast.
Qed.

Lemma length_zip_with {A B C : Type} (f : A -> B -> C) (l : list A) :
  forall m : list B, length m = length l -> length (Expr.zip_with f l m) = length l.
Proof.
  induction l as [|a r IH]; intros [|b m] H; try discriminate; [reflexivity|].
  cbn [Expr.zip_with length]. f_equal. apply IH. now inversion H.
Qed.

Lemma length_return_expr (close : list (option F64.t)) :
  length (return_expr close) = length close.
Proof. unfold return_expr. apply length_zip_with, length_shift1. Qed.

Lemma nth_zip_lag {A C : Type} (f : option A -> option A -> C) (d : C) (l : list (option A)) :
  forall (p : option A) (i : nat),
    i < length l ->
    nth i (Expr.zip_with f l (p :: removelast l)) d
    = f (nth i l None) (nth i (p :: l) None).
Proof.
  induction l as [|a r IH]; intros p i Hi; cbn [length] in Hi; [lia|].
  destruct r as [|b r'].
  - destruct i as [|i]; [reflexivity | cbn [length] in Hi; lia].
  - change (Expr.zip_with f (a :: b :: r') (p :: removelast (a :: b :: r')))
      with (f a p :: Expr.zip_with f (b :: r') (a :: removelast (b :: r'))).
    destruct i as [|i]; [reflexivity|].
    cbn [nth]. rewrite IH by (cbn [length] in *; lia). reflexivity.
Qed.

(** The return of the row at place [i] of a group: none at the first
    place, the close over the close before it, less one, at the
    others. *)
Lemma nth_return_expr (close : list (option F64.t)) (i : nat) :
  nth i (return_expr close) None =
  match i with
  | O => None
  | S j =>
      Expr.lift2 F64.sub
        (Expr.lift2 F64.div (nth i close None) (nth j close None))
        (Some F64.one)
  end.
Proof.
  destruct (Nat.lt_ge_cases i (length close)) as [Hi | Hi].
  - unfold return_expr, Expr.shift1.
    destruct close as [|a r]; [cbn [length] in Hi; lia|].
    rewrite (nth_zip_lag _ None (a :: r) None i Hi).
    destruct i as [|j]; [|reflexivity].
    cbn [nth Expr.lift2]. now destruct a.
  - rewrite nth_overflow by now rewrite length_return_expr.
    destruct i as [|j]; [reflexivity|].
    now rewrite (nth_overflow close) by exact Hi.
Qed.

(** ** Rows without nulls *)

Lemma filter_map_comm {A B : Type} (f : A -> B) (p : B -> bool) (l : list A) :
  List.filter p (map f l) = map f (List.filter (fun a => p (f a)) l).
Proof.
  induction l as [|a r IH]; [reflexivity|].
  cbn [map List.filter]. destruct (p (f a)); cbn [map]; now rewrite IH.
Qed.

Lemma rows_filter_mask (p : list cell -> bool) (df : DataFrame) :
  pl.rows (pl.filter (map p (pl.rows df)) df) = List.filter p (pl.rows df).
Proof.
  destruct df as [|c0 rest]; [reflexivity|].
  unfold pl.filter. rewrite rows_take by discriminate.
  unfold pl.positions. rewrite length_map, length_rows.
  set (df := c0 :: rest).
  transitivity (List.filter p (map (pl.row df) (seq 0 (pl.height df))));
    [|reflexivity].
  rewrite filter_map_comm. f_equal.
  apply filter_ext_in. intros i Hi. apply in_seq in Hi.
  rewrite (nth_indep _ false (p [])) by (rewrite length_map, length_rows; lia).
  rewrite (map_nth p), nth_rows by lia. reflexivity.
Qed.

(** The rows of [drop_nulls] are the rows that hold no null. *)
Lemma rows_drop_nulls (df : DataFrame) :
  pl.rows (pl.drop_nulls df)
  = List.filter (forallb (fun c => negb (pl.is_null c))) (pl.rows df).
Proof. unfold pl.drop_nulls. apply rows_filter_mask. Qed.

(** ** Aggregate 3 *)

Lemma get_column_take (idx : list nat) (df : DataFrame) (n : string) :
  pl.get_column (pl.take idx df) n
  = option_map (pl.take_series idx) (pl.get_column df n).
Proof.
  induction df as [|[n0 s0] rest IH]; [reflexivity|].
  cbn [pl.take map fst snd pl.get_column].
  destruct (String.eqb n0 n); [reflexivity | exact IH].
Qed.

Lemma get_column_In_pair (df : DataFrame) (n : string) (s : Series) :
  pl.get_column df n = Some s -> In (n, s) df.
Proof.
  induction df as [|[n0 s0] rest IH]; cbn [pl.get_column]; [discriminate|].
  destruct (String.eqb n0 n) eqn:E.
  - apply String.eqb_eq in E; subst. intro H; inversion H; subst. now left.
  - intro H. right. now apply IH.
Qed.

Lemma height_with_column (df : DataFrame) (n : string) (s s0 : Series) :
  pl.get_column df n = Some s0 -> pl.len s0 = pl.len s ->
  pl.height (pl.with_column df n s) = pl.height df.
Proof.
  destruct df as [|[n0 c0] rest]; cbn [pl.get_column pl.with_column]; [discriminate|].
  destruct (String.eqb n0 n); [|reflexivity].
  intros H Hlen. inversion H; subst. cbn [pl.height]. now symmetry.
Qed.

Lemma parse_all_length (fmt : string) (l : list (option string)) (ds : list (option date)) :
  Expr.parse_all fmt l = Ok ds -> ds = map (parsed_cell fmt) l /\ all_parse fmt l = true.
Proof.
  rewrite parse_all_spec. destruct (all_parse fmt l); [|discriminate].
  intro H. inversion H. auto.
Qed.

Lemma infer_format_In (fmts : list string) (v fmt : string) :
  Expr.infer_format fmts v = Some fmt -> In fmt fmts.
Proof.
  induction fmts as [|f r IH]; cbn [Expr.infer_format]; [discriminate|].
  destruct (Dates.parse_from_str f v).
  - intro H; inversion H; subst. now left.
  - intro H. right. now apply IH.
Qed.

(** The parse of Aggregate 3, when it returns: the column was text, and
    its dates are its values read in one of the inferred layouts, which
    every value that is not null matches. *)
Lemma strptime_inferred_inv (s d : Series) :
  Expr.strptime_inferred s = Ok d ->
  exists (l : list (option string)) (fmt : string),
    s = SUtf8 l /\ In fmt Expr.inferred_formats
    /\ all_parse fmt l = true /\ d = SDate (map (parsed_cell fmt) l).
Proof.
  unfold Expr.strptime_inferred.
  destruct s as [l|l|l|l|l]; try discriminate.
  destruct (Expr.first_value l) as [v|]; [|discriminate].
  destruct (Expr.infer_format Expr.inferred_formats v) as [fmt|] eqn:Ef; [|discriminate].
  cbn [Expr.strptime].
  destruct (Expr.parse_all fmt l) as [ds|e] eqn:Ep; [|discriminate].
  cbn [bind]. intro H. inversion H; subst d.
  apply parse_all_length in Ep as [-> Hall].
  exists l, fmt. repeat split; auto. now apply (infer_format_In _ v).
Qed.

Lemma cell_compare_text (a b : option string) :
  Expr.cell_compare (pl.to_cell CStr a) (pl.to_cell CStr b)
  = opt_compare String.compare a b.
Proof. now destruct a, b. Qed.

Lemma cell_compare_date (a b : option date) :
  Expr.cell_compare (pl.to_cell CDate a) (pl.to_cell CDate b)
  = opt_compare Dates.compare a b.
Proof. now destruct a, b. Qed.

Lemma key_row (tl : list (option string)) (ds : list (option date)) (i : nat) :
  i < length tl ->
  nth i (pl.rows [("ticker", SUtf8 tl); ("trade_date", SDate ds)]) []
  = key_cells (nth i tl None, nth i ds None).
Proof.
  intro Hi. rewrite nth_rows
    by (cbn [pl.height]; unfold pl.len; cbn [pl.cells]; now rewrite length_map).
  unfold pl.row, pl.cell_at, key_cells. cbn [map snd fst pl.cells].
  now rewrite !nth_map_to_cell.
Qed.

Lemma row_leb_key (k1 k2 : option string * option date) :
  Expr.row_leb (key_cells k1) (key_cells k2) = true <-> key_compare k1 k2 <> Gt.
Proof.
  unfold Expr.row_leb. rewrite row_compare_key.
  destruct (key_compare k1 k2); split; intro H; try reflexivity; try discriminate.
  now elim H.
Qed.

(** The positions after the sort: a permutation of the rows, in the
    order of the keys. *)
Lemma sort_keys_sorted (tl : list (option string)) (ds : list (option date)) (h : nat) :
  h <= length tl ->
  let keys := pl.rows [("ticker", SUtf8 tl); ("trade_date", SDate ds)] in
  let perm :=
    Expr.sort_positions
      (fun i j => Expr.row_leb (nth i keys []) (nth j keys [])) (seq 0 h) in
  Permutation perm (seq 0 h)
  /\ forall p q, p < q -> q < h ->
       key_compare (nth (nth p perm 0) tl None, nth (nth p perm 0) ds None)
                   (nth (nth q perm 0) tl None, nth (nth q perm 0) ds None) <> Gt.
Proof.
  intros Hh keys perm.
  assert (Hperm : Permutation perm (seq 0 h)) by apply sort_positions_perm.
  split; [exact Hperm|].
  assert (Hsorted : StronglySorted
            (fun a b => Expr.row_leb (nth a keys []) (nth b keys []) = true) perm).
  { apply (sort_positions_sorted _ (fun i => i < h)).
    - intros i j Hi Hj. unfold keys. rewrite !key_row by lia.
      intro Hf. apply row_leb_key. apply (orderly_total _ _ _ orderly_key).
      destruct (key_compare _ _) eqn:E; try reflexivity;
        exfalso; assert (Ht : Expr.row_leb
          (key_cells (nth i tl None, nth i ds None))
          (key_cells (nth j tl None, nth j ds None)) = true)
          by (apply row_leb_key; rewrite E; discriminate); congruence.
    - intros i j k Hi Hj Hk. unfold keys. rewrite !key_row by lia.
      rewrite !row_leb_key. apply (orderly_le_trans _ _ _ _ orderly_key).
    - apply Forall_forall. intros i Hi. apply in_seq in Hi. lia. }
  intros p q Hpq Hq.
  assert (Hlen : length perm = h)
    by (rewrite (Permutation_length Hperm); apply length_seq).
  assert (Hin : forall r, r < h -> nth r perm 0 < h).
  { intros r Hr.
    assert (In (nth r perm 0) (seq 0 h))
      by (apply (Permutation_in _ Hperm), nth_In; lia).
    apply in_seq in H. lia. }
  pose proof (StronglySorted_nth _ perm 0 Hsorted p q Hpq ltac:(lia)) as Hle.
  cbn beta in Hle. unfold keys in Hle.
  pose proof (Hin p ltac:(lia)) as Hp'. pose proof (Hin q Hq) as Hq'.
  rewrite !key_row in Hle by lia.
  now apply row_leb_key.
Qed.

Lemma nth_gather {A : Type} (idx : list nat) (l : list (option A)) (p : nat) :
  p < length idx -> nth p (pl.gather idx l) None = nth (nth p idx 0) l None.
Proof.
  intro Hp. unfold pl.gather.
  rewrite (nth_indep _ None (nth 0 l None)) by now rewrite length_map.
  apply (map_nth (fun i => nth i l None)).
Qed.

Lemma with_columns_one (df : DataFrame) (n : string) (s : Series) :
  pl.with_columns df [(n, s)] = pl.with_column df n s.
Proof. reflexivity. Qed.

(** What [agg3_tmp] has done when it returns. *)
Lemma agg3_tmp_shape (df tmp : DataFrame) (tl : list (option string)) :
  rectangular df ->
  pl.get_column df "ticker" = Some (SUtf8 tl) ->
  agg3_tmp df = Ok tmp ->
  exists (l0 : list (option string)) (fmt : string) (c0 : Series)
         (close : list (option F64.t)) (perm : list nat),
    pl.get_column df "trade_date" = Some (SUtf8 l0)
    /\ In fmt Expr.inferred_formats
    /\ all_parse fmt l0 = true
    /\ perm = Expr.sort_positions
                (fun i j =>
                   Expr.row_leb
                     (nth i (pl.rows [("ticker", SUtf8 tl);
                                      ("trade_date", SDate (map (parsed_cell fmt) l0))]) [])
                     (nth j (pl.rows [("ticker", SUtf8 tl);
                                      ("trade_date", SDate (map (parsed_cell fmt) l0))]) []))
                (seq 0 (length tl))
    /\ pl.get_column df "close_price" = Some c0
    /\ Expr.f64_values (pl.take_series perm c0) = Ok close
    /\ tmp = pl.with_column
               (pl.take perm
                  (pl.with_column df "trade_date" (SDate (map (parsed_cell fmt) l0))))
               "return"
               (SFloat64 (Expr.over (map (pl.to_cell CStr) (pl.gather perm tl))
                                    return_expr close)).
Proof.
  intros Hrect Htick H. unfold agg3_tmp, pl.col in H.
  destruct (pl.get_column df "trade_date") as [s|] eqn:Es; [|discriminate].
  cbn [bind] in H.
  destruct (Expr.strptime_inferred s) as [d|e] eqn:Ed; [|discriminate].
  cbn [bind] in H.
  apply strptime_inferred_inv in Ed as (l0 & fmt & -> & Hin & Hall & ->).
  unfold Frame.sort in H. cbn [pl.select] in H. unfold pl.col in H.
  rewrite !with_columns_one in H.
  rewrite !get_column_with_column in H.
  change (String.eqb "trade_date" "ticker") with false in H.
  change (String.eqb "trade_date" "trade_date") with true in H.
  cbv iota in H. rewrite Htick in H. cbn [bind] in H.
  assert (Hh : pl.height (pl.with_column df "trade_date"
                            (SDate (map (parsed_cell fmt) l0))) = length tl).
  { rewrite (height_with_column df _ _ (SUtf8 l0) Es)
      by (unfold pl.len; cbn [pl.cells]; now rewrite !length_map).
    rewrite <- (Hrect _ (get_column_In_pair _ _ _ Htick)).
    unfold pl.len. cbn [snd pl.cells]. now rewrite length_map. }
  rewrite Hh in H.
  set (perm := Expr.sort_positions _ (seq 0 (length tl))) in H.
  rewrite !get_column_take, !get_column_with_column in H.
  change (String.eqb "trade_date" "close_price") with false in H.
  change (String.eqb "trade_date" "ticker") with false in H.
  cbv iota in H. rewrite Htick in H.
  destruct (pl.get_column df "close_price") as [c0|] eqn:Ec; [|discriminate].
  cbn [option_map bind] in H.
  destruct (Expr.f64_values (pl.take_series perm c0)) as [close|e] eqn:Ef;
    [|discriminate].
  cbn [bind pl.take_series pl.cells] in H.
  inversion H as [Htmp].
  exists l0, fmt, c0, close, perm. repeat split; auto.
Qed.

(** [agg3_tmp] returns when the three columns are there, the dates are
    text that the inferred layout reads, and the closes are numbers. *)
Lemma agg3_tmp_returns (df : DataFrame) (l0 : list (option string)) (v fmt : string)
    (ticker c : Series) :
  pl.get_column df "trade_date" = Some (SUtf8 l0) ->
  Expr.first_value l0 = Some v ->
  Expr.infer_format Expr.inferred_formats v = Some fmt ->
  all_parse fmt l0 = true ->
  pl.get_column df "ticker" = Some ticker ->
  pl.get_column df "close_price" = Some c ->
  pl.dtype c = Float64 \/ pl.dtype c = Int64 ->
  exists tmp, agg3_tmp df = Ok tmp.
Proof.
  intros Hd Hv Hf Hall Ht Hc Hnum.
  unfold agg3_tmp, pl.col. rewrite Hd. cbn [bind].
  unfold Expr.strptime_inferred. rewrite Hv, Hf. cbn [Expr.strptime].
  rewrite parse_all_spec, Hall. cbn [bind].
  unfold Frame.sort. cbn [pl.select]. unfold pl.col.
  rewrite !with_columns_one, !get_column_with_column.
  change (String.eqb "trade_date" "ticker") with false.
  change (String.eqb "trade_date" "trade_date") with true.
  cbv iota. rewrite Ht. cbn [bind].
  rewrite !get_column_take, !get_column_with_column.
  change (String.eqb "trade_date" "close_price") with false.
  change (String.eqb "trade_date" "ticker") with false.
  cbv iota. rewrite Hc, Ht. cbn [option_map bind].
  destruct c as [l|l|l|l|l]; cbn [pl.dtype] in Hnum;
    try (destruct Hnum; discriminate);
    cbn [pl.take_series Expr.f64_values bind]; eexists; reflexivity.
Qed.

(** *** The words of the specification and the functions of the engine *)

Lemma string_compare_text_le (x : string) :
  forall y : string, String.compare x y <> Gt -> text_le x y.
Proof.
  induction x as [|a x IH]; intros [|b y] H; cbn [String.compare] in H.
  - constructor.
  - constructor.
  - now elim H.
  - destruct (Ascii.compare a b) eqn:E.
    + apply Ascii.compare_eq_iff in E. subst b. apply text_le_next. now apply IH.
    + apply text_le_less. unfold Ascii.compare in E. unfold Chars.code.
      now apply N.compare_lt_iff in E.
    + now elim H.
Qed.

Lemma opt_compare_ticker_le (a b : option string) :
  opt_compare String.compare a b <> Gt -> ticker_le a b.
Proof.
  destruct a as [x|], b as [y|]; cbn [opt_compare ticker_le]; intro H;
    [now apply string_compare_text_le | now elim H | exact I | exact I].
Qed.

Lemma opt_compare_date_le (d e : option date) :
  opt_compare Dates.compare d e <> Gt -> date_le d e.
Proof.
  destruct d as [x|], e as [y|]; cbn [opt_compare date_le]; intro H;
    [| now elim H | exact I | exact I].
  unfold Dates.compare in H.
  destruct (Z.compare_spec (year x) (year y)) as [Hy|Hy|Hy];
    [| left; exact Hy | now elim H].
  right. split; [exact Hy|].
  destruct (Z.compare_spec (month x) (month y)) as [Hm|Hm|Hm];
    [| left; exact Hm | now elim H].
  right. split; [exact Hm | exact H].
Qed.

Lemma key_compare_le (a b : option string) (d e : option date) :
  key_compare (a, d) (b, e) <> Gt ->
  ticker_le a b /\ (a = b -> date_le d e).
Proof.
  unfold key_compare, lex_compare. cbn [fst snd].
  destruct (opt_compare String.compare a b) eqn:E; intro H.
  - split; [apply opt_compare_ticker_le; rewrite E; discriminate|].
    intros _. now apply opt_compare_date_le.
  - split; [apply opt_compare_ticker_le; rewrite E; discriminate|].
    intro Heq. subst b.
    rewrite (orderly_refl _ _ (orderly_opt _ orderly_string)) in E. discriminate.
  - now elim H.
Qed.

(** Tickers between two equal tickers of a table in order are that
    ticker. *)
Lemma key_compare_between (a b c : option string) :
  opt_compare String.compare a b <> Gt ->
  opt_compare String.compare b c <> Gt ->
  a = c -> b = c.
Proof.
  intros Hab Hbc Heq. subst c.
  pose proof (orderly_opt _ orderly_string) as Ho.
  apply (orderly_eq _ Ho).
  rewrite (orderly_antisym _ Ho) in Hbc.
  destruct (opt_compare String.compare a b) eqn:E.
  - apply (orderly_eq _ Ho) in E. subst b. apply (orderly_refl _ _ Ho).
  - now elim Hbc.
  - now elim Hab.
Qed.

Lemma cell_eqb_text (a b : option string) :
  pl.cell_eqb (pl.to_cell CStr a) (pl.to_cell CStr b) = true <-> a = b.
Proof.
  destruct a as [x|], b as [y|]; cbn [pl.to_cell pl.cell_eqb];
    try (split; [discriminate | intro H; discriminate]); [|tauto].
  rewrite String.eqb_eq. split; intro H; [now subst | now inversion H].
Qed.

Lemma return_on_lift (c p : option F64.t) :
  Expr.lift2 F64.sub (Expr.lift2 F64.div c p) (Some F64.one) = return_on c p.
Proof. now destruct c, p. Qed.

(** *** The place of a row in its group *)

Lemma filter_seq_split (p : nat -> bool) (i n : nat) :
  i < n ->
  List.filter p (seq 0 n)
  = List.filter p (seq 0 i)
      ++ (if p i then [i] else []) ++ List.filter p (seq (S i) (n - S i)).
Proof.
  intro Hi. replace n with (i + S (n - S i)) at 1 by lia.
  rewrite seq_app, filter_app. cbn [Nat.add seq List.filter].
  now destruct (p i).
Qed.

Lemma filter_seq_none (p : nat -> bool) (a n : nat) :
  (forall k, a <= k -> k < a + n -> p k = false) -> List.filter p (seq a n) = [].
Proof.
  revert a; induction n as [|n IH]; intros a H; [reflexivity|].
  cbn [seq List.filter]. rewrite (H a) by lia.
  apply IH. intros k H1 H2. apply H; lia.
Qed.

Lemma filter_seq_In (p : nat -> bool) (a n x : nat) :
  In x (List.filter p (seq a n)) -> a <= x /\ x < a + n /\ p x = true.
Proof. intro H. apply filter_In in H as [H1 H2]. apply in_seq in H1. tauto. Qed.

Lemma index_of_app (i : nat) (a b : list nat) :
  ~ In i a -> Expr.index_of i (a ++ i :: b) = length a.
Proof.
  induction a as [|x a IH]; intro H; cbn [app Expr.index_of length].
  - now rewrite Nat.eqb_refl.
  - destruct (Nat.eqb i x) eqn:E.
    + apply Nat.eqb_eq in E. subst x. elim H. now left.
    + f_equal. apply IH. intro Hin. apply H. now right.
Qed.

(** The place of the row [i] among the rows that [p] keeps is the
    number of rows before it that [p] keeps. *)
Lemma index_of_filter (p : nat -> bool) (i n : nat) :
  i < n -> p i = true ->
  Expr.index_of i (List.filter p (seq 0 n)) = length (List.filter p (seq 0 i))
  /\ nth (length (List.filter p (seq 0 i))) (List.filter p (seq 0 n)) 0 = i
  /\ length (List.filter p (seq 0 i)) < length (List.filter p (seq 0 n)).
Proof.
  intros Hi Hp. rewrite (filter_seq_split p i n Hi), Hp. cbn [app].
  split; [|split].
  - apply index_of_app. intro H. apply filter_seq_In in H. lia.
  - apply nth_middle.
  - rewrite length_app. cbn [length]. lia.
Qed.

Lemma filter_seq_previous (p : nat -> bool) (j i : nat) :
  j < i -> p j = true ->
  (forall k, j < k -> k < i -> p k = false) ->
  List.filter p (seq 0 i) = List.filter p (seq 0 j) ++ [j].
Proof.
  intros Hj Hp Hno. rewrite (filter_seq_split p j i Hj), Hp.
  rewrite (filter_seq_none p (S j) (i - S j)); [reflexivity|].
  intros k H1 H2. apply Hno; lia.
Qed.

Lemma nth_over {A B : Type} (keys : list cell)
    (f : list (option A) -> list (option B)) (xs : list (option A)) (i : nat) :
  i < length keys ->
  nth i (Expr.over keys f xs) None
  = nth (Expr.index_of i (Expr.group_positions keys (nth i keys CNull)))
        (f (pl.gather (Expr.group_positions keys (nth i keys CNull)) xs)) None.
Proof.
  intro Hi. unfold Expr.over.
  set (F := fun i : nat =>
              nth (Expr.index_of i (Expr.group_positions keys (nth i keys CNull)))
                  (f (pl.gather (Expr.group_positions keys (nth i keys CNull)) xs)) None).
  change (nth i (map F (seq 0 (length keys))) None = F i).
  rewrite (nth_indep _ None (F 0)) by now rewrite length_map, length_seq.
  rewrite (map_nth F). now rewrite seq_nth.
Qed.

(** The return that the window gives to the first row of a key. *)
Lemma over_return_first (keys : list cell) (close : list (option F64.t)) (i : nat) :
  i < length keys ->
  (forall j, j < i -> pl.cell_eqb (nth j keys CNull) (nth i keys CNull) = false) ->
  nth i (Expr.over keys return_expr close) None = None.
Proof.
  intros Hi Hfirst. rewrite nth_over by exact Hi.
  unfold Expr.group_positions.
  set (p := fun j : nat => pl.cell_eqb (nth j keys CNull) (nth i keys CNull)).
  assert (Hp : p i = true)
    by (unfold p; apply cell_eqb_canonical; reflexivity).
  destruct (index_of_filter p i (length keys) Hi Hp) as (-> & _ & _).
  rewrite (filter_seq_none p 0 i) by (intros k _ Hk; apply Hfirst; lia).
  cbn [length]. now rewrite nth_return_expr.
Qed.

(** The return that the window gives to a row that has a row of its
    key before it. *)
Lemma over_return_previous (keys : list cell) (close : list (option F64.t))
    (j i : nat) :
  i < length keys -> j < i ->
  pl.cell_eqb (nth j keys CNull) (nth i keys CNull) = true ->
  (forall k, j < k -> k < i ->
             pl.cell_eqb (nth k keys CNull) (nth i keys CNull) = false) ->
  nth i (Expr.over keys return_expr close) None
  = return_on (nth i close None) (nth j close None).
Proof.
  intros Hi Hj Hsame Hno. rewrite nth_over by exact Hi.
  unfold Expr.group_positions.
  set (p := fun j : nat => pl.cell_eqb (nth j keys CNull) (nth i keys CNull)).
  set (g := List.filter p (seq 0 (length keys))).
  assert (Hp : p i = true)
    by (unfold p; apply cell_eqb_canonical; reflexivity).
  destruct (index_of_filter p i (length keys) Hi Hp) as (Hidx & Hnth & Hlt).
  destruct (index_of_filter p j (length keys) ltac:(lia) Hsame) as (_ & Hnthj & Hltj).
  fold g in Hidx, Hnth, Hlt, Hnthj, Hltj.
  rewrite (filter_seq_previous p j i Hj Hsame Hno) in Hidx, Hnth, Hlt.
  rewrite length_app in Hidx, Hnth, Hlt. cbn [length] in Hidx, Hnth, Hlt.
  rewrite Nat.add_1_r in Hidx, Hnth, Hlt.
  rewrite Hidx, nth_return_expr, return_on_lift.
  rewrite !nth_gather by lia. now rewrite Hnth, Hnthj.
Qed.

Lemma gather_map {A B : Type} (f : option A -> option B) (idx : list nat)
    (l : list (option A)) :
  f None = None -> pl.gather idx (map f l) = map f (pl.gather idx l).
Proof.
  intro Hf. unfold pl.gather. rewrite map_map. apply map_ext. intro i.
  rewrite <- Hf at 1. apply map_nth.
Qed.

Lemma f64_values_take (idx : list nat) (c : Series) (close : list (option F64.t)) :
  Expr.f64_values c = Ok close ->
  Expr.f64_values (pl.take_series idx c) = Ok (pl.gather idx close).
Proof.
  destruct c as [l|l|l|l|l]; cbn [Expr.f64_values pl.take_series]; try discriminate;
    intro H; inversion H.
  - now rewrite gather_map.
  - reflexivity.
Qed.

Lemma length_gather {A : Type} (idx : list nat) (l : list (option A)) :
  length (pl.gather idx l) = length idx.
Proof. unfold pl.gather. apply length_map. Qed.

Lemma length_over {A B : Type} (keys : list cell)
    (f : list (option A) -> list (option B)) (xs : list (option A)) :
  length (Expr.over keys f xs) = length keys.
Proof. unfold Expr.over. now rewrite length_map, length_seq. Qed.

(** The returns that the window over the ticker gives are the returns
    of the rows, as the specification words them. *)
Lemma over_returns_of (ticker : list (option string)) (close : list (option F64.t)) :
  returns_of ticker close
    (Expr.over (map (pl.to_cell CStr) ticker) return_expr close).
Proof.
  assert (Hk : forall k, nth k (map (pl.to_cell CStr) ticker) CNull
                         = pl.to_cell CStr (nth k ticker None))
    by (intro k; apply nth_map_to_cell).
  assert (Hne : forall a b : option string,
             a <> b -> pl.cell_eqb (pl.to_cell CStr a) (pl.to_cell CStr b) = false).
  { intros a b H.
    destruct (pl.cell_eqb (pl.to_cell CStr a) (pl.to_cell CStr b)) eqn:E;
      [|reflexivity].
    apply cell_eqb_text in E. contradiction. }
  split; [now rewrite length_over, length_map|].
  intros i Hi. split.
  - intro Hfirst. apply over_return_first; [now rewrite length_map|].
    intros j Hj. rewrite !Hk. apply Hne. now apply Hfirst.
  - intros j (Hj & Hsame & Hno).
    apply over_return_previous; [now rewrite length_map | exact Hj | |].
    + rewrite !Hk. now apply cell_eqb_text.
    + intros k H1 H2. rewrite !Hk. apply Hne. now apply Hno.
Qed.

(** The rows that [drop_nulls] keeps of the three columns of
    Aggregate 3. *)
Lemma rows_three_columns (dates : list (option date)) (ticker : list (option string))
    (returns : list (option F64.t)) :
  length dates = length ticker ->
  pl.rows (pl.drop_nulls [ ("trade_date", SDate dates);
                           ("ticker", SUtf8 ticker);
                           ("return", SFloat64 returns) ])
  = return_rows dates ticker returns.
Proof.
  intro Hlen. rewrite rows_drop_nulls. unfold pl.rows, return_rows.
  assert (Hh : pl.height [ ("trade_date", SDate dates); ("ticker", SUtf8 ticker);
                           ("return", SFloat64 returns) ] = length ticker).
  { cbn [pl.height]. unfold pl.len. cbn [pl.cells]. now rewrite length_map. }
  rewrite Hh.
  assert (Hrow : forall i,
             pl.row [ ("trade_date", SDate dates); ("ticker", SUtf8 ticker);
                      ("return", SFloat64 returns) ] i
             = [ pl.to_cell CDate (nth i dates None);
                 pl.to_cell CStr (nth i ticker None);
                 pl.to_cell CFloat (nth i returns None) ]).
  { intro i. unfold pl.row. cbn [map snd]. unfold pl.cell_at. cbn [pl.cells].
    now rewrite !nth_map_to_cell. }
  induction (seq 0 (length ticker)) as [|i r IH]; [reflexivity|].
  cbn [map List.filter flat_map]. rewrite IH, Hrow.
  destruct (nth i dates None), (nth i ticker None), (nth i returns None);
    reflexivity.
Qed.

Lemma key_compare_fst (a b : option string) (d e : option date) :
  key_compare (a, d) (b, e) <> Gt -> opt_compare String.compare a b <> Gt.
Proof.
  unfold key_compare, lex_compare. cbn [fst snd].
  destruct (opt_compare String.compare a b); [discriminate | discriminate |].
  intro H. now elim H.
Qed.

(** The rows of [tmp] are the rows of the table in the order of ticker
    then date, their returns are those of the specification, and
    Aggregate 3 is the rows of [tmp] in which nothing is missing. *)
Lemma agg3_tmp_rows :
  (forall (df tmp : DataFrame) (tl l0 : list (option string)) (c0 : Series)
          (close0 : list (option F64.t)),
      rectangular df ->
      pl.get_column df "ticker" = Some (SUtf8 tl) ->
      pl.get_column df "trade_date" = Some (SUtf8 l0) ->
      pl.get_column df "close_price" = Some c0 ->
      Expr.f64_values c0 = Ok close0 ->
      agg3_tmp df = Ok tmp ->
      exists (fmt : string) (perm : list nat) (c : Series)
             (returns : list (option F64.t)) (a3 : DataFrame),
        In fmt Expr.inferred_formats
        /\ all_parse fmt l0 = true
        /\ Permutation perm (seq 0 (length tl))
        /\ pl.get_column tmp "ticker" = Some (SUtf8 (pl.gather perm tl))
        /\ pl.get_column tmp "trade_date"
           = Some (SDate (pl.gather perm (map (parsed_cell fmt) l0)))
        /\ pl.get_column tmp "close_price" = Some c
        /\ Expr.f64_values c = Ok (pl.gather perm close0)
        /\ pl.get_column tmp "return" = Some (SFloat64 returns)
        /\ in_order (pl.gather perm tl) (pl.gather perm (map (parsed_cell fmt) l0))
        /\ returns_of (pl.gather perm tl) (pl.gather perm close0) returns
        /\ (forall i : nat,
               i < length tl ->
               (forall j : nat, S j = i ->
                  nth j (pl.gather perm tl) None <> nth i (pl.gather perm tl) None) ->
               nth i returns None = None)
        /\ (forall i : nat,
               S i < length tl ->
               nth i (pl.gather perm tl) None = nth (S i) (pl.gather perm tl) None ->
               nth (S i) returns None
               = return_on (nth (S i) (pl.gather perm close0) None)
                           (nth i (pl.gather perm close0) None))
        /\ agg3 df = Ok a3
        /\ pl.columns a3 = ["trade_date"; "ticker"; "return"]
        /\ pl.rows a3
           = return_rows (pl.gather perm (map (parsed_cell fmt) l0))
                         (pl.gather perm tl) returns).
Proof.
  intros df tmp tl l0 c0 close0 Hrect Htick Hdate0 Hclose0 Hvals Htmp.
  destruct (agg3_tmp_shape df tmp tl Hrect Htick Htmp)
    as (l0' & fmt & c0' & close & perm & Hdate & Hin & Hall & Hperm & Hc0 & Hclose & ->).
  rewrite Hdate0 in Hdate. inversion Hdate. subst l0'. clear Hdate.
  rewrite Hclose0 in Hc0. inversion Hc0. subst c0'. clear Hc0.
  rewrite (f64_values_take perm c0 close0 Hvals) in Hclose.
  inversion Hclose. subst close. clear Hclose.
  set (ds := map (parsed_cell fmt) l0) in *.
  destruct (sort_keys_sorted tl ds (length tl) (le_n _)) as [Hp Hsorted].
  cbv zeta in Hp, Hsorted. rewrite <- Hperm in Hp, Hsorted.
  assert (Hlen : length perm = length tl)
    by (rewrite (Permutation_length Hp); apply length_seq).
  set (ticker := pl.gather perm tl) in *.
  set (returns := Expr.over (map (pl.to_cell CStr) ticker) return_expr
                    (pl.gather perm close0)) in *.
  set (sorted := pl.take perm (pl.with_column df "trade_date" (SDate ds))) in *.
  assert (Hgt : pl.get_column (pl.with_column sorted "return" (SFloat64 returns)) "ticker"
                = Some (SUtf8 ticker)).
  { unfold sorted.
    rewrite get_column_with_column, get_column_take, get_column_with_column.
    change (String.eqb "return" "ticker") with false.
    change (String.eqb "trade_date" "ticker") with false.
    cbv iota. now rewrite Htick. }
  assert (Hgd : pl.get_column (pl.with_column sorted "return" (SFloat64 returns))
                  "trade_date"
                = Some (SDate (pl.gather perm ds))).
  { unfold sorted.
    rewrite get_column_with_column, get_column_take, get_column_with_column.
    change (String.eqb "return" "trade_date") with false.
    change (String.eqb "trade_date" "trade_date") with true.
    reflexivity. }
  assert (Hgc : pl.get_column (pl.with_column sorted "return" (SFloat64 returns))
                  "close_price"
                = Some (pl.take_series perm c0)).
  { unfold sorted.
    rewrite get_column_with_column, get_column_take, get_column_with_column.
    change (String.eqb "return" "close_price") with false.
    change (String.eqb "trade_date" "close_price") with false.
    cbv iota. now rewrite Hclose0. }
  assert (Hgr : pl.get_column (pl.with_column sorted "return" (SFloat64 returns))
                  "return"
                = Some (SFloat64 returns)).
  { rewrite get_column_with_column. now rewrite String.eqb_refl. }
  assert (Hlt : length ticker = length tl)
    by (unfold ticker; now rewrite length_gather).
  assert (Hkey : forall p q, p < q -> q < length tl ->
            key_compare (nth p ticker None, nth p (pl.gather perm ds) None)
                        (nth q ticker None, nth q (pl.gather perm ds) None) <> Gt).
  { intros p q Hpq Hq. unfold ticker. rewrite !nth_gather by lia.
    now apply Hsorted. }
  assert (Hret : returns_of ticker (pl.gather perm close0) returns)
    by apply over_returns_of.
  exists fmt, perm, (pl.take_series perm c0), returns,
    (pl.drop_nulls [ ("trade_date", SDate (pl.gather perm ds));
                     ("ticker", SUtf8 ticker);
                     ("return", SFloat64 returns) ]).
  split; [exact Hin|]. split; [exact Hall|]. split; [exact Hp|].
  split; [exact Hgt|]. split; [exact Hgd|]. split; [exact Hgc|].
  split; [now apply f64_values_take|]. split; [exact Hgr|].
  split.
  { intros p q Hpq Hq. change (q < length ticker) in Hq. rewrite Hlt in Hq.
    apply key_compare_le. now apply Hkey. }
  split; [exact Hret|].
  split.
  { intros i Hi Hprev. apply (proj2 Hret i); [now rewrite Hlt|].
    intros j Hj Heq.
    destruct i as [|m]; [lia|].
    destruct (Nat.eq_dec j m) as [->|Hne]; [now apply (Hprev m)|].
    apply (Hprev m eq_refl).
    apply (key_compare_between (nth j ticker None)).
    - apply (key_compare_fst _ _ _ _ (Hkey j m ltac:(lia) ltac:(lia))).
    - apply (key_compare_fst _ _ _ _ (Hkey m (S m) ltac:(lia) Hi)).
    - exact Heq. }
  split.
  { intros i Hi Heq. apply (proj2 Hret (S i)); [now rewrite Hlt|].
    split; [lia|]. split; [exact Heq|]. intros k H1 H2. lia. }
  split.
  { unfold agg3. rewrite Htmp. cbn [bind pl.select]. unfold pl.col.
    rewrite Hgd, Hgt, Hgr. reflexivity. }
  split; [reflexivity|].
  apply rows_three_columns. unfold ticker. now rewrite !length_gather.
Qed.

(** C8.  The frame [tmp] of Aggregate 3 is built whenever the three
    columns are there, the dates are text in the layout inferred from
    the first of them, and the closes are numbers.  When it is built from
    a rectangular table whose ticker is text, its rows are the rows of
    the table, each once, in the order of the tickers (by code point,
    nulls first) and, for one ticker, of the dates (ascending, nulls
    first); a row that is the first of its ticker has no return, and any
    other row has the return [close[i] / close[j] - 1] on the row [j] of
    its ticker just before it, which in that order is the row [i - 1];
    Aggregate 3 is the columns trade_date, ticker and return of [tmp] less
    the rows that hold a null, so less the first row of every ticker and
    every row without a return.  The same is said with the functions of
    the engine: the rows are in the order of the comparison of the sort,
    and the returns of a ticker are the expression
    [close / close.shift(1) - 1] on the closes of its rows.  On the two
    rows (AAPL, 2023-01-01, 100) and (AAPL, 2023-01-02, 110) it is the
    one row of 2023-01-02, whose return is within 1e-9 of 0.1. *)
Theorem C8_daily_returns :
  (forall (df : DataFrame) (l0 : list (option string)) (v fmt : string)
          (ticker c : Series),
      pl.get_column df "trade_date" = Some (SUtf8 l0) ->
      Expr.first_value l0 = Some v ->
      Expr.infer_format Expr.inferred_formats v = Some fmt ->
      all_parse fmt l0 = true ->
      pl.get_column df "ticker" = Some ticker ->
      pl.get_column df "close_price" = Some c ->
      pl.dtype c = Float64 \/ pl.dtype c = Int64 ->
      exists tmp, agg3_tmp df = Ok tmp)
  /\ (forall (df tmp : DataFrame) (tl l0 : list (option string)) (c0 : Series)
          (close0 : list (option F64.t)),
      rectangular df ->
      pl.get_column df "ticker" = Some (SUtf8 tl) ->
      pl.get_column df "trade_date" = Some (SUtf8 l0) ->
      pl.get_column df "close_price" = Some c0 ->
      Expr.f64_values c0 = Ok close0 ->
      agg3_tmp df = Ok tmp ->
      exists (fmt : string) (perm : list nat) (c : Series)
             (returns : list (option F64.t)) (a3 : DataFrame),
        In fmt Expr.inferred_formats
        /\ all_parse fmt l0 = true
        /\ Permutation perm (seq 0 (length tl))
        /\ pl.get_column tmp "ticker" = Some (SUtf8 (pl.gather perm tl))
        /\ pl.get_column tmp "trade_date"
           = Some (SDate (pl.gather perm (map (parsed_cell fmt) l0)))
        /\ pl.get_column tmp "close_price" = Some c
        /\ Expr.f64_values c = Ok (pl.gather perm close0)
        /\ pl.get_column tmp "return" = Some (SFloat64 returns)
        /\ in_order (pl.gather perm tl) (pl.gather perm (map (parsed_cell fmt) l0))
        /\ returns_of (pl.gather perm tl) (pl.gather perm close0) returns
        /\ (forall i : nat,
               i < length tl ->
               (forall j : nat, S j = i ->
                  nth j (pl.gather perm tl) None <> nth i (pl.gather perm tl) None) ->
               nth i returns None = None)
        /\ (forall i : nat,
               S i < length tl ->
               nth i (pl.gather perm tl) None = nth (S i) (pl.gather perm tl) None ->
               nth (S i) returns None
               = return_on (nth (S i) (pl.gather perm close0) None)
                           (nth i (pl.gather perm close0) None))
        /\ agg3 df = Ok a3
        /\ pl.columns a3 = ["trade_date"; "ticker"; "return"]
        /\ pl.rows a3
           = return_rows (pl.gather perm (map (parsed_cell fmt) l0))
                         (pl.gather perm tl) returns)
  /\ (forall (df tmp : DataFrame) (tl : list (option string)),
      rectangular df ->
      pl.get_column df "ticker" = Some (SUtf8 tl) ->
      agg3_tmp df = Ok tmp ->
      exists (ticker : list (option string)) (dates : list (option date))
             (c : Series) (close returns : list (option F64.t)),
        pl.get_column tmp "ticker" = Some (SUtf8 ticker)
        /\ pl.get_column tmp "trade_date" = Some (SDate dates)
        /\ pl.get_column tmp "close_price" = Some c
        /\ Expr.f64_values c = Ok close
        /\ pl.get_column tmp "return" = Some (SFloat64 returns)
        /\ length ticker = length tl
        /\ (forall p q, p < q -> q < length ticker ->
              not_after (pl.to_cell CStr (nth p ticker None))
                        (pl.to_cell CStr (nth q ticker None))
              /\ (nth p ticker None = nth q ticker None ->
                  not_after (pl.to_cell CDate (nth p dates None))
                            (pl.to_cell CDate (nth q dates None))))
        /\ (forall k : option string,
              pl.gather (Expr.group_positions (map (pl.to_cell CStr) ticker)
                                              (pl.to_cell CStr k)) returns
              = return_expr
                  (pl.gather (Expr.group_positions (map (pl.to_cell CStr) ticker)
                                                   (pl.to_cell CStr k)) close))
        /\ agg3 df
           = Ok (pl.drop_nulls [ ("trade_date", SDate dates);
                                 ("ticker", SUtf8 ticker);
                                 ("return", SFloat64 returns) ]))
  /\ (forall (close : list (option F64.t)) (i : nat),
        nth i (return_expr close) None =
        match i with
        | O => None
        | S j =>
            Expr.lift2 F64.sub
              (Expr.lift2 F64.div (nth i close None) (nth j close None))
              (Some F64.one)
        end)
  /\ (forall t : DataFrame,
        pl.rows (pl.drop_nulls t)
        = List.filter (forallb (fun c => negb (pl.is_null c))) (pl.rows t))
  /\ agg3 Samples.two_closes
     = Ok [ ("trade_date", SDate [Some (mkDate 2023 1 2)]);
            ("ticker", SUtf8 [Some "AAPL"]);
            ("return", SFloat64 [Some (S754_finite false 7205759403792800 (-56))]) ]
  /\ F64.ltb
       (F64.abs (F64.sub (S754_finite false 7205759403792800 (-56))
                         (F64.of_decimal false 1 (-1))))
       (F64.of_decimal false 1 (-9)) = true.
Proof.
  split; [exact agg3_tmp_returns|].
  split; [exact agg3_tmp_rows|].
  split; [|split; [apply nth_return_expr
                  |split; [apply rows_drop_nulls | split; reflexivity]]].
  intros df tmp tl Hrect Htick Htmp.
  destruct (agg3_tmp_shape df tmp tl Hrect Htick Htmp)
    as (l0 & fmt & c0 & close & perm & Hdate & _ & _ & Hperm & Hc0 & Hclose & ->).
  set (ds := map (parsed_cell fmt) l0) in *.
  destruct (sort_keys_sorted tl ds (length tl) (le_n _)) as [Hp Hsorted].
  cbv zeta in Hp, Hsorted. rewrite <- Hperm in Hp, Hsorted.
  assert (Hlen : length perm = length tl)
    by (rewrite (Permutation_length Hp); apply length_seq).
  assert (Hgt : pl.get_column
                  (pl.with_column (pl.take perm (pl.with_column df "trade_date" (SDate ds)))
                     "return"
                     (SFloat64 (Expr.over (map (pl.to_cell CStr) (pl.gather perm tl))
                                  return_expr close))) "ticker"
                = Some (SUtf8 (pl.gather perm tl))).
  { rewrite get_column_with_column, get_column_take, get_column_with_column.
    change (String.eqb "return" "ticker") with false.
    change (String.eqb "trade_date" "ticker") with false.
    cbv iota. now rewrite Htick. }
  assert (Hgd : pl.get_column
                  (pl.with_column (pl.take perm (pl.with_column df "trade_date" (SDate ds)))
                     "return"
                     (SFloat64 (Expr.over (map (pl.to_cell CStr) (pl.gather perm tl))
                                  return_expr close))) "trade_date"
                = Some (SDate (pl.gather perm ds))).
  { rewrite get_column_with_column, get_column_take, get_column_with_column.
    change (String.eqb "return" "trade_date") with false.
    change (String.eqb "trade_date" "trade_date") with true.
    reflexivity. }
  assert (Hgc : pl.get_column
                  (pl.with_column (pl.take perm (pl.with_column df "trade_date" (SDate ds)))
                     "return"
                     (SFloat64 (Expr.over (map (pl.to_cell CStr) (pl.gather perm tl))
                                  return_expr close))) "close_price"
                = Some (pl.take_series perm c0)).
  { rewrite get_column_with_column, get_column_take, get_column_with_column.
    change (String.eqb "return" "close_price") with false.
    change (String.eqb "trade_date" "close_price") with false.
    cbv iota. now rewrite Hc0. }
  assert (Hgr : pl.get_column
                  (pl.with_column (pl.take perm (pl.with_column df "trade_date" (SDate ds)))
                     "return"
                     (SFloat64 (Expr.over (map (pl.to_cell CStr) (pl.gather perm tl))
                                  return_expr close))) "return"
                = Some (SFloat64 (Expr.over (map (pl.to_cell CStr) (pl.gather perm tl))
                                    return_expr close))).
  { rewrite get_column_with_column. now rewrite String.eqb_refl. }
  exists (pl.gather perm tl), (pl.gather perm ds), (pl.take_series perm c0), close,
    (Expr.over (map (pl.to_cell CStr) (pl.gather perm tl)) return_expr close).
  split; [exact Hgt|]. split; [exact Hgd|]. split; [exact Hgc|].
  split; [exact Hclose|]. split; [exact Hgr|].
  assert (Hlg : length (pl.gather perm tl) = length tl)
    by (unfold pl.gather; now rewrite length_map).
  split; [exact Hlg|]. split; [|split].
  - intros p q Hpq Hq. rewrite Hlg in Hq.
    rewrite !nth_gather by lia.
    pose proof (Hsorted p q Hpq Hq) as Hle.
    unfold key_compare, lex_compare in Hle. cbn [fst snd] in Hle.
    unfold not_after. rewrite cell_compare_text, cell_compare_date.
    destruct (opt_compare String.compare (nth (nth p perm 0) tl None)
                                         (nth (nth q perm 0) tl None)) eqn:E.
    + split; [discriminate | intros _; exact Hle].
    + split; [discriminate|]. intro Heq. rewrite Heq in E.
      rewrite (orderly_refl _ _ (orderly_opt _ orderly_string)) in E. discriminate.
    + now elim Hle.
  - intro k. apply over_group. apply length_return_expr.
  - unfold agg3. rewrite Htmp. cbn [bind pl.select]. unfold pl.col.
    rewrite Hgd, Hgt, Hgr. reflexivity.
Qed.

Lemma C8_daily_returns_witness :
  rectangular Samples.two_tickers
  /\ agg3 Samples.two_tickers
     = Ok [ ("trade_date", SDate [Some (mkDate 2023 1 2); Some (mkDate 2023 1 2)]);
            ("ticker", SUtf8 [Some "AAPL"; Some "MSFT"]);
            ("return",
             SFloat64 [Some (S754_finite false 7205759403792800 (-56));
                       Some (S754_finite false 7205759403792800 (-57))]) ]
  /\ exists (perm : list nat) (returns : list (option F64.t)),
       Permutation perm (seq 0 4)
       /\ pl.gather perm [Some "MSFT"; Some "AAPL"; Some "MSFT"; Some "AAPL"]
          = [Some "AAPL"; Some "AAPL"; Some "MSFT"; Some "MSFT"]
       /\ returns = [None; Some (S754_finite false 7205759403792800 (-56));
                     None; Some (S754_finite false 7205759403792800 (-57))]
       /\ returns_of [Some "AAPL"; Some "AAPL"; Some "MSFT"; Some "MSFT"]
            (pl.gather perm [Some (F64.of_Z 210); Some (F64.of_Z 110);
                             Some (F64.of_Z 200); Some (F64.of_Z 100)])
            returns.
Proof.
  assert (Hrect : rectangular Samples.two_tickers).
  { intros c [<- | [<- | [<- | []]]]; reflexivity. }
  split; [exact Hrect|]. split; [reflexivity|].
  destruct (proj1 (proj2 C8_daily_returns) Samples.two_tickers
              [ ("ticker", SUtf8 [Some "AAPL"; Some "AAPL"; Some "MSFT"; Some "MSFT"]);
                ("trade_date",
                 SDate [Some (mkDate 2023 1 1); Some (mkDate 2023 1 2);
                        Some (mkDate 2023 1 1); Some (mkDate 2023 1 2)]);
                ("close_price",
                 SFloat64 [Some (F64.of_Z 100); Some (F64.of_Z 110);
                           Some (F64.of_Z 200); Some (F64.of_Z 210)]);
                ("return",
                 SFloat64 [None; Some (S754_finite false 7205759403792800 (-56));
                           None; Some (S754_finite false 7205759403792800 (-57))]) ]
              _ _ _ _ Hrect eq_refl eq_refl eq_refl eq_refl eq_refl)
    as (fmt & perm & c & returns & a3 & _ & _ & Hp & Ht & _ & _ & _ & Hr & _ & Hret & _).
  exists perm, returns.
  cbn [pl.get_column String.eqb Ascii.eqb Bool.eqb] in Ht, Hr.
  injection Ht as Ht'. injection Hr as Hr'.
  split; [exact Hp|]. split; [symmetry; exact Ht'|]. split; [symmetry; exact Hr'|].
  rewrite Ht'. exact Hret.
Defined.

(* ================================================================== *)
(** * Further properties of the stages *)
(* ================================================================== *)

(** ** The header normalizer, run twice *)

Lemma settled_lower (c : ascii) :
  Chars.py_word c = true -> settled (Chars.lower c) = true.
Proof. each_char c. Qed.

Lemma settled_not_space (c : ascii) : settled c = true -> Chars.py_isspace c = false.
Proof. each_char c. Qed.

Lemma sub_nonword_runs_settled (b : bool) (s : string) :
  Str.forallb settled (Py.sub_nonword_runs b (Str.map Chars.lower s)) = true.
Proof.
  revert b; induction s as [|c r IH]; intro b; [reflexivity|].
  cbn [Str.map Py.sub_nonword_runs]. rewrite lower_word.
  destruct (Chars.py_word c) eqn:Hw.
  - cbn [Str.forallb]. now rewrite (settled_lower c Hw), IH.
  - destruct b; [apply IH|]. cbn [Str.forallb]. now rewrite IH.
Qed.

Lemma forallb_head (p : ascii -> bool) (s : string) (c : ascii) :
  Str.forallb p s = true -> Str.head s = Some c -> p c = true.
Proof.
  destruct s as [|x r]; [discriminate|].
  cbn. intros H Hc. inversion Hc; subst. now apply andb_prop in H.
Qed.

Lemma forallb_last (p : ascii -> bool) (s : string) (c : ascii) :
  Str.forallb p s = true -> Str.last s = Some c -> p c = true.
Proof.
  induction s as [|x r IH]; [discriminate|].
  cbn [Str.forallb]. intros H Hc. apply andb_prop in H as [Hx Hr].
  rewrite last_cons in Hc. destruct (Str.last r) as [y|] eqn:E.
  - inversion Hc; subst. now apply IH.
  - inversion Hc; subst. exact Hx.
Qed.

Lemma settled_fixed (s : string) :
  Str.forallb settled s = true -> normalize_header s = s.
Proof.
  intro H. unfold normalize_header, Py.strip.
  rewrite strip_class_fixed.
  2:{ split; intros c Hc; apply settled_not_space;
      [eapply forallb_head | eapply forallb_last]; eassumption. }
  unfold Py.lower, Py.re_sub_nonword.
  induction s as [|c r IH]; [reflexivity|].
  cbn [Str.forallb] in H. apply andb_prop in H as [Hc Hr].
  unfold settled in Hc. apply andb_prop in Hc as [Hw Hl].
  apply Ascii.eqb_eq in Hl.
  cbn [Str.map Py.sub_nonword_runs]. rewrite Hl, Hw. f_equal. now apply IH.
Qed.

(** X1.  Stage 2 is idempotent on names: the header of a header is
    that header, for every name. *)
Theorem normalize_header_idempotent (col : string) :
  normalize_header (normalize_header col) = normalize_header col.
Proof.
  apply settled_fixed. unfold normalize_header, Py.re_sub_nonword, Py.lower.
  apply sub_nonword_runs_settled.
Qed.

(** ** The text normalizer, run twice *)

Lemma trim_lowercase_fixed (s : string) :
  Expr.to_lowercase (Expr.trim (Expr.to_lowercase (Expr.trim s)))
  = Expr.to_lowercase (Expr.trim s).
Proof.
  unfold Expr.to_lowercase, Expr.trim.
  rewrite (strip_class_fixed Chars.re_space (Str.map Chars.lower _)).
  - apply map_lower_idem.
  - apply clear_ends_map; [exact lower_re_space | apply strip_class_clear].
Qed.

Lemma clean_cell_idempotent (v : option string) :
  clean_cell (clean_cell v) = clean_cell v.
Proof.
  destruct v as [s|]; [|reflexivity].
  assert (Hc : clean_cell (Some s) =
               if Str.mem (Expr.to_lowercase (Expr.trim s)) NULL_EQUIV
               then Some "null" else Some (Expr.to_lowercase (Expr.trim s))).
  { unfold clean_cell, is_in, trimmed_lowercased, when_then_otherwise.
    cbn [option_map].
    now destruct (Str.mem (Expr.to_lowercase (Expr.trim s)) NULL_EQUIV). }
  rewrite Hc.
  destruct (Str.mem (Expr.to_lowercase (Expr.trim s)) NULL_EQUIV) eqn:E;
    [reflexivity|].
  unfold clean_cell, is_in, trimmed_lowercased, when_then_otherwise.
  cbn [option_map]. now rewrite trim_lowercase_fixed, E.
Qed.

Lemma cleaned_column_idempotent (c : string * Series) :
  cleaned_column (cleaned_column c) = cleaned_column c.
Proof.
  destruct c as [n [l|l|l|l|l]]; try reflexivity.
  unfold cleaned_column. cbn [fst snd]. rewrite map_map.
  do 2 f_equal. apply map_ext. apply clean_cell_idempotent.
Qed.

Lemma columns_map_cleaned (df : DataFrame) :
  pl.columns (map cleaned_column df) = pl.columns df.
Proof.
  unfold pl.columns. rewrite map_map. apply map_ext.
  intros [n [l|l|l|l|l]]; reflexivity.
Qed.

Lemma clean_text_map (df : DataFrame) :
  NoDup (pl.columns df) -> clean_text df = map cleaned_column df.
Proof.
  intro Hnd. unfold clean_text. rewrite clean_cols_flat_map by exact Hnd.
  now apply with_columns_clean_update.
Qed.

(** X2.  Stage 3 is idempotent: on a frame whose names are distinct,
    cleaning the text a second time changes nothing. *)
Theorem clean_text_idempotent (df : DataFrame) :
  NoDup (pl.columns df) -> clean_text (clean_text df) = clean_text df.
Proof.
  intro Hnd. rewrite (clean_text_map df Hnd).
  rewrite clean_text_map by (now rewrite columns_map_cleaned).
  rewrite map_map. apply map_ext. apply cleaned_column_idempotent.
Qed.

Lemma clean_text_idempotent_witness :
  NoDup (pl.columns Samples.quotes)
  /\ clean_text (clean_text Samples.quotes) = clean_text Samples.quotes.
Proof.
  assert (H : NoDup (pl.columns Samples.quotes))
    by (apply nodupb_NoDup; reflexivity).
  split; [exact H | exact (clean_text_idempotent Samples.quotes H)].
Defined.

(** X3.  What stage 3 leaves in a text cell that is not null: never
    the empty string; a token of the null-equivalent set only if it is
    "null"; no white space at either end; no upper-case letter. *)
Theorem clean_cell_shape (s t : string) :
  clean_cell (Some s) = Some t ->
  t <> ""
  /\ (Str.mem t NULL_EQUIV = true -> t = "null")
  /\ clear_ends Chars.re_space t
  /\ Expr.to_lowercase t = t.
Proof.
  unfold clean_cell, is_in, trimmed_lowercased, when_then_otherwise.
  cbn [option_map].
  destruct (Str.mem (Expr.to_lowercase (Expr.trim s)) NULL_EQUIV) eqn:E;
    intro H; inversion H; subst t.
  - repeat split; try discriminate; try reflexivity; intros c Hc;
      inversion Hc; reflexivity.
  - split; [|split; [|split]].
    + intro H0. rewrite H0 in E. discriminate.
    + intro H0. congruence.
    + unfold Expr.to_lowercase, Expr.trim.
      apply clear_ends_map; [exact lower_re_space | apply strip_class_clear].
    + apply map_lower_idem.
Qed.

Lemma clean_cell_shape_witness :
  clean_cell (Some "  N/A ") = Some "null"
  /\ "null" <> ""
  /\ (Str.mem "null" NULL_EQUIV = true -> "null" = "null")
  /\ clear_ends Chars.re_space "null"
  /\ Expr.to_lowercase "null" = "null".
Proof.
  split; [reflexivity|].
  exact (clean_cell_shape "  N/A " "null" eq_refl).
Defined.

(** ** Decimal fields: what is written is what is read *)

(** A run of digits is read whole when the field is as wide as the
    run, or wider and the text goes on with something else. *)
Lemma scan_digits_run (s rest : string) :
  forall (max : nat) (acc : Z) (k : nat),
    Str.forallb Chars.is_digit s = true ->
    (String.length s = max \/ (String.length s <= max /\ stops rest)) ->
    Dates.scan_digits max (s ++ rest)%string acc k
    = (digits_value s acc, (k + String.length s)%nat, rest).
Proof.
  induction s as [|c r IH]; intros max acc k Hd Hmax.
  - cbn [String.append digits_value String.length]. rewrite Nat.add_0_r.
    destruct max as [|max]; [reflexivity|].
    destruct Hmax as [Hm | [_ Hs]]; [discriminate|].
    destruct rest as [|x rest]; [reflexivity|].
    cbn [Dates.scan_digits]. cbn in Hs. now rewrite Hs.
  - cbn [Str.forallb] in Hd. apply andb_prop in Hd as [Hc Hr].
    cbn [String.length] in Hmax.
    destruct max as [|max]; [destruct Hmax as [Hm | [Hm _]]; [discriminate | lia]|].
    cbn [String.append Dates.scan_digits digits_value String.length]. rewrite Hc.
    rewrite IH; [f_equal; f_equal; lia | exact Hr |].
    destruct Hmax as [Hm | [Hm Hs]]; [left; lia | right; split; [lia | exact Hs]].
Qed.

Lemma digits_value_shift (s : string) :
  forall acc : Z,
    digits_value s acc
    = (acc * 10 ^ Z.of_nat (String.length s) + digits_value s 0)%Z.
Proof.
  induction s as [|c r IH]; intro acc.
  - cbn. lia.
  - cbn [digits_value String.length].
    rewrite (IH (acc * 10 + Dates.digit_value c)%Z), (IH (0 * 10 + Dates.digit_value c)%Z).
    rewrite Nat2Z.inj_succ, Z.pow_succ_r by lia. ring.
Qed.

Ltac each_digit d IH :=
  induction d as [|d IH|d IH|d IH|d IH|d IH|d IH|d IH|d IH|d IH|d IH].

Lemma string_of_uint_digits (d : Decimal.uint) :
  Str.forallb Chars.is_digit (NilEmpty.string_of_uint d) = true.
Proof. each_digit d IH; [reflexivity | exact IH ..]. Qed.

Lemma string_of_uint_length (d : Decimal.uint) :
  Z.of_nat (String.length (NilEmpty.string_of_uint d))
  = Z.of_N (DecimalPos.Unsigned.usize d).
Proof.
  each_digit d IH; [reflexivity|..];
    cbn [NilEmpty.string_of_uint String.length DecimalPos.Unsigned.usize];
    rewrite Nat2Z.inj_succ, N2Z.inj_succ, IH; reflexivity.
Qed.

(** The digits of [d] read from the left give the number that [d]
    writes. *)
Lemma string_of_uint_value (d : Decimal.uint) :
  digits_value (NilEmpty.string_of_uint d) 0
  = Z.of_N (DecimalPos.Unsigned.of_lu (Decimal.rev d)).
Proof.
  each_digit d IH; [reflexivity|..];
    cbn [NilEmpty.string_of_uint digits_value];
    rewrite digits_value_shift, string_of_uint_length;
    unfold Decimal.rev; cbn [Decimal.revapp];
    rewrite DecimalPos.Unsigned.of_lu_revapp;
    rewrite N2Z.inj_add, N2Z.inj_mul, N2Z.inj_pow, <- IH;
    change (Z.of_N 10) with 10%Z;
    repeat match goal with
           | |- context [Dates.digit_value ?c] =>
               let v := eval vm_compute in (Dates.digit_value c) in
               change (Dates.digit_value c) with v
           | |- context [Z.of_N (DecimalPos.Unsigned.of_lu ?x)] =>
               let v := eval vm_compute in (Z.of_N (DecimalPos.Unsigned.of_lu x)) in
               change (Z.of_N (DecimalPos.Unsigned.of_lu x)) with v
           end;
    ring.
Qed.

Lemma nat_digits_value (n : N) : digits_value (Dates.nat_digits n) 0 = Z.of_N n.
Proof.
  unfold Dates.nat_digits. rewrite string_of_uint_value.
  rewrite <- DecimalPos.Unsigned.of_uint_alt.
  change (Pos.of_uint (N.to_uint n)) with (N.of_uint (N.to_uint n)).
  now rewrite DecimalN.Unsigned.of_to.
Qed.

Lemma nat_digits_digits (n : N) :
  Str.forallb Chars.is_digit (Dates.nat_digits n) = true.
Proof. apply string_of_uint_digits. Qed.

Lemma nat_digits_nonempty (n : N) : Dates.nat_digits n <> "".
Proof.
  unfold Dates.nat_digits. destruct n as [|p]; [discriminate|].
  cbn [N.to_uint]. pose proof (DecimalPos.Unsigned.to_uint_nonnil p) as H.
  destruct (Pos.to_uint p); [now elim H | discriminate ..].
Qed.

Lemma forallb_append (p : ascii -> bool) (s t : string) :
  Str.forallb p (s ++ t)%string = (Str.forallb p s && Str.forallb p t)%bool.
Proof.
  induction s as [|c r IH]; [reflexivity|].
  cbn [String.append Str.forallb]. now rewrite IH, andb_assoc.
Qed.

Lemma zeros_digits (k : nat) : Str.forallb Chars.is_digit (Dates.zeros k) = true.
Proof. induction k as [|k IH]; [reflexivity | exact IH]. Qed.

Lemma zeros_value (k : nat) (s : string) :
  digits_value (Dates.zeros k ++ s)%string 0 = digits_value s 0.
Proof. induction k as [|k IH]; [reflexivity | exact IH]. Qed.

Lemma length_zeros (k : nat) : String.length (Dates.zeros k) = k.
Proof. induction k as [|k IH]; [reflexivity|]. cbn. now rewrite IH. Qed.

Lemma length_append (s t : string) :
  String.length (s ++ t)%string = (String.length s + String.length t)%nat.
Proof. induction s as [|c r IH]; [reflexivity|]. cbn. now rewrite IH. Qed.

Lemma pad_digits_digits (w : nat) (n : N) :
  Str.forallb Chars.is_digit (Dates.pad_digits w n) = true.
Proof.
  unfold Dates.pad_digits. now rewrite forallb_append, zeros_digits, nat_digits_digits.
Qed.

Lemma pad_digits_value (w : nat) (n : N) :
  digits_value (Dates.pad_digits w n) 0 = Z.of_N n.
Proof. unfold Dates.pad_digits. now rewrite zeros_value, nat_digits_value. Qed.

Lemma pad_digits_nonempty (w : nat) (n : N) : Dates.pad_digits w n <> "".
Proof.
  unfold Dates.pad_digits. pose proof (nat_digits_nonempty n) as H.
  destruct (Dates.zeros _); [exact H | discriminate].
Qed.

Lemma pad_digits_length (w : nat) (n : N) :
  (String.length (Dates.nat_digits n) <= w)%nat ->
  String.length (Dates.pad_digits w n) = w.
Proof.
  intro H. unfold Dates.pad_digits. rewrite length_append, length_zeros. lia.
Qed.

Lemma all_below_spec (bound : nat) (p : N -> bool) (n : N) :
  all_below bound p = true -> (n < N.of_nat bound)%N -> p n = true.
Proof.
  unfold all_below. intros H Hn. rewrite forallb_forall in H. apply H.
  apply in_map_iff. exists (N.to_nat n). split; [apply N2Nat.id|].
  apply in_seq. lia.
Qed.

Lemma nat_digits_length_2 (n : N) :
  (n < 100)%N -> (String.length (Dates.nat_digits n) <= 2)%nat.
Proof.
  intro H. apply Nat.leb_le.
  apply (all_below_spec 100
           (fun n => Nat.leb (String.length (Dates.nat_digits n)) 2) n);
    [vm_compute; reflexivity | exact H].
Qed.

Lemma nat_digits_length_4 (n : N) :
  (n < 10000)%N -> (String.length (Dates.nat_digits n) <= 4)%nat.
Proof.
  intro H. apply Nat.leb_le.
  apply (all_below_spec (100 * 100)
           (fun n => Nat.leb (String.length (Dates.nat_digits n)) 4) n);
    [vm_compute; reflexivity | exact H].
Qed.

Lemma digit_not_space (c : ascii) : Chars.is_digit c = true -> Chars.re_space c = false.
Proof. each_char c. Qed.

Lemma number_run (s rest : string) (max : nat) :
  Str.forallb Chars.is_digit s = true -> s <> "" ->
  (String.length s = max \/ (String.length s <= max /\ stops rest)) ->
  Dates.number max (s ++ rest)%string = Some (digits_value s 0, rest).
Proof.
  intros Hd Hne Hmax. unfold Dates.number.
  rewrite (scan_digits_run s rest max 0 0 Hd Hmax).
  destruct s as [|c r]; [now elim Hne | reflexivity].
Qed.

Lemma drop_space_digit (s rest : string) :
  Str.forallb Chars.is_digit s = true -> s <> "" ->
  Str.drop_while Chars.re_space (s ++ rest)%string = (s ++ rest)%string.
Proof.
  intros Hd Hne. destruct s as [|c r]; [now elim Hne|].
  cbn [Str.forallb] in Hd. apply andb_prop in Hd as [Hc _].
  cbn [String.append Str.drop_while]. now rewrite (digit_not_space c Hc).
Qed.

(** A field without a sign. *)
Lemma numeric_plain_run (s rest : string) (w : nat) :
  Str.forallb Chars.is_digit s = true -> s <> "" ->
  (String.length s = w \/ (String.length s <= w /\ stops rest)) ->
  Dates.numeric w false (s ++ rest)%string = Some (digits_value s 0, rest).
Proof.
  intros Hd Hne Hw. unfold Dates.numeric.
  rewrite (drop_space_digit s rest Hd Hne). now apply number_run.
Qed.

Lemma numeric_signed_digit (c : ascii) (r : string) (w : nat) :
  Chars.is_digit c = true ->
  Dates.numeric w true (String c r) = Dates.number w (String c r).
Proof.
  intro Hc. unfold Dates.numeric. cbn [Str.drop_while].
  rewrite (digit_not_space c Hc).
  destruct c as [[] [] [] [] [] [] [] []]; try discriminate Hc; reflexivity.
Qed.

(** A year without a sign, when its digits fill the field. *)
Lemma numeric_year_run (s rest : string) :
  Str.forallb Chars.is_digit s = true ->
  String.length s = 4%nat ->
  Dates.numeric 4 true (s ++ rest)%string = Some (digits_value s 0, rest).
Proof.
  intros Hd Hlen.
  assert (Hne : s <> "") by (intro E; subst; discriminate).
  destruct s as [|c r] eqn:Es; [now elim Hne|].
  cbn [String.append]. pose proof Hd as Hd'. cbn [Str.forallb] in Hd'.
  apply andb_prop in Hd' as [Hc _].
  rewrite (numeric_signed_digit c _ 4 Hc).
  change (String c (r ++ rest)%string) with (String c r ++ rest)%string.
  apply number_run; auto.
Qed.

(** A year with its sign. *)
Lemma numeric_year_signed (neg : bool) (s rest : string) :
  Str.forallb Chars.is_digit s = true -> s <> "" -> stops rest ->
  Dates.numeric 4 true (String (if neg then "-" else "+")%char (s ++ rest)%string)
  = Some (if neg then (- digits_value s 0)%Z else digits_value s 0, rest).
Proof.
  intros Hd Hne Hs.
  assert (Hn : Dates.number (String.length (s ++ rest)%string) (s ++ rest)%string
               = Some (digits_value s 0, rest)).
  { apply number_run; auto. right. split; [rewrite length_append; lia | exact Hs]. }
  unfold Dates.numeric. destruct neg; cbn [Str.drop_while]; cbn; now rewrite Hn.
Qed.

(** The year that [%Y] writes is the year that [%Y] reads. *)
Lemma year_field (y : Z) (rest : string) :
  stops rest ->
  Dates.numeric 4 true (Dates.format_year y ++ rest)%string = Some (y, rest).
Proof.
  intro Hs. unfold Dates.format_year.
  destruct ((0 <=? y)%Z && (y <=? 9999)%Z)%bool eqn:E.
  - apply andb_prop in E as [E0 E1]. apply Z.leb_le in E0, E1.
    rewrite numeric_year_run.
    + now rewrite pad_digits_value, Z2N.id.
    + apply pad_digits_digits.
    + apply pad_digits_length, nat_digits_length_4. lia.
  - destruct (y <? 0)%Z eqn:En.
    + apply Z.ltb_lt in En.
      change (String "-"%char (Dates.pad_digits 4 (Z.to_N (- y))) ++ rest)%string
        with (String (if true then "-" else "+")%char
                (Dates.pad_digits 4 (Z.to_N (- y)) ++ rest)%string).
      rewrite numeric_year_signed;
        [|apply pad_digits_digits | apply pad_digits_nonempty | exact Hs].
      rewrite pad_digits_value, Z2N.id by lia. f_equal. f_equal. lia.
    + apply Z.ltb_ge in En.
      change (String "+"%char (Dates.pad_digits 4 (Z.to_N y)) ++ rest)%string
        with (String (if false then "-" else "+")%char
                (Dates.pad_digits 4 (Z.to_N y) ++ rest)%string).
      rewrite numeric_year_signed;
        [|apply pad_digits_digits | apply pad_digits_nonempty | exact Hs].
      now rewrite pad_digits_value, Z2N.id.
Qed.

(** The month or day that [%m] or [%d] writes is the one it reads. *)
Lemma two_digit_field (n : Z) (rest : string) :
  (0 <= n < 100)%Z ->
  Dates.numeric 2 false (Dates.pad_digits 2 (Z.to_N n) ++ rest)%string = Some (n, rest).
Proof.
  intro Hn. rewrite numeric_plain_run.
  - now rewrite pad_digits_value, Z2N.id by lia.
  - apply pad_digits_digits.
  - apply pad_digits_nonempty.
  - left. apply pad_digits_length, nat_digits_length_2. lia.
Qed.

Lemma strftime_iso (dt : date) :
  Dates.strftime "%Y-%m-%d" dt
  = (Dates.format_year (year dt)
     ++ String "-"%char
          (Dates.pad_digits 2 (Z.to_N (month dt))
           ++ String "-"%char (Dates.pad_digits 2 (Z.to_N (day dt)) ++ "")))%string.
Proof. rewrite append_empty_r. reflexivity. Qed.

Lemma from_ymd_opt_bounds (y m d : Z) (dt : date) :
  Dates.from_ymd_opt y m d = Some dt ->
  dt = mkDate y m d /\ (1 <= m <= 12)%Z /\ (1 <= d <= 31)%Z.
Proof.
  unfold Dates.from_ymd_opt.
  destruct (_ && _)%bool eqn:E; [|discriminate].
  intro H. inversion H; subst. split; [reflexivity|].
  repeat (apply andb_prop in E as [E ?]).
  repeat match goal with H : (_ <=? _)%Z = true |- _ => apply Z.leb_le in H end.
  assert (Dates.days_in_month y m <= 31)%Z.
  { unfold Dates.days_in_month.
    destruct (m =? 2)%Z; [destruct (Dates.is_leap y); lia|].
    destruct (_ || _)%bool; lia. }
  lia.
Qed.

Lemma iso_read_back (dt : date) :
  Dates.from_ymd_opt (year dt) (month dt) (day dt) = Some dt ->
  Dates.parse_from_str "%Y-%m-%d" (Dates.strftime "%Y-%m-%d" dt) = Some dt.
Proof.
  intro Hv. destruct (from_ymd_opt_bounds _ _ _ _ Hv) as (_ & Hm & Hd).
  rewrite strftime_iso. unfold Dates.parse_from_str.
  change (Dates.items_of_format "%Y-%m-%d")
    with (Some [Dates.Year; Dates.Literal "-"%char; Dates.Month;
                Dates.Literal "-"%char; Dates.Day]).
  cbn [Dates.parse_items].
  rewrite year_field by (cbn; reflexivity).
  cbn [Dates.set_if_consistent Dates.no_fields Dates.p_year Dates.p_month Dates.p_day].
  cbn [Ascii.eqb Bool.eqb]. 
  rewrite two_digit_field by lia.
  cbn [Dates.set_if_consistent Dates.p_year Dates.p_month Dates.p_day].
  cbn [Ascii.eqb Bool.eqb].
  rewrite two_digit_field by lia.
  cbn [Dates.set_if_consistent Dates.p_year Dates.p_month Dates.p_day String.eqb].
  unfold Dates.to_naive_date. cbn [Dates.p_year Dates.p_month Dates.p_day].
  exact Hv.
Qed.

(** X4.  Round trip of the canonical layout: a date of the calendar
    written with "%Y-%m-%d" is read back, with "%Y-%m-%d", as itself. *)
Theorem strftime_strptime_round_trip (dt : date) :
  Dates.from_ymd_opt (year dt) (month dt) (day dt) = Some dt ->
  Dates.parse_from_str "%Y-%m-%d" (Dates.strftime "%Y-%m-%d" dt) = Some dt.
Proof. exact (iso_read_back dt). Qed.

Lemma strftime_strptime_round_trip_witness :
  Dates.from_ymd_opt 2024 2 29 = Some (mkDate 2024 2 29)
  /\ Dates.strftime "%Y-%m-%d" (mkDate 2024 2 29) = "2024-02-29"
  /\ Dates.parse_from_str "%Y-%m-%d" (Dates.strftime "%Y-%m-%d" (mkDate 2024 2 29))
     = Some (mkDate 2024 2 29).
Proof.
  split; [reflexivity|]. split; [reflexivity|].
  exact (strftime_strptime_round_trip (mkDate 2024 2 29) eq_refl).
Defined.

(** ** Dates after stage 4 *)

(** What a parse returns is a date of the calendar. *)
Lemma parse_from_str_valid (fmt s : string) (dt : date) :
  Dates.parse_from_str fmt s = Some dt ->
  Dates.from_ymd_opt (year dt) (month dt) (day dt) = Some dt.
Proof.
  unfold Dates.parse_from_str, Dates.to_naive_date.
  destruct (Dates.items_of_format fmt) as [its|]; [|discriminate].
  destruct (Dates.parse_items its s Dates.no_fields) as [p|]; [|discriminate].
  destruct (Dates.p_year p) as [y|]; [|discriminate].
  destruct (Dates.p_month p) as [m|]; [|discriminate].
  destruct (Dates.p_day p) as [d|]; [|discriminate].
  intro H. destruct (from_ymd_opt_bounds _ _ _ _ H) as [-> _]. exact H.
Qed.

(** A cell that stage 4 rewrote holds, in the canonical layout, the
    date that stage 4 read. *)
Lemma reformatted_reads_back (fmt : string) (v : option string) :
  parsed_cell "%Y-%m-%d" (reformatted fmt v) = parsed_cell fmt v.
Proof.
  unfold reformatted. destruct (parsed_cell fmt v) as [dt|] eqn:E; [|reflexivity].
  cbn [option_map parsed_cell]. apply iso_read_back.
  destruct v as [s|]; [|discriminate]. now apply (parse_from_str_valid fmt s).
Qed.

Lemma reformatted_parses (fmt : string) (l : list (option string)) :
  all_parse "%Y-%m-%d" (map (reformatted fmt) l) = true.
Proof.
  unfold all_parse. rewrite forallb_forall. intros v Hv.
  apply in_map_iff in Hv as (x & <- & _).
  pose proof (reformatted_reads_back fmt x) as H.
  unfold parses. destruct (reformatted fmt x) as [t|] eqn:E; [|reflexivity].
  cbn [parsed_cell] in H. rewrite H.
  unfold reformatted in E. destruct (parsed_cell fmt x); [reflexivity | discriminate].
Qed.

(** No other layout of the engine's list reads a date written in the
    canonical layout before the canonical layout does. *)
Lemma slash_layout_fails (dt : date) :
  Dates.parse_from_str "%Y/%m/%d" (Dates.strftime "%Y-%m-%d" dt) = None.
Proof.
  rewrite strftime_iso. unfold Dates.parse_from_str.
  change (Dates.items_of_format "%Y/%m/%d")
    with (Some [Dates.Year; Dates.Literal "/"%char; Dates.Month;
                Dates.Literal "/"%char; Dates.Day]).
  cbn [Dates.parse_items].
  rewrite year_field by (cbn; reflexivity).
  reflexivity.
Qed.

Lemma infer_format_iso (dt : date) :
  Dates.from_ymd_opt (year dt) (month dt) (day dt) = Some dt ->
  Expr.infer_format Expr.inferred_formats (Dates.strftime "%Y-%m-%d" dt)
  = Some "%Y-%m-%d".
Proof.
  intro Hv. unfold Expr.inferred_formats. cbn [Expr.infer_format].
  now rewrite slash_layout_fails, (iso_read_back dt Hv).
Qed.




(** ** Frames, column by column *)

(** Two frames with the same names, all different, and the same column
    under every name are one frame. *)
Lemma frame_ext (d1 : DataFrame) :
  forall d2 : DataFrame,
    pl.columns d1 = pl.columns d2 ->
    NoDup (pl.columns d1) ->
    (forall n, pl.get_column d1 n = pl.get_column d2 n) ->
    d1 = d2.
Proof.
  induction d1 as [|[n s] r1 IH]; intros [|[n' s'] r2] Hc Hnd Hg;
    try discriminate; [reflexivity|].
  cbn [pl.columns map fst] in Hc. inversion Hc as [[Hn Hr]]. subst n'.
  cbn [pl.columns map fst] in Hnd. inversion Hnd as [|? ? Hnot Hnd']; subst.
  pose proof (Hg n) as Hs. cbn [pl.get_column] in Hs.
  rewrite String.eqb_refl in Hs. inversion Hs; subst s'. f_equal.
  apply IH; [exact Hr | exact Hnd' |].
  intro m. specialize (Hg m). cbn [pl.get_column] in Hg.
  destruct (String.eqb n m) eqn:E; [|exact Hg].
  apply String.eqb_eq in E; subst m.
  rewrite !get_column_None; [reflexivity | |].
  - destruct (Str.mem n (pl.columns r2)) eqn:M; [|reflexivity].
    apply mem_In in M. unfold pl.columns in M. rewrite <- Hr in M. now elim Hnot.
  - destruct (Str.mem n (pl.columns r1)) eqn:M; [|reflexivity].
    apply mem_In in M. now elim Hnot.
Qed.

Lemma columns_map (f : string * Series -> string * Series) (df : DataFrame) :
  (forall c, fst (f c) = fst c) -> pl.columns (map f df) = pl.columns df.
Proof.
  intro Hf. unfold pl.columns. rewrite map_map. apply map_ext. exact Hf.
Qed.

Lemma get_column_map (f : string * Series -> string * Series) (df : DataFrame)
    (n : string) :
  (forall c, fst (f c) = fst c) ->
  pl.get_column (map f df) n
  = option_map (fun s => snd (f (n, s))) (pl.get_column df n).
Proof.
  intro Hf. induction df as [|[n0 s0] rest IH]; [reflexivity|].
  cbn [map]. destruct (f (n0, s0)) as [n1 s1] eqn:E.
  pose proof (Hf (n0, s0)) as H1. rewrite E in H1. cbn [fst] in H1. subst n1.
  cbn [pl.get_column]. destruct (String.eqb n0 n) eqn:En; [|exact IH].
  apply String.eqb_eq in En; subst n0. cbn [option_map]. now rewrite E.
Qed.

(** ** Stage 4, column by column *)

Lemma fst_date_fixed (c : string * Series) : fst (date_fixed c) = fst c.
Proof.
  unfold date_fixed. destruct c as [n [l|l|l|l|l]]; cbn [fst snd]; try reflexivity.
  now destruct (Str.contains "trade" n && all_parse "%m/%d/%Y" l)%bool.
Qed.

(** One round of the loop, on a column of the frame whose name has
    "trade" in it. *)
Lemma fix_date_column_map (df : DataFrame) (col : string) :
  NoDup (pl.columns df) ->
  In col (pl.columns df) ->
  Str.contains "trade" col = true ->
  fix_date_column df col
  = Ok (map (fun c => if String.eqb (fst c) col then date_fixed c else c) df).
Proof.
  intros Hnd Hin Htrade.
  set (g := fun c : string * Series => if String.eqb (fst c) col then date_fixed c else c).
  assert (Hg : forall c, fst (g c) = fst c).
  { intro c. unfold g. destruct (String.eqb (fst c) col); [apply fst_date_fixed | reflexivity]. }
  assert (Hother : forall n, n <> col ->
            pl.get_column (map g df) n = pl.get_column df n).
  { intros n Hn. rewrite (get_column_map g df n Hg).
    destruct (pl.get_column df n) as [s|]; [|reflexivity].
    cbn [option_map]. unfold g. cbn [fst].
    destruct (String.eqb n col) eqn:E; [|reflexivity].
    apply String.eqb_eq in E. contradiction. }
  destruct (In_get_column df col Hin) as [s Hs].
  assert (Hsame : date_fixed (col, s) = (col, s) -> map g df = df).
  { intro Hfix. apply frame_ext.
    - now apply columns_map.
    - now rewrite columns_map.
    - intro n. destruct (String.eqb n col) eqn:E.
      + apply String.eqb_eq in E; subst n. rewrite (get_column_map g df col Hg), Hs.
        cbn [option_map]. unfold g. cbn [fst]. now rewrite String.eqb_refl, Hfix.
      + apply Hother. intro Heq; subst. now rewrite String.eqb_refl in E. }
  destruct s as [l|l|l|l|l];
    try (rewrite (fix_date_column_other df col _ Hs) by discriminate;
         now rewrite Hsame).
  rewrite (fix_date_column_utf8 df col l Hs).
  destruct (all_parse "%m/%d/%Y" l) eqn:Eall.
  - f_equal. apply frame_ext.
    + rewrite columns_with_column by exact Hin. symmetry. now apply columns_map.
    + now rewrite columns_with_column.
    + intro n. rewrite get_column_with_column.
      destruct (String.eqb col n) eqn:E.
      * apply String.eqb_eq in E; subst n. rewrite (get_column_map g df col Hg), Hs.
        cbn [option_map]. unfold g. cbn [fst]. rewrite String.eqb_refl.
        unfold date_fixed. cbn [fst snd]. now rewrite Htrade, Eall.
      * symmetry. apply Hother. intro Heq; subst. now rewrite String.eqb_refl in E.
  - rewrite Hsame; [reflexivity|].
    unfold date_fixed. cbn [fst snd]. now rewrite Htrade, Eall.
Qed.

Lemma for_each_fix_map (cols : list string) :
  forall df : DataFrame,
    NoDup (pl.columns df) ->
    NoDup cols ->
    (forall c, In c cols -> In c (pl.columns df) /\ Str.contains "trade" c = true) ->
    for_each fix_date_column cols df
    = Ok (map (fun c => if Str.mem (fst c) cols then date_fixed c else c) df).
Proof.
  induction cols as [|c r IH]; intros df Hnd Hcols Hsub.
  - cbn [for_each Str.mem]. now rewrite map_id.
  - inversion Hcols as [|? ? Hnot Hr]; subst.
    destruct (Hsub c (or_introl eq_refl)) as [Hin Htrade].
    cbn [for_each]. rewrite (fix_date_column_map df c Hnd Hin Htrade). cbn [bind].
    rewrite IH.
    + f_equal. rewrite map_map. apply map_ext. intros [n s]. cbn [fst Str.mem].
      destruct (String.eqb n c) eqn:E.
      * apply String.eqb_eq in E; subst n. rewrite fst_date_fixed. cbn [fst orb].
        destruct (Str.mem c r) eqn:M; [|reflexivity].
        apply mem_In in M. contradiction.
      * cbn [fst orb]. reflexivity.
    + rewrite columns_map; [exact Hnd|].
      intro x. destruct (String.eqb (fst x) c); [apply fst_date_fixed | reflexivity].
    + exact Hr.
    + intros x Hx. rewrite columns_map.
      * apply Hsub. now right.
      * intro y. destruct (String.eqb (fst y) c); [apply fst_date_fixed | reflexivity].
Qed.

(** Stage 4 as a change column by column. *)
Lemma fix_date_columns_map (df : DataFrame) :
  NoDup (pl.columns df) ->
  fix_date_columns df = Ok (map date_fixed df).
Proof.
  intro Hnd. unfold fix_date_columns.
  rewrite for_each_fix_map.
  - f_equal. apply map_ext_in. intros [n s] Hin. cbn [fst].
    destruct (Str.mem n (date_cols df)) eqn:M; [reflexivity|].
    assert (Hno : Str.contains "trade" n = false).
    { destruct (Str.contains "trade" n) eqn:E; [|reflexivity].
      assert (Hd : In n (date_cols df)).
      { unfold date_cols. apply filter_In. split; [|exact E].
        unfold pl.columns. apply in_map_iff. now exists (n, s). }
      apply mem_In in Hd. congruence. }
    unfold date_fixed. cbn [fst snd]. rewrite Hno.
    now destruct s.
  - exact Hnd.
  - unfold date_cols. now apply NoDup_filter.
  - intros c Hc. unfold date_cols in Hc. apply filter_In in Hc. exact Hc.
Qed.

Lemma len_date_fixed (c : string * Series) :
  pl.len (snd (date_fixed c)) = pl.len (snd c).
Proof.
  destruct c as [n [l|l|l|l|l]]; try reflexivity.
  unfold date_fixed. cbn [fst snd].
  destruct (Str.contains "trade" n && all_parse "%m/%d/%Y" l)%bool; [|reflexivity].
  unfold pl.len. cbn [snd pl.cells]. now rewrite !length_map.
Qed.

Lemma dtype_date_fixed (c : string * Series) :
  pl.dtype (snd (date_fixed c)) = pl.dtype (snd c).
Proof.
  destruct c as [n [l|l|l|l|l]]; try reflexivity.
  unfold date_fixed. cbn [fst snd].
  now destruct (Str.contains "trade" n && all_parse "%m/%d/%Y" l)%bool.
Qed.

(** X6.  On a frame whose names are all different stage 4 raises
    nothing and is a change column by column: a text column with
    "trade" in its name and whose every cell passes the strict parse with
    MM/DD/YYYY is rewritten as YYYY-MM-DD, and every other column is kept
    as it is.  Every column keeps its name, its type and its height. *)
Theorem fix_date_columns_columnwise (df : DataFrame) :
  NoDup (pl.columns df) ->
  fix_date_columns df = Ok (map date_fixed df)
  /\ (forall c : string * Series,
         fst (date_fixed c) = fst c
         /\ pl.dtype (snd (date_fixed c)) = pl.dtype (snd c)
         /\ pl.len (snd (date_fixed c)) = pl.len (snd c)).
Proof.
  intro Hnd. split; [now apply fix_date_columns_map|].
  intro c. split; [apply fst_date_fixed|].
  split; [apply dtype_date_fixed | apply len_date_fixed].
Qed.

Lemma fix_date_columns_columnwise_witness :
  NoDup (pl.columns Samples.us_dates)
  /\ fix_date_columns Samples.us_dates
     = Ok [ ("trade_date", SUtf8 [Some "2023-01-01"; None; Some "2023-01-02"]);
            ("ticker", SUtf8 [Some "aapl"; Some "aapl"; Some "msft"]) ].
Proof.
  assert (Hnd : NoDup (pl.columns Samples.us_dates)).
  { apply nodupb_NoDup. reflexivity. }
  split; [exact Hnd|].
  exact (proj1 (fix_date_columns_columnwise Samples.us_dates Hnd)).
Defined.

(** ** Stage 4, run twice *)

Lemma four_digits (s : string) :
  String.length s = 4%nat -> Str.forallb Chars.is_digit s = true ->
  exists d1 d2 d3 r,
    s = String d1 (String d2 (String d3 r))
    /\ Chars.is_digit d1 = true /\ Chars.is_digit d2 = true
    /\ Chars.is_digit d3 = true.
Proof.
  destruct s as [|d1 [|d2 [|d3 r]]]; try discriminate.
  intros _ H. cbn [Str.forallb] in H.
  apply andb_prop in H as [H1 H]. apply andb_prop in H as [H2 H].
  apply andb_prop in H as [H3 _].
  exists d1, d2, d3, r. now repeat split.
Qed.

(** A date written as YYYY-MM-DD is not a date in the layout
    MM/DD/YYYY. *)
Lemma month_first_fails (dt : date) :
  Dates.parse_from_str "%m/%d/%Y" (Dates.strftime "%Y-%m-%d" dt) = None.
Proof.
  rewrite strftime_iso. unfold Dates.parse_from_str.
  change (Dates.items_of_format "%m/%d/%Y")
    with (Some [Dates.Month; Dates.Literal "/"%char; Dates.Day;
                Dates.Literal "/"%char; Dates.Year]).
  set (rest := String "-"%char _).
  unfold Dates.format_year.
  destruct ((0 <=? year dt)%Z && (year dt <=? 9999)%Z)%bool eqn:E.
  - apply andb_prop in E as [E1 E2]. apply Z.leb_le in E1, E2.
    destruct (four_digits (Dates.pad_digits 4 (Z.to_N (year dt))))
      as (d1 & d2 & d3 & r & -> & H1 & H2 & H3).
    + apply pad_digits_length, nat_digits_length_4. lia.
    + apply pad_digits_digits.
    + cbn [String.append Dates.parse_items]. unfold Dates.numeric.
      cbn [Str.drop_while]. rewrite (digit_not_space d1 H1).
      unfold Dates.number. cbn [Dates.scan_digits]. rewrite H1, H2.
      cbn [Dates.set_if_consistent Dates.p_month Dates.no_fields].
      destruct (Ascii.eqb "/" d3) eqn:E3; [|reflexivity].
      apply Ascii.eqb_eq in E3. subst d3. discriminate.
  - destruct (year dt <? 0)%Z; reflexivity.
Qed.

Lemma reformatted_settled (l : list (option string)) :
  all_parse "%m/%d/%Y" (map (reformatted "%m/%d/%Y") l) = true ->
  map (reformatted "%m/%d/%Y") (map (reformatted "%m/%d/%Y") l)
  = map (reformatted "%m/%d/%Y") l.
Proof.
  intro H. unfold all_parse in H. rewrite forallb_forall in H.
  rewrite map_map. apply map_ext_in. intros v Hv.
  specialize (H (reformatted "%m/%d/%Y" v) (in_map _ _ _ Hv)).
  unfold reformatted in *.
  destruct (parsed_cell "%m/%d/%Y" v) as [dt|]; [|reflexivity].
  cbn [option_map parses] in H. now rewrite month_first_fails in H.
Qed.

Lemma date_fixed_idempotent (c : string * Series) :
  date_fixed (date_fixed c) = date_fixed c.
Proof.
  destruct c as [n s].
  destruct s as [l|l|l|l|l]; try reflexivity.
  assert (Hone : forall l0,
             date_fixed (n, SUtf8 l0)
             = if (Str.contains "trade" n && all_parse "%m/%d/%Y" l0)%bool
               then (n, SUtf8 (map (reformatted "%m/%d/%Y") l0))
               else (n, SUtf8 l0)) by reflexivity.
  rewrite (Hone l).
  destruct (Str.contains "trade" n) eqn:Et; cbn [andb] in *;
    [|now rewrite Hone].
  destruct (all_parse "%m/%d/%Y" l) eqn:Ea;
    [|now rewrite Hone, Ea].
  rewrite Hone.
  destruct (all_parse "%m/%d/%Y" (map (reformatted "%m/%d/%Y") l)) eqn:E2;
    [|reflexivity].
  now rewrite reformatted_settled.
Qed.

(** X7.  Stage 4 run on its own result changes nothing: the dates it
    wrote as YYYY-MM-DD are not read again as MM/DD/YYYY. *)
Theorem fix_date_columns_idempotent (df : DataFrame) :
  NoDup (pl.columns df) ->
  exists df',
    fix_date_columns df = Ok df' /\ fix_date_columns df' = Ok df'.
Proof.
  intro Hnd. exists (map date_fixed df).
  split; [now apply fix_date_columns_map|].
  rewrite fix_date_columns_map.
  - f_equal. rewrite map_map. apply map_ext. apply date_fixed_idempotent.
  - rewrite columns_map; [exact Hnd | apply fst_date_fixed].
Qed.

Lemma fix_date_columns_idempotent_witness :
  NoDup (pl.columns Samples.us_dates)
  /\ exists df',
       fix_date_columns Samples.us_dates = Ok df'
       /\ fix_date_columns df' = Ok df'.
Proof.
  assert (Hnd : NoDup (pl.columns Samples.us_dates)).
  { apply nodupb_NoDup. reflexivity. }
  split; [exact Hnd|].
  exact (fix_date_columns_idempotent Samples.us_dates Hnd).
Defined.

(** ** Stage 5, column by column *)

Lemma columns_with_columns (cols : list (string * Series)) :
  forall df : DataFrame,
    (forall c, In c cols -> In (fst c) (pl.columns df)) ->
    pl.columns (pl.with_columns df cols) = pl.columns df.
Proof.
  induction cols as [|c r IH]; intros df Hsub; [reflexivity|].
  unfold pl.with_columns in *. cbn [fold_left].
  rewrite IH.
  - apply columns_with_column. apply Hsub. now left.
  - intros x Hx. rewrite columns_with_column by (apply Hsub; now left).
    apply Hsub. now right.
Qed.

Lemma casted_names (f64_to_string : F64.t -> string) (df : DataFrame)
    (c : string * Series) :
  In c (casted f64_to_string df) -> In (fst c) (pl.columns df).
Proof.
  unfold casted. intro H. apply in_flat_map in H as (e & _ & He).
  unfold cast_entry in He.
  destruct (pl.get_column df (fst e)) as [s|] eqn:E; [|contradiction].
  destruct He as [<-|[]]. cbn [fst]. now apply (get_column_Some_In df _ s).
Qed.

Lemma columns_enforce_schema (f64_to_string : F64.t -> string) (df : DataFrame) :
  pl.columns (enforce_schema f64_to_string df) = pl.columns df.
Proof.
  unfold enforce_schema. apply columns_with_columns.
  intros c Hc. now apply (casted_names f64_to_string).
Qed.

Lemma fst_schema_cast (f64_to_string : F64.t -> string) (c : string * Series) :
  fst (schema_cast f64_to_string c) = fst c.
Proof. unfold schema_cast. now destruct (target_type (fst c)). Qed.

Lemma enforce_schema_map (f64_to_string : F64.t -> string) (df : DataFrame) :
  NoDup (pl.columns df) ->
  enforce_schema f64_to_string df = map (schema_cast f64_to_string) df.
Proof.
  intro Hnd. apply frame_ext.
  - rewrite columns_enforce_schema. symmetry.
    apply columns_map, fst_schema_cast.
  - now rewrite columns_enforce_schema.
  - intro n. rewrite get_column_enforce_schema.
    rewrite (get_column_map _ df n (fst_schema_cast f64_to_string)).
    unfold schema_cast. cbn [fst snd].
    destruct (target_type n); destruct (pl.get_column df n); reflexivity.
Qed.

(** The types the dictionary of stage 5 names. *)
Lemma target_type_cases (n : string) (t : DataType) :
  target_type n = Some t -> t = Utf8 \/ t = Float64 \/ t = Int64.
Proof.
  unfold target_type, target_schema. cbn [lookup_type].
  repeat (match goal with
          | |- (if ?b then _ else _) = _ -> _ =>
              destruct b; [intro H; inversion H; auto|]
          end).
  discriminate.
Qed.

Lemma dtype_cast (f64_to_string : F64.t -> string) (t : DataType) (s : Series) :
  t = Utf8 \/ t = Float64 \/ t = Int64 ->
  pl.dtype (Cast.cast f64_to_string t s) = t.
Proof. intros [->|[->| ->]]; destruct s; reflexivity. Qed.

Lemma cast_same_type (f64_to_string : F64.t -> string) (t : DataType) (s : Series) :
  pl.dtype s = t -> Cast.cast f64_to_string t s = s.
Proof. intros <-. now destruct s. Qed.

Lemma cast_cast (f64_to_string : F64.t -> string) (t : DataType) (s : Series) :
  Cast.cast f64_to_string t (Cast.cast f64_to_string t s)
  = Cast.cast f64_to_string t s.
Proof. destruct t, s; reflexivity. Qed.

Lemma len_cast (f64_to_string : F64.t -> string) (t : DataType) (s : Series) :
  pl.len (Cast.cast f64_to_string t s) = pl.len s.
Proof.
  unfold pl.len.
  destruct t, s; cbn [Cast.cast Cast.to_utf8 Cast.to_float64 Cast.to_int64 pl.cells];
    now rewrite ?length_map.
Qed.

Lemma schema_cast_idempotent (f64_to_string : F64.t -> string) (c : string * Series) :
  schema_cast f64_to_string (schema_cast f64_to_string c)
  = schema_cast f64_to_string c.
Proof.
  destruct c as [n s]. unfold schema_cast at 2. cbn [fst snd].
  destruct (target_type n) as [t|] eqn:E.
  - unfold schema_cast. cbn [fst snd]. now rewrite E, cast_cast.
  - unfold schema_cast. cbn [fst]. now rewrite E.
Qed.

(** X8.  On a frame whose names are all different stage 5 is a change
    column by column: a column that the dictionary names is cast to the
    type the dictionary gives and has that type afterwards, every other
    column is kept as it is; and stage 5 run on its own result changes
    nothing. *)
Theorem enforce_schema_columnwise (f64_to_string : F64.t -> string) (df : DataFrame) :
  NoDup (pl.columns df) ->
  enforce_schema f64_to_string df = map (schema_cast f64_to_string) df
  /\ (forall (n : string) (s : Series) (t : DataType),
         pl.get_column (enforce_schema f64_to_string df) n = Some s ->
         target_type n = Some t -> pl.dtype s = t)
  /\ (forall (n : string) (s : Series),
         pl.get_column df n = Some s -> target_type n = None ->
         pl.get_column (enforce_schema f64_to_string df) n = Some s)
  /\ enforce_schema f64_to_string (enforce_schema f64_to_string df)
     = enforce_schema f64_to_string df.
Proof.
  intro Hnd. split; [now apply enforce_schema_map|]. split; [|split].
  - intros n s t Hs Ht. rewrite get_column_enforce_schema, Ht in Hs.
    destruct (pl.get_column df n) as [s0|]; [|discriminate].
    cbn [option_map] in Hs. inversion Hs.
    apply dtype_cast. now apply (target_type_cases n).
  - intros n s Hs Ht. now rewrite get_column_enforce_schema, Ht.
  - rewrite (enforce_schema_map f64_to_string df Hnd).
    rewrite enforce_schema_map.
    + rewrite map_map. apply map_ext. apply schema_cast_idempotent.
    + rewrite columns_map; [exact Hnd | apply fst_schema_cast].
Qed.

Lemma enforce_schema_columnwise_witness :
  NoDup (pl.columns Samples.missing_close)
  /\ enforce_schema Samples.float_text Samples.missing_close
     = [ ("ticker", SUtf8 [Some "aapl"; Some "aapl"]);
         ("close_price", SFloat64 [None; Some (F64.of_Z 110)]);
         ("volume", SInt64 [Some 5%Z; Some 7%Z]) ].
Proof.
  assert (Hnd : NoDup (pl.columns Samples.missing_close)).
  { apply nodupb_NoDup. reflexivity. }
  split; [exact Hnd|].
  exact (proj1 (enforce_schema_columnwise Samples.float_text Samples.missing_close Hnd)).
Defined.

(** ** Stages 2 to 6 as one *)

Lemma NoDup_nodupb (l : list string) : NoDup l -> Str.nodupb l = true.
Proof.
  induction 1 as [|x r Hnot Hnd IH]; [reflexivity|].
  cbn [Str.nodupb]. rewrite IH, andb_true_r. apply negb_true_iff.
  destruct (Str.mem x r) eqn:M; [|reflexivity].
  apply mem_In in M. contradiction.
Qed.

Lemma combine_map {A B C : Type} (f : A -> B) (g : A -> C) (l : list A) :
  combine (map f l) (map g l) = map (fun x => (f x, g x)) l.
Proof. induction l as [|a r IH]; [reflexivity|]. cbn [map combine]. now rewrite IH. Qed.

Lemma fst_cleaned_column (c : string * Series) : fst (cleaned_column c) = fst c.
Proof. destruct c as [n [l|l|l|l|l]]; reflexivity. Qed.

Lemma len_cleaned_column (c : string * Series) :
  pl.len (snd (cleaned_column c)) = pl.len (snd c).
Proof.
  destruct c as [n [l|l|l|l|l]]; try reflexivity.
  unfold cleaned_column, pl.len. cbn [fst snd pl.cells]. now rewrite !length_map.
Qed.

Lemma len_schema_cast (f64_to_string : F64.t -> string) (c : string * Series) :
  pl.len (snd (schema_cast f64_to_string c)) = pl.len (snd c).
Proof.
  unfold schema_cast. destruct (target_type (fst c)); [|reflexivity].
  cbn [snd]. apply len_cast.
Qed.

Lemma fst_staged (f64_to_string : F64.t -> string) (c : string * Series) :
  fst (staged f64_to_string c) = normalize_header (fst c).
Proof.
  unfold staged. now rewrite fst_schema_cast, fst_date_fixed, fst_cleaned_column.
Qed.

Lemma len_staged (f64_to_string : F64.t -> string) (c : string * Series) :
  pl.len (snd (staged f64_to_string c)) = pl.len (snd c).
Proof.
  unfold staged. now rewrite len_schema_cast, len_date_fixed, len_cleaned_column.
Qed.

Lemma columns_staged (f64_to_string : F64.t -> string) (raw : DataFrame) :
  pl.columns (map (staged f64_to_string) raw) = map normalize_header (pl.columns raw).
Proof.
  unfold pl.columns. rewrite !map_map. apply map_ext. apply fst_staged.
Qed.

Lemma height_staged (f64_to_string : F64.t -> string) (raw : DataFrame) :
  pl.height (map (staged f64_to_string) raw) = pl.height raw.
Proof.
  destruct raw as [|[n s] r]; [reflexivity|].
  cbn [map pl.height].
  destruct (staged f64_to_string (n, s)) as [n' s'] eqn:E.
  change s' with (snd (n', s')). rewrite <- E. apply len_staged.
Qed.

(** When the normalized headers are all different the cleaned table is
    the frame as read, changed column by column, without its repeated
    rows. *)
Lemma clean_closed_form (f64_to_string : F64.t -> string) (raw : DataFrame) :
  NoDup (map normalize_header (pl.columns raw)) ->
  clean f64_to_string raw = Ok (pl.unique (map (staged f64_to_string) raw)).
Proof.
  intro Hnd. unfold clean, rename_columns.
  rewrite (NoDup_nodupb _ Hnd). cbn [bind].
  unfold pl.columns at 1. rewrite map_map, combine_map.
  set (renamed := map (fun c : string * Series => (normalize_header (fst c), snd c)) raw).
  assert (Hc0 : pl.columns renamed = map normalize_header (pl.columns raw)).
  { unfold renamed, pl.columns. rewrite !map_map. reflexivity. }
  assert (Hnd0 : NoDup (pl.columns renamed)) by now rewrite Hc0.
  rewrite (clean_text_map renamed Hnd0).
  assert (Hnd1 : NoDup (pl.columns (map cleaned_column renamed))).
  { now rewrite columns_map_cleaned. }
  rewrite (fix_date_columns_map _ Hnd1). cbn [bind].
  rewrite enforce_schema_map.
  - unfold renamed. rewrite !map_map. reflexivity.
  - rewrite columns_map; [exact Hnd1 | apply fst_date_fixed].
Qed.

Lemma dtype_take_series (idx : list nat) (s : Series) :
  pl.dtype (pl.take_series idx s) = pl.dtype s.
Proof. now destruct s. Qed.

Lemma length_unique_positions (rs : list (list cell)) :
  length (pl.unique_positions rs) <= length rs.
Proof.
  unfold pl.unique_positions.
  etransitivity; [apply filter_length_le|]. now rewrite length_seq.
Qed.

Lemma height_unique (df : DataFrame) : pl.height (pl.unique df) <= pl.height df.
Proof.
  destruct df as [|c r] eqn:E; [apply le_n|]. rewrite <- E.
  unfold pl.unique. rewrite height_take by (subst; discriminate).
  etransitivity; [apply length_unique_positions|]. now rewrite length_rows.
Qed.

Lemma staged_type (f64_to_string : F64.t -> string) (raw : DataFrame)
    (n : string) (s : Series) (t : DataType) :
  pl.get_column (pl.unique (map (staged f64_to_string) raw)) n = Some s ->
  target_type n = Some t -> pl.dtype s = t.
Proof.
  intros Hs Ht. unfold pl.unique in Hs.
  rewrite get_column_take in Hs.
  destruct (pl.get_column (map (staged f64_to_string) raw) n) as [s0|] eqn:E0;
    [|discriminate].
  cbn [option_map] in Hs. inversion Hs. rewrite dtype_take_series.
  apply get_column_In_pair, in_map_iff in E0 as (c & Hc & _).
  unfold staged, schema_cast in Hc.
  set (x := date_fixed (cleaned_column (normalize_header (fst c), snd c))) in Hc.
  destruct (target_type (fst x)) as [t'|] eqn:Et.
  - inversion Hc as [[Hn Hs0]]. rewrite Hn in Et.
    assert (t' = t) by congruence. subst t'.
    apply dtype_cast. now apply (target_type_cases n).
  - rewrite Hc in Et. cbn [fst] in Et. congruence.
Qed.

(** X9.  Stages 2 to 6 raise in one case only: two headers of the file
    have the same normalized form, and then the exception is that of
    the renaming. *)
Theorem clean_raises_on_colliding_headers
    (f64_to_string : F64.t -> string) (raw : DataFrame) (e : exn) :
  clean f64_to_string raw = Raise e ->
  e = DuplicateError /\ ~ NoDup (map normalize_header (pl.columns raw)).
Proof.
  intro H.
  destruct (Str.nodupb (map normalize_header (pl.columns raw))) eqn:E.
  - rewrite (clean_closed_form f64_to_string raw (nodupb_NoDup _ E)) in H.
    discriminate.
  - split.
    + unfold clean, rename_columns in H. rewrite E in H. cbn [bind] in H.
      now inversion H.
    + intro Hnd. apply NoDup_nodupb in Hnd. congruence.
Qed.

Lemma clean_raises_on_colliding_headers_witness :
  clean Samples.float_text Samples.colliding = Raise DuplicateError
  /\ map normalize_header (pl.columns Samples.colliding)
     = ["close_price"; "close_price"]
  /\ ~ NoDup (map normalize_header (pl.columns Samples.colliding)).
Proof.
  split; [reflexivity|]. split; [reflexivity|].
  exact (proj2 (clean_raises_on_colliding_headers
                  Samples.float_text Samples.colliding DuplicateError eq_refl)).
Defined.

(** X10.  When the normalized headers are all different, stages 2 to 6
    return the frame as read, changed column by column and without its
    repeated rows: the names are the normalized headers in their order,
    every column has the height of the table, which is at most that of
    the frame as read, no two rows are the same, and a column that the
    dictionary of stage 5 names has the type the dictionary gives. *)
Theorem clean_postconditions (f64_to_string : F64.t -> string) (raw : DataFrame) :
  NoDup (map normalize_header (pl.columns raw)) ->
  exists df,
    clean f64_to_string raw = Ok df
    /\ df = pl.unique (map (staged f64_to_string) raw)
    /\ pl.columns df = map normalize_header (pl.columns raw)
    /\ rectangular df
    /\ pl.height df <= pl.height raw
    /\ NoDupA same_row (pl.rows df)
    /\ pl.unique df = df
    /\ (forall (n : string) (s : Series) (t : DataType),
           pl.get_column df n = Some s -> target_type n = Some t ->
           pl.dtype s = t).
Proof.
  intro Hnd. eexists. split; [now apply clean_closed_form|].
  split; [reflexivity|]. split; [|split; [|split; [|split; [|split]]]].
  - unfold pl.unique. rewrite columns_take. apply columns_staged.
  - apply rectangular_take.
  - etransitivity; [apply height_unique|]. now rewrite height_staged.
  - apply unique_NoDupA.
  - apply unique_fixed; [apply rectangular_take | apply unique_NoDupA].
  - intros n s t. apply staged_type.
Qed.

Lemma clean_postconditions_witness :
  NoDup (map normalize_header (pl.columns Samples.quotes))
  /\ exists df,
       clean Samples.float_text Samples.quotes = Ok df
       /\ pl.columns df = ["trade_date"; "ticker"; "close_price"; "volume"; "sector"]
       /\ pl.height df <= 3.
Proof.
  assert (Hnd : NoDup (map normalize_header (pl.columns Samples.quotes))).
  { apply nodupb_NoDup. reflexivity. }
  split; [exact Hnd|].
  destruct (clean_postconditions Samples.float_text Samples.quotes Hnd)
    as (df & H1 & _ & H2 & _ & H3 & _).
  exists df. split; [exact H1|]. split; [exact H2 | exact H3].
Defined.

(** ** sort *)

(** X11.  A sort, when it returns, returns the columns of the frame
    under their names and the rows of the frame, each as many times as
    the frame has it. *)
Theorem sort_keeps_rows (df df' : DataFrame) (names : list string) :
  Frame.sort df names = Ok df' ->
  pl.columns df' = pl.columns df
  /\ pl.height df' = pl.height df
  /\ Permutation (pl.rows df') (pl.rows df).
Proof.
  unfold Frame.sort. destruct (pl.select df names) as [k|e]; [|discriminate].
  cbn [bind]. intro H. inversion H as [H']. clear H H'.
  set (leb := fun i j => Expr.row_leb (nth i (pl.rows k) []) (nth j (pl.rows k) [])).
  pose proof (sort_positions_perm leb (seq 0 (pl.height df))) as Hperm.
  split; [apply columns_take|].
  destruct df as [|c r] eqn:E; [now repeat split|]. rewrite <- E in *.
  assert (Hne : df <> []) by (subst; discriminate).
  split.
  - rewrite height_take by exact Hne.
    rewrite (Permutation_length Hperm). apply length_seq.
  - rewrite rows_take by exact Hne. unfold pl.rows.
    now apply Permutation_map.
Qed.

Lemma sort_keeps_rows_witness :
  exists df',
    Frame.sort Samples.repeated ["ticker"] = Ok df'
    /\ pl.columns df' = ["ticker"; "close_price"]
    /\ pl.height df' = 6.
Proof.
  eexists. split; [reflexivity|].
  split; [exact (proj1 (sort_keeps_rows Samples.repeated _ ["ticker"] eq_refl))
         | exact (proj1 (proj2 (sort_keeps_rows Samples.repeated _ ["ticker"] eq_refl)))].
Defined.

(** ** Aggregates 1 and 2 *)

Lemma mean_some (l : list (option F64.t)) (x : F64.t) :
  In (Some x) l -> Expr.mean l <> None.
Proof.
  intro Hin. unfold Expr.mean.
  assert (Hx : In x (flat_map (fun v : option F64.t =>
                                 match v with Some y => [y] | None => [] end) l)).
  { apply in_flat_map. exists (Some x). split; [exact Hin | now left]. }
  destruct (flat_map _ l); [contradiction | discriminate].
Qed.

Lemma select_height (idx : list nat) (df k : DataFrame) (n : string) (rest : list string) :
  pl.select (pl.take idx df) (n :: rest) = Ok k -> pl.height k = length idx.
Proof.
  cbn [pl.select]. unfold pl.col. rewrite get_column_take.
  destruct (pl.get_column df n) as [s|]; [|discriminate]. cbn [option_map bind].
  destruct (pl.select (pl.take idx df) rest) as [d|]; [|discriminate].
  cbn [bind]. intro H. inversion H. cbn [pl.height]. apply len_take_series.
Qed.

(** The numbers of a column, at the positions where it is not null. *)
Lemma f64_values_not_null (c : Series) (vs : list (option F64.t)) (j : nat) :
  Expr.f64_values (pl.take_series (non_null_positions c) c) = Ok vs ->
  j < length (non_null_positions c) ->
  exists x, nth j vs None = Some x.
Proof.
  intros Hvs Hj.
  assert (Hp : In (nth j (non_null_positions c) 0) (non_null_positions c))
    by now apply nth_In.
  apply non_null_positions_In in Hp as [_ Hp]. unfold pl.cell_at in Hp.
  destruct c as [l|l|l|l|l]; try discriminate;
    cbn [pl.take_series Expr.f64_values] in Hvs; inversion Hvs; subst vs;
    cbn [pl.cells] in Hp; rewrite nth_map_to_cell in Hp.
  - change None with (option_map F64.of_Z None) at 1.
    rewrite map_nth, nth_gather by exact Hj.
    destruct (nth _ l None) as [z|]; [now eexists | discriminate].
  - rewrite nth_gather by exact Hj.
    destruct (nth _ l None) as [z|]; [now eexists | discriminate].
Qed.

(** A mean by groups over the rows where the value is not null: one
    row for every different key, and a mean in every row. *)
Lemma filtered_group_mean (df a : DataFrame) (key : string) (keys : list string)
    (value alias : string) :
  bind (Frame.filter_not_null df value)
       (fun f => Frame.group_by_mean f (key :: keys) value alias) = Ok a ->
  exists (c : Series) (k : DataFrame) (means : list (option F64.t)),
    pl.get_column df value = Some c
    /\ pl.select (pl.take (non_null_positions c) df) (key :: keys) = Ok k
    /\ a = pl.unique k ++ [(alias, SFloat64 means)]
    /\ length means = pl.height (pl.unique k)
    /\ (forall m, In m means -> m <> None).
Proof.
  unfold Frame.filter_not_null, pl.col.
  destruct (pl.get_column df value) as [c|] eqn:Ec; [|discriminate].
  cbn [bind]. unfold pl.filter.
  change (pl.positions (Expr.is_not_null c)) with (non_null_positions c).
  set (nn := non_null_positions c). unfold Frame.group_by_mean.
  destruct (pl.select (pl.take nn df) (key :: keys)) as [k|] eqn:Ek; [|discriminate].
  cbn [bind]. unfold pl.col. rewrite get_column_take, Ec. cbn [option_map bind].
  destruct (Expr.f64_values (pl.take_series nn c)) as [vs|] eqn:Evs; [|discriminate].
  cbn [bind]. intro H. inversion H as [Ha]. clear H.
  pose proof (select_height nn df k key keys Ek) as Hh.
  assert (Hk : k <> []).
  { intro E. subst k. cbn [pl.select] in Ek. unfold pl.col in Ek.
    destruct (pl.get_column (pl.take nn df) key); [|discriminate].
    cbn [bind] in Ek.
    destruct (pl.select (pl.take nn df) keys); discriminate. }
  subst a.
  exists c, k. eexists. split; [reflexivity|]. split; [exact Ek|].
  split; [reflexivity|]. split.
  - rewrite length_map. unfold pl.unique. now rewrite height_take.
  - intros m Hm. apply in_map_iff in Hm as (i & <- & Hi).
    apply unique_positions_In in Hi as [Hi _].
    rewrite length_rows, Hh in Hi.
    destruct (f64_values_not_null c vs i Evs Hi) as [x Hx].
    apply (mean_some _ x). rewrite <- Hx.
    unfold pl.gather.
    apply (in_map (fun j => nth j vs None)).
    apply filter_In. split.
    + apply in_seq. rewrite length_rows, Hh. lia.
    + apply same_row_refl.
Qed.





(** ** The run, from the cleaned table on *)

Lemma agg1_returns (df : DataFrame) (d t c : Series) :
  pl.get_column df "trade_date" = Some d ->
  pl.get_column df "ticker" = Some t ->
  pl.get_column df "close_price" = Some c ->
  pl.dtype c = Float64 \/ pl.dtype c = Int64 ->
  exists a, agg1 df = Ok a.
Proof.
  intros Hd Ht Hc Hnum.
  unfold agg1, Frame.filter_not_null, pl.col. rewrite Hc. cbn [bind].
  unfold Frame.group_by_mean, pl.filter. cbn [pl.select]. unfold pl.col.
  rewrite !get_column_take, Hd, Ht, Hc. cbn [option_map bind].
  destruct c as [l|l|l|l|l]; cbn [pl.dtype] in Hnum;
    try (destruct Hnum; discriminate);
    cbn [pl.take_series Expr.f64_values bind]; eexists; reflexivity.
Qed.

Lemma agg2_returns (df : DataFrame) (s v : Series) :
  pl.get_column df "sector" = Some s ->
  pl.get_column df "volume" = Some v ->
  pl.dtype v = Float64 \/ pl.dtype v = Int64 ->
  exists a, agg2 df = Ok a.
Proof.
  intros Hs Hv Hnum.
  unfold agg2, Frame.filter_not_null, pl.col. rewrite Hv. cbn [bind].
  unfold Frame.group_by_mean, pl.filter. cbn [pl.select]. unfold pl.col.
  rewrite !get_column_take, Hs, Hv. cbn [option_map bind].
  destruct v as [l|l|l|l|l]; cbn [pl.dtype] in Hnum;
    try (destruct Hnum; discriminate);
    cbn [pl.take_series Expr.f64_values bind]; eexists; reflexivity.
Qed.

(** The parse of Aggregate 3 on a text column: dates, or the error of
    a value that is in no layout. *)
Lemma strptime_inferred_outcome (l : list (option string)) (e : exn) :
  Expr.strptime_inferred (SUtf8 l) = Raise e -> e = ComputeError.
Proof.
  unfold Expr.strptime_inferred.
  destruct (Expr.first_value l) as [v|]; [|intro H; now inversion H].
  destruct (Expr.infer_format Expr.inferred_formats v) as [fmt|];
    [|intro H; now inversion H].
  cbn [Expr.strptime]. rewrite parse_all_spec.
  destruct (all_parse fmt l); cbn [bind]; [discriminate|].
  intro H. now inversion H.
Qed.

Lemma strptime_inferred_dates (s d : Series) :
  Expr.strptime_inferred s = Ok d -> exists ds, d = SDate ds.
Proof.
  intro H. destruct (strptime_inferred_inv s d H) as (l & fmt & _ & _ & _ & ->).
  now eexists.
Qed.

Lemma agg3_outcome (df : DataFrame) (l0 : list (option string)) (t c : Series) :
  pl.get_column df "trade_date" = Some (SUtf8 l0) ->
  pl.get_column df "ticker" = Some t ->
  pl.get_column df "close_price" = Some c ->
  pl.dtype c = Float64 \/ pl.dtype c = Int64 ->
  (exists a, agg3 df = Ok a) \/ agg3 df = Raise ComputeError.
Proof.
  intros Hd Ht Hc Hnum.
  unfold agg3, agg3_tmp, pl.col. rewrite Hd. cbn [bind].
  destruct (Expr.strptime_inferred (SUtf8 l0)) as [d|e] eqn:E.
  - left. cbn [bind].
    unfold Frame.sort. cbn [pl.select]. unfold pl.col.
    rewrite !with_columns_one, !get_column_with_column.
    change (String.eqb "trade_date" "ticker") with false.
    change (String.eqb "trade_date" "trade_date") with true.
    cbv iota. rewrite Ht. cbn [bind].
    rewrite !get_column_take, !get_column_with_column.
    change (String.eqb "trade_date" "close_price") with false.
    change (String.eqb "trade_date" "ticker") with false.
    cbv iota. rewrite Hc, Ht. cbn [option_map bind].
    destruct c as [l|l|l|l|l]; cbn [pl.dtype] in Hnum;
      try (destruct Hnum; discriminate);
      cbn [pl.take_series Expr.f64_values bind pl.select]; unfold pl.col;
      rewrite !with_columns_one, !get_column_with_column, !get_column_take,
        !get_column_with_column;
      change (String.eqb "return" "trade_date") with false;
      change (String.eqb "return" "ticker") with false;
      change (String.eqb "return" "return") with true;
      change (String.eqb "trade_date" "trade_date") with true;
      change (String.eqb "trade_date" "ticker") with false;
      cbv iota; rewrite Ht; cbn [option_map bind]; eexists; reflexivity.
  - right. cbn [bind]. now rewrite (strptime_inferred_outcome l0 e E).
Qed.

Lemma series_utf8 (s : Series) : pl.dtype s = Utf8 -> exists l, s = SUtf8 l.
Proof. destruct s; try discriminate. now eexists. Qed.

Lemma clean_ok_headers (f64_to_string : F64.t -> string) (raw df : DataFrame) :
  clean f64_to_string raw = Ok df ->
  NoDup (map normalize_header (pl.columns raw)).
Proof.
  intro H. apply nodupb_NoDup.
  destruct (Str.nodupb (map normalize_header (pl.columns raw))) eqn:E; [reflexivity|].
  unfold clean, rename_columns in H. rewrite E in H. discriminate.
Qed.

(** A column of the cleaned table that the dictionary names has its
    target type. *)
Lemma cleaned_column_type (f64_to_string : F64.t -> string) (raw df : DataFrame)
    (n : string) (t : DataType) :
  clean f64_to_string raw = Ok df ->
  Str.mem n (pl.columns df) = true ->
  target_type n = Some t ->
  exists s, pl.get_column df n = Some s /\ pl.dtype s = t.
Proof.
  intros H Hn Ht.
  rewrite (clean_closed_form f64_to_string raw (clean_ok_headers _ _ _ H)) in H.
  inversion H as [Hdf]. rewrite Hdf.
  apply mem_In, In_get_column in Hn as [s Hs].
  exists s. split; [exact Hs|].
  rewrite <- Hdf in Hs. now apply (staged_type f64_to_string raw n s t).
Qed.

(** X14.  The run after a cleaning that returned.  The cleaned table
    is written first and stays written.  Without one of ticker,
    trade_date and close_price nothing else is written and the run ends
    with the error of a missing column; with them Aggregate 1 is written,
    and without volume or sector the run ends there with the same error;
    with them Aggregate 2 is written, and then either Aggregate 3 is
    written and the run ends well, or its dates are in no layout and the
    run ends with the error of the parse.  There is no other end. *)
Theorem main_outcomes
    (f64_to_string : F64.t -> string) (raw df : DataFrame) (fs : Files) :
  clean f64_to_string raw = Ok df ->
  (has_return_columns df = false ->
   main f64_to_string raw fs
   = ((CLEAN_PATH, df) :: fs, Raise ColumnNotFoundError))
  /\ (has_return_columns df = true ->
      exists a1,
        agg1 df = Ok a1
        /\ ((Str.mem "volume" (pl.columns df) && Str.mem "sector" (pl.columns df))%bool
            = false ->
            main f64_to_string raw fs
            = ((AGG1_PATH, a1) :: (CLEAN_PATH, df) :: fs, Raise ColumnNotFoundError))
        /\ ((Str.mem "volume" (pl.columns df) && Str.mem "sector" (pl.columns df))%bool
            = true ->
            exists a2,
              agg2 df = Ok a2
              /\ ((exists a3,
                      agg3 df = Ok a3
                      /\ main f64_to_string raw fs
                         = ((AGG3_PATH, a3) :: (AGG2_PATH, a2) :: (AGG1_PATH, a1)
                              :: (CLEAN_PATH, df) :: fs, Ok tt))
                  \/ (agg3 df = Raise ComputeError
                      /\ main f64_to_string raw fs
                         = ((AGG2_PATH, a2) :: (AGG1_PATH, a1)
                              :: (CLEAN_PATH, df) :: fs, Raise ComputeError))))).
Proof.
  intro Hclean.
  assert (Hmain : main f64_to_string raw fs = aggregates df ((CLEAN_PATH, df) :: fs)).
  { unfold main, seq_script, lift, write_parquet. now rewrite Hclean. }
  rewrite Hmain. split.
  - intro Hno. now apply aggregates_missing_column.
  - intro Hyes. unfold has_return_columns in Hyes. cbn [forallb] in Hyes.
    apply andb_prop in Hyes as [Hk Hyes]. apply andb_prop in Hyes as [Hd Hyes].
    apply andb_prop in Hyes as [Hc _].
    destruct (cleaned_column_type f64_to_string raw df "ticker" Utf8 Hclean Hk eq_refl)
      as (t & Ht & _).
    destruct (cleaned_column_type f64_to_string raw df "trade_date" Utf8 Hclean Hd eq_refl)
      as (d & Hdate & Hdt).
    destruct (cleaned_column_type f64_to_string raw df "close_price" Float64 Hclean Hc eq_refl)
      as (c & Hclose & Hct).
    destruct (series_utf8 d Hdt) as [l0 ->].
    destruct (agg1_returns df _ t c Hdate Ht Hclose (or_introl Hct)) as [a1 Ha1].
    exists a1. split; [exact Ha1|].
    assert (Hhas : has_return_columns df = true).
    { unfold has_return_columns. cbn [forallb]. now rewrite Hk, Hd, Hc. }
    split.
    + intro Hmiss.
      assert (Ha2 : agg2 df = Raise ColumnNotFoundError).
      { unfold agg2, Frame.filter_not_null.
        destruct (Str.mem "volume" (pl.columns df)) eqn:Ev.
        - cbn [andb] in Hmiss.
          destruct (cleaned_column_type f64_to_string raw df "volume" Int64
                      Hclean Ev eq_refl) as (v & Hv & Hvt).
          unfold pl.col at 1. rewrite Hv. cbn [bind].
          unfold Frame.group_by_mean. cbn [pl.select].
          assert (Hs : pl.col (pl.filter (Expr.is_not_null v) df) "sector"
                       = Raise ColumnNotFoundError).
          { apply col_missing. unfold pl.filter. now rewrite columns_take. }
          now rewrite Hs.
        - now rewrite (col_missing Ev). }
      unfold aggregates, seq_script, lift, write_parquet.
      now rewrite Ha1, Ha2.
    + intro Hboth. apply andb_prop in Hboth as [Ev Es].
      destruct (cleaned_column_type f64_to_string raw df "volume" Int64 Hclean Ev eq_refl)
        as (v & Hv & Hvt).
      destruct (cleaned_column_type f64_to_string raw df "sector" Utf8 Hclean Es eq_refl)
        as (s & Hs & _).
      destruct (agg2_returns df s v Hs Hv (or_intror Hvt)) as [a2 Ha2].
      exists a2. split; [exact Ha2|].
      unfold aggregates, seq_script, lift, write_parquet.
      rewrite Ha1, Ha2, Hhas.
      destruct (agg3_outcome df l0 t c Hdate Ht Hclose (or_introl Hct))
        as [[a3 Ha3] | Ha3].
      * left. exists a3. split; [exact Ha3|]. now rewrite Ha3.
      * right. split; [exact Ha3|]. now rewrite Ha3.
Qed.

Lemma main_outcomes_witness :
  exists df a1 a2,
    clean Samples.float_text Samples.bad_dates = Ok df
    /\ has_return_columns df = true
    /\ (Str.mem "volume" (pl.columns df) && Str.mem "sector" (pl.columns df))%bool = true
    /\ agg1 df = Ok a1
    /\ agg2 df = Ok a2
    /\ main Samples.float_text Samples.bad_dates []
       = ([(AGG2_PATH, a2); (AGG1_PATH, a1); (CLEAN_PATH, df)], Raise ComputeError).
Proof.
  eexists.
  destruct (main_outcomes Samples.float_text Samples.bad_dates _ [] eq_refl) as [_ H].
  destruct (H eq_refl) as (a1 & Ha1 & _ & H2).
  destruct (H2 eq_refl) as (a2 & Ha2 & [(a3 & Ha3 & _) | (_ & Hm)]).
  - exfalso. vm_compute in Ha3. discriminate.
  - exists a1, a2.
    split; [reflexivity|]. split; [reflexivity|]. split; [reflexivity|].
    split; [exact Ha1|]. split; [exact Ha2 | exact Hm].
Defined.

(** ** The dashboard and the dates of the aggregates *)

Lemma parses_gather (fmt : string) (idx : list nat) (l : list (option string)) :
  all_parse fmt l = true -> all_parse fmt (pl.gather idx l) = true.
Proof.
  unfold all_parse. rewrite !forallb_forall. intros H v Hv.
  unfold pl.gather in Hv. apply in_map_iff in Hv as (i & <- & _).
  destruct (Nat.lt_ge_cases i (length l)) as [Hi|Hi].
  - apply H, nth_In, Hi.
  - now rewrite nth_overflow.
Qed.

(** The text cells of the rows kept by [unique] parse when the text
    cells of all the rows do, and only then. *)
Lemma parses_first_occurrences (fmt : string) (l : list (option string)) (t : Series) :
  all_parse fmt
    (pl.gather (pl.unique_positions (pl.rows [("trade_date", SUtf8 l); ("ticker", t)])) l)
  = all_parse fmt l.
Proof.
  set (k := [("trade_date", SUtf8 l); ("ticker", t)]).
  assert (Hh : pl.height k = length l).
  { unfold k, pl.height, pl.len. cbn [pl.cells]. apply length_map. }
  destruct (all_parse fmt l) eqn:E; [now apply parses_gather|].
  destruct (all_parse fmt (pl.gather (pl.unique_positions (pl.rows k)) l)) eqn:E2;
    [|reflexivity].
  exfalso. unfold all_parse in E, E2.
  assert (forallb (parses fmt) l = true); [|congruence].
  rewrite forallb_forall in *. intros v Hv.
  apply (In_nth _ _ None) in Hv as (j & Hj & <-).
  destruct (unique_covers (pl.rows k) j) as (i & Hi & Hsame).
  { rewrite length_rows, Hh. exact Hj. }
  assert (Hil : i < length l).
  { apply unique_positions_In in Hi as [Hi _]. now rewrite length_rows, Hh in Hi. }
  rewrite !nth_rows in Hsame by (rewrite Hh; assumption).
  unfold same_row, k, pl.row in Hsame. cbn [map snd pl.row_eqb] in Hsame.
  apply andb_prop in Hsame as [Hcell _].
  unfold pl.cell_at in Hcell. cbn [pl.cells] in Hcell.
  rewrite !nth_map_to_cell in Hcell.
  assert (Heq : nth i l None = nth j l None).
  { destruct (nth i l None), (nth j l None); cbn [pl.to_cell pl.cell_eqb] in Hcell;
      try discriminate; [|reflexivity].
    apply String.eqb_eq in Hcell. now subst. }
  rewrite <- Heq. apply E2. unfold pl.gather.
  apply (in_map (fun p => nth p l None)). exact Hi.
Qed.

(** What the dashboard makes of Aggregate 1 of a table that holds its
    dates as text. *)
Lemma ensure_date_agg1
    (df a1 : DataFrame) (l : list (option string)) (c : Series) :
  pl.get_column df "trade_date" = Some (SUtf8 l) ->
  pl.get_column df "close_price" = Some c ->
  agg1 df = Ok a1 ->
  exists shown,
    pl.get_column a1 "trade_date" = Some (SUtf8 shown)
    /\ all_parse "%Y-%m-%d" shown
       = all_parse "%Y-%m-%d" (pl.gather (non_null_positions c) l)
    /\ ensure_date a1
       = if all_parse "%Y-%m-%d" shown
         then Ok (pl.with_column a1 "trade_date"
                    (SDate (map (parsed_cell "%Y-%m-%d") shown)))
         else Raise ComputeError.
Proof.
  intros Hd Hc H.
  destruct (filtered_group_mean df a1 _ _ _ _ H) as (c' & k & means & Hc' & Hk & Ha & _).
  rewrite Hc in Hc'. inversion Hc'. subst c'. clear Hc'.
  set (nn := non_null_positions c) in *.
  cbn [pl.select] in Hk. unfold pl.col in Hk.
  rewrite !get_column_take, Hd in Hk. cbn [option_map bind pl.take_series] in Hk.
  destruct (pl.get_column df "ticker") as [t|]; [|discriminate].
  cbn [option_map bind] in Hk. inversion Hk as [Hk']. clear Hk.
  set (shown := pl.gather (pl.unique_positions
                             (pl.rows [("trade_date", SUtf8 (pl.gather nn l));
                                       ("ticker", pl.take_series nn t)]))
                          (pl.gather nn l)).
  assert (Hget : pl.get_column a1 "trade_date" = Some (SUtf8 shown)).
  { rewrite Ha, <- Hk'. reflexivity. }
  exists shown. split; [exact Hget|]. split; [apply parses_first_occurrences|].
  unfold ensure_date, pl.col. rewrite Hget.
  cbn [bind pl.dtype pl.dtype_eqb Expr.strptime]. rewrite parse_all_spec.
  now destruct (all_parse "%Y-%m-%d" shown).
Qed.



Lemma dtype_strptime_inferred (s d : Series) :
  Expr.strptime_inferred s = Ok d -> pl.dtype d = Date.
Proof. intro H. now destruct (strptime_inferred_dates s d H) as [ds ->]. Qed.

(** X16.  The dashboard and Aggregate 3.  Aggregate 3, when it
    returns, holds its dates as dates, and the dashboard takes it as it
    was written. *)
Theorem dashboard_keeps_agg3 (df a3 : DataFrame) :
  agg3 df = Ok a3 ->
  (exists ds, pl.get_column a3 "trade_date" = Some (SDate ds))
  /\ pl.columns a3 = ["trade_date"; "ticker"; "return"]
  /\ ensure_date a3 = Ok a3.
Proof.
  unfold agg3, agg3_tmp.
  destruct (pl.col df "trade_date") as [s|]; [|discriminate]. cbn [bind].
  destruct (Expr.strptime_inferred s) as [d|] eqn:Ed; [|discriminate]. cbn [bind].
  destruct (strptime_inferred_dates s d Ed) as [ds ->].
  unfold Frame.sort.
  destruct (pl.select (pl.with_columns df [("trade_date", SDate ds)])
              ["ticker"; "trade_date"]) as [k|]; [|discriminate].
  cbn [bind].
  set (perm := Expr.sort_positions _ _).
  set (sorted := pl.take perm (pl.with_columns df [("trade_date", SDate ds)])).
  destruct (pl.col sorted "close_price") as [c|]; [|discriminate]. cbn [bind].
  destruct (Expr.f64_values c) as [close|]; [|discriminate]. cbn [bind].
  destruct (pl.col sorted "ticker") as [t|] eqn:Et; [|discriminate]. cbn [bind].
  cbn [pl.select]. unfold pl.col.
  rewrite !with_columns_one, !get_column_with_column.
  change (String.eqb "return" "trade_date") with false.
  change (String.eqb "return" "ticker") with false.
  change (String.eqb "return" "return") with true.
  cbv iota.
  assert (Hd : pl.get_column sorted "trade_date" = Some (SDate (pl.gather perm ds))).
  { unfold sorted. rewrite get_column_take, with_columns_one, get_column_with_column.
    reflexivity. }
  rewrite Hd. unfold pl.col in Et.
  destruct (pl.get_column sorted "ticker") as [t'|]; [|discriminate].
  inversion Et; subst t'. cbn [bind].
  intro H. inversion H as [Ha]. clear H.
  unfold pl.drop_nulls, pl.filter.
  set (keep := pl.positions _).
  assert (Hget : pl.get_column
                   (pl.take keep
                      [("trade_date", SDate (pl.gather perm ds)); ("ticker", t);
                       ("return",
                        SFloat64 (Expr.over (pl.cells t) return_expr close))])
                   "trade_date"
                 = Some (SDate (pl.gather keep (pl.gather perm ds)))) by reflexivity.
  split; [now eexists|]. split; [reflexivity|].
  unfold ensure_date, pl.col. rewrite Hget. reflexivity.
Qed.

Lemma dashboard_keeps_agg3_witness :
  exists a3,
    agg3 Samples.two_closes = Ok a3
    /\ pl.columns a3 = ["trade_date"; "ticker"; "return"]
    /\ ensure_date a3 = Ok a3.
Proof.
  eexists. split; [reflexivity|].
  exact (proj2 (dashboard_keeps_agg3 Samples.two_closes _ eq_refl)).
Defined.

(** ** Stage 3 before stage 4 *)

(** X17.  A value that stage 3 takes for a missing one keeps a date
    column from being parsed.  Stage 3 writes the text "null" in its
    place, the strict parse of stage 4 fails on that text, and the whole
    column is left as stage 3 wrote it, whatever its other cells hold. *)
Theorem null_text_blocks_dates
    (df : DataFrame) (col : string) (l : list (option string)) (s : string) :
  NoDup (pl.columns df) ->
  pl.get_column df col = Some (SUtf8 l) ->
  In (Some s) l ->
  Str.mem (Expr.to_lowercase (Expr.trim s)) NULL_EQUIV = true ->
  exists df',
    fix_date_columns (clean_text df) = Ok df'
    /\ In (Some "null") (map clean_cell l)
    /\ all_parse "%m/%d/%Y" (map clean_cell l) = false
    /\ pl.get_column df' col = Some (SUtf8 (map clean_cell l)).
Proof.
  intros Hnd Hget Hin Hnull.
  assert (Hcell : In (Some "null") (map clean_cell l)).
  { apply in_map_iff. exists (Some s). split; [|exact Hin].
    unfold clean_cell, is_in, trimmed_lowercased. cbn [option_map].
    now rewrite Hnull. }
  assert (Hbad : all_parse "%m/%d/%Y" (map clean_cell l) = false).
  { now apply (all_parse_false _ _ "null" Hcell). }
  rewrite (clean_text_map df Hnd).
  rewrite fix_date_columns_map by now rewrite columns_map_cleaned.
  eexists. split; [reflexivity|]. split; [exact Hcell|]. split; [exact Hbad|].
  rewrite (get_column_map date_fixed _ col fst_date_fixed).
  rewrite (get_column_map cleaned_column df col fst_cleaned_column), Hget.
  cbn [option_map]. unfold cleaned_column at 1. cbn [fst snd].
  unfold date_fixed. cbn [fst snd]. now rewrite Hbad, andb_false_r.
Qed.

Lemma null_text_blocks_dates_witness :
  exists df',
    fix_date_columns (clean_text Samples.gap_in_dates) = Ok df'
    /\ pl.get_column df' "trade_date" = Some (SUtf8 [Some "01/02/2023"; Some "null"]).
Proof.
  assert (Hnd : NoDup (pl.columns Samples.gap_in_dates)).
  { apply nodupb_NoDup. reflexivity. }
  destruct (null_text_blocks_dates Samples.gap_in_dates "trade_date" _ "N/A"
              Hnd eq_refl (or_intror (or_introl eq_refl)) eq_refl)
    as (df' & H1 & _ & _ & H2).
  exists df'. split; [exact H1 | exact H2].
Defined.

(** ** Dates in the layout MM/DD/YYYY, from the file to the dashboard *)

(** The column of the cleaned table that comes from a column of the
    file. *)
Lemma cleaned_column_of (f64_to_string : F64.t -> string) (raw df : DataFrame)
    (c : string * Series) :
  clean f64_to_string raw = Ok df ->
  In c raw ->
  pl.get_column df (normalize_header (fst c))
  = Some (pl.take_series
            (pl.unique_positions (pl.rows (map (staged f64_to_string) raw)))
            (snd (staged f64_to_string c))).
Proof.
  intros H Hin.
  pose proof (clean_ok_headers _ _ _ H) as Hnd.
  rewrite (clean_closed_form f64_to_string raw Hnd) in H. inversion H as [Hdf].
  unfold pl.unique. rewrite get_column_take.
  rewrite (get_column_In (map (staged f64_to_string) raw)
             (normalize_header (fst c)) (snd (staged f64_to_string c))).
  - reflexivity.
  - now rewrite columns_staged.
  - rewrite <- (fst_staged f64_to_string c), <- surjective_pairing.
    now apply in_map.
Qed.

Lemma first_value_In (l : list (option string)) (t : string) :
  Expr.first_value l = Some t -> In (Some t) l.
Proof.
  induction l as [|[s|] r IH]; cbn [Expr.first_value]; [discriminate| |].
  - intro H. inversion H. now left.
  - intro H. right. now apply IH.
Qed.

(** The parse of Aggregate 3 on cells that stage 4 wrote. *)
Lemma strptime_inferred_reformatted (fmt : string) (idx : list nat)
    (l : list (option string)) :
  Expr.first_value (pl.gather idx (map (reformatted fmt) l)) <> None ->
  Expr.strptime_inferred (SUtf8 (pl.gather idx (map (reformatted fmt) l)))
  = Ok (SDate (map (parsed_cell "%Y-%m-%d")
                 (pl.gather idx (map (reformatted fmt) l)))).
Proof.
  intro Hfirst. unfold Expr.strptime_inferred.
  destruct (Expr.first_value (pl.gather idx (map (reformatted fmt) l)))
    as [t|] eqn:Ef; [|now elim Hfirst].
  assert (Ht : exists dt, t = Dates.strftime "%Y-%m-%d" dt
                          /\ Dates.from_ymd_opt (year dt) (month dt) (day dt) = Some dt).
  { apply first_value_In in Ef. unfold pl.gather in Ef.
    apply in_map_iff in Ef as (i & Hi & _).
    destruct (Nat.lt_ge_cases i (length (map (reformatted fmt) l))) as [Hlt|Hge];
      [|rewrite nth_overflow in Hi by exact Hge; discriminate].
    assert (Hin : In (Some t) (map (reformatted fmt) l))
      by (rewrite <- Hi; now apply nth_In).
    apply in_map_iff in Hin as (v & Hv & _).
    unfold reformatted in Hv. destruct v as [x|]; cbn [parsed_cell] in Hv;
      [|discriminate].
    destruct (Dates.parse_from_str fmt x) as [dt|] eqn:Ep; [|discriminate].
    cbn [option_map] in Hv. inversion Hv. exists dt. split; [reflexivity|].
    now apply (parse_from_str_valid fmt x). }
  destruct Ht as (dt & -> & Hv).
  rewrite (infer_format_iso dt Hv). cbn [Expr.strptime].
  rewrite parse_all_spec, parses_gather by apply reformatted_parses.
  reflexivity.
Qed.

(** X18.  Dates in the layout MM/DD/YYYY go through.  When a text
    column of the file has the header of trade_date and every cell of
    it, after stage 3, passes the strict parse with MM/DD/YYYY, the
    cleaned table holds the column as text in the layout YYYY-MM-DD;
    the parse of Aggregate 3 reads it when it has a value, and the
    dashboard reads the dates of Aggregate 1. *)
Theorem month_first_dates_go_through
    (f64_to_string : F64.t -> string) (raw df : DataFrame)
    (h : string) (l0 : list (option string)) :
  In (h, SUtf8 l0) raw ->
  normalize_header h = "trade_date" ->
  all_parse "%m/%d/%Y" (map clean_cell l0) = true ->
  clean f64_to_string raw = Ok df ->
  exists shown,
    pl.get_column df "trade_date" = Some (SUtf8 shown)
    /\ all_parse "%Y-%m-%d" shown = true
    /\ (Expr.first_value shown <> None ->
        Expr.strptime_inferred (SUtf8 shown)
        = Ok (SDate (map (parsed_cell "%Y-%m-%d") shown)))
    /\ (forall a1, agg1 df = Ok a1 -> exists a, ensure_date a1 = Ok a).
Proof.
  intros Hin Hh Hall Hclean.
  pose proof (cleaned_column_of f64_to_string raw df _ Hclean Hin) as Hget.
  cbn [fst] in Hget. rewrite Hh in Hget.
  assert (Hst : snd (staged f64_to_string (h, SUtf8 l0))
                = SUtf8 (map (reformatted "%m/%d/%Y") (map clean_cell l0))).
  { unfold staged. cbn [fst snd]. rewrite Hh.
    unfold cleaned_column. cbn [fst snd].
    unfold date_fixed. cbn [fst snd]. rewrite Hall.
    reflexivity. }
  rewrite Hst in Hget. cbn [pl.take_series] in Hget.
  set (idx := pl.unique_positions _) in Hget.
  set (l1 := map clean_cell l0) in *.
  exists (pl.gather idx (map (reformatted "%m/%d/%Y") l1)).
  assert (Hiso : all_parse "%Y-%m-%d" (pl.gather idx (map (reformatted "%m/%d/%Y") l1))
                 = true)
    by (apply parses_gather, reformatted_parses).
  split; [exact Hget|]. split; [exact Hiso|].
  split; [apply strptime_inferred_reformatted|].
  intros a1 Ha1.
  assert (Hc : exists c, pl.get_column df "close_price" = Some c).
  { unfold agg1, Frame.filter_not_null, pl.col in Ha1.
    destruct (pl.get_column df "close_price") as [c|]; [now exists c | discriminate]. }
  destruct Hc as [c Hc].
  destruct (ensure_date_agg1 df a1 _ c Hget Hc Ha1) as (shown & _ & Hsame & Hens).
  rewrite Hens, Hsame, parses_gather by exact Hiso. now eexists.
Qed.

Lemma month_first_dates_go_through_witness :
  exists df,
    clean Samples.float_text Samples.quotes = Ok df
    /\ pl.get_column df "trade_date"
       = Some (SUtf8 [Some "2023-01-02"; Some "2023-01-01"])
    /\ exists shown,
         pl.get_column df "trade_date" = Some (SUtf8 shown)
         /\ all_parse "%Y-%m-%d" shown = true.
Proof.
  eexists. split; [reflexivity|]. split; [reflexivity|].
  destruct (month_first_dates_go_through Samples.float_text Samples.quotes _
              " Trade Date " _ (or_introl eq_refl) eq_refl eq_refl eq_refl)
    as (shown & H1 & H2 & _).
  exists shown. split; [exact H1 | exact H2].
Defined.
